(** * phonemizer/backend/espeak/api.py: the low-level espeak-ng bindings

    A shallow embedding of class [EspeakAPI].  The Python code is a thin
    layer over the operating system (tempfile, shutil, pathlib), the dynamic
    loader (ctypes, dlinfo), the weak-reference finalizer registry and the
    native library itself, so the embedding threads an explicit [World]
    through a state-and-exception monad [Py]; every method of the class is a
    [Py] computation written statement for statement after the source. *)

From stdpp Require Import gmap strings list fin_maps.

Open Scope string_scope.
Open Scope list_scope.

(** ** Paths and the file system *)

(** A path is the list of its components below the root; [pathlib]'s
    [p / name] is [p ++ [name]] and [p.name] is the last component. *)
Abbreviation path := (list string).

Inductive node :=
  | Dir
  | File (bytes : string)
  | Symlink (target : path).

Definition path_name (p : path) : string := List.last p "".

Definition path_join (p : path) (name : string) : path :=
  if decide (name = "") then p else p ++ [name].

(** ** Python exceptions *)

Inductive os_error :=
  | FileNotFoundError
  | FileExistsError
  | IsADirectoryError
  | NotADirectoryError
  | PermissionError
  | SameFileError
  | PlainOSError.

(** The three [RuntimeError]s the module raises differ by their message
    only; [symlink_loop] is the one [pathlib.Path.resolve] raises itself. *)
Inductive rt_msg :=
  | failed_to_load (cause : os_error)
  | failed_to_retrieve_path
  | failed_to_initialize
  | symlink_loop.

Inductive exn :=
  | OSError (k : os_error)
  | RuntimeError (m : rt_msg)
  | AttributeError (attr : string)
  | ArgumentError (position : nat)
  | TypeError
  | ValueError_NULL_pointer_access
  | DLInfoException
  | ValueError_embedded_null_byte.

Definition is_OSError (e : exn) : bool :=
  match e with OSError _ => true | _ => false end.

(** The error classes of the specification, as the code raises them. *)
Definition LoadError (e : exn) : Prop := ∃ k, e = RuntimeError (failed_to_load k).
Definition PathResolutionError (e : exn) : Prop := e = RuntimeError failed_to_retrieve_path.
Definition InitializationError (e : exn) : Prop := e = RuntimeError failed_to_initialize.

Inductive result (A : Type) :=
  | Ok (a : A)
  | Raise (e : exn).
Arguments Ok {A} a.
Arguments Raise {A} e.

(** ** ctypes values *)

(** Modelled from the spec: [EspeakVoice_Struct] is the voice descriptor
    [EspeakVoice.Struct] of phonemizer/backend/espeak/voice.py, a file that
    is not among the sources; the bindings only name it as the target of
    pointers, so it is kept as an opaque type. *)
Inductive ctype :=
  | c_int
  | c_uint
  | c_size_t
  | c_char_p
  | c_void_p
  | EspeakVoice_Struct
  | POINTER (t : ctype).

Global Instance ctype_eq_dec : EqDecision ctype.
Proof. solve_decision. Defined.

(** Python objects that cross the binding.  A ctypes instance is known by
    its type and the address of its buffer; its value lives in the world's
    cell memory. *)
Inductive pyval :=
  | PyNone
  | PyInt (z : Z)
  | PyStr (addr : Z) (s : string)
  | PyBytes (addr : Z) (s : string)
  | PyCData (t : ctype) (addr : Z)
  | PyByref (t : ctype) (addr : Z)
  | PyTuple (a b : pyval).

(** What the native code receives in an argument slot. *)
Inductive cval :=
  | CInt (z : Z)
  | CUInt (z : Z)
  | CSize (z : Z)
  | CPtr (z : Z).

Definition wrap_int32 (z : Z) : Z := ((z + 2 ^ 31) `mod` 2 ^ 32 - 2 ^ 31)%Z.
Definition wrap_uint32 (z : Z) : Z := (z `mod` 2 ^ 32)%Z.
Definition wrap_uint64 (z : Z) : Z := (z `mod` 2 ^ 64)%Z.

(** Outcome of a foreign call: the raw return word with the stores made
    through pointer arguments, or a Python exception surfacing from it. *)
Inductive nresult :=
  | NRet (raw : Z) (stores : list (Z * Z))
  | NRaise (e : exn).

Inductive platform := linux | darwin | win32.

Inductive libname :=
  | ByName (s : string)
  | ByPath (p : path).

(** A [ctypes.CDLL] object. *)
Record CDLL := mkCDLL { _handle : nat; _name : libname }.

(** A foreign function object, the attribute [sym] of a [CDLL]. *)
Record FuncPtr := mkFuncPtr { fp_handle : nat; fp_sym : string }.

(** The attributes of an [EspeakAPI] object.  [_library] is [None] as in
    Python; [_tempdir] and [_library_path] are [None] until assigned. *)
Record Instance := mkInstance {
  _library : option CDLL;
  _tempdir : option path;
  _library_path : option path
}.

(** What a finalizer calls: the program only ever registers the bound
    method [self._terminate]. *)
Inductive callable :=
  | Bound_terminate (self : nat).

(** An entry of [weakref.finalize._registry]: the target is held weakly,
    the callable strongly. *)
Record Finalizer := mkFinalizer {
  fin_obj : nat;
  fin_func : callable;
  fin_alive : bool
}.

(** A native call: module, symbol, the words passed and the outcome. *)
Record Event := EvCall {
  ev_handle : nat;
  ev_sym : string;
  ev_args : list cval;
  ev_res : nresult
}.

Section EspeakAPI.

(** The globals of one loaded copy of a native library. *)
Context {nstate : Type}.

(** The code of a shared object: the initial value of its globals, what
    each exported symbol does to them when called (a symbol that is not
    exported is [None]), and the NUL-terminated strings found in its data. *)
Record NativeLib := mkNativeLib {
  nl_init : nstate;
  nl_sym : string → option (nstate → list cval → nstate * nresult);
  nl_string : nstate → Z → string
}.

(** One entry of the dynamic linker's link map: the name the object was
    asked for, the file it was mapped from, its code and its globals.
    The handle of a module is its position in the map. *)
Record Module := mkModule {
  l_name : path;
  l_real : path;
  m_lib : NativeLib;
  m_state : nstate
}.

(** What the machine is: the platform, the directory for temporary
    files, where the loader finds a library given by name, how a string
    reads as a path from the current directory (the empty string as that
    directory itself), the code that the bytes of a file are (none when
    they are no shared object), the paths whose final-path lookup fails on
    Windows, the version of the interpreter as (major, minor), and the code
    of the main program. *)
Record Env := mkEnv {
  sys_platform : platform;
  gettempdir : path;
  ld_lookup : string → option path;
  path_of_string : string → path;
  dl_image : string → option NativeLib;
  win_resolve_error : path → option os_error;
  sys_version_info : nat * nat;
  main_program : NativeLib
}.

(** What changes: the file system, the names [tempfile] will try next,
    the link map, the cells of ctypes objects with the next free address,
    the instances of [EspeakAPI] (an object is its position on the heap),
    the finalizer registry, the native calls made so far and what was
    written to the error stream. *)
Record World := mkWorld {
  w_fs : gmap path node;
  w_tmp_names : list string;
  w_modules : list Module;
  w_cmem : gmap Z Z;
  w_brk : Z;
  w_heap : list Instance;
  w_registry : list Finalizer;
  w_trace : list Event;
  w_stderr : list exn
}.

Definition set_fs (f : gmap path node → gmap path node) (w : World) : World :=
  mkWorld (f (w_fs w)) (w_tmp_names w) (w_modules w) (w_cmem w) (w_brk w)
          (w_heap w) (w_registry w) (w_trace w) (w_stderr w).
Definition set_tmp_names (l : list string) (w : World) : World :=
  mkWorld (w_fs w) l (w_modules w) (w_cmem w) (w_brk w)
          (w_heap w) (w_registry w) (w_trace w) (w_stderr w).
Definition set_modules (f : list Module → list Module) (w : World) : World :=
  mkWorld (w_fs w) (w_tmp_names w) (f (w_modules w)) (w_cmem w) (w_brk w)
          (w_heap w) (w_registry w) (w_trace w) (w_stderr w).
Definition set_cmem (f : gmap Z Z → gmap Z Z) (brk : Z) (w : World) : World :=
  mkWorld (w_fs w) (w_tmp_names w) (w_modules w) (f (w_cmem w)) brk
          (w_heap w) (w_registry w) (w_trace w) (w_stderr w).
Definition set_heap (f : list Instance → list Instance) (w : World) : World :=
  mkWorld (w_fs w) (w_tmp_names w) (w_modules w) (w_cmem w) (w_brk w)
          (f (w_heap w)) (w_registry w) (w_trace w) (w_stderr w).
Definition set_registry (f : list Finalizer → list Finalizer) (w : World) : World :=
  mkWorld (w_fs w) (w_tmp_names w) (w_modules w) (w_cmem w) (w_brk w)
          (w_heap w) (f (w_registry w)) (w_trace w) (w_stderr w).
Definition log_event (e : Event) (w : World) : World :=
  mkWorld (w_fs w) (w_tmp_names w) (w_modules w) (w_cmem w) (w_brk w)
          (w_heap w) (w_registry w) (w_trace w ++ [e]) (w_stderr w).
Definition log_stderr (e : exn) (w : World) : World :=
  mkWorld (w_fs w) (w_tmp_names w) (w_modules w) (w_cmem w) (w_brk w)
          (w_heap w) (w_registry w) (w_trace w) (w_stderr w ++ [e]).

(** ** The monad of Python statements *)

Definition Py (A : Type) : Type := World → World * result A.

Definition ret {A} (a : A) : Py A := λ w, (w, Ok a).
Definition raise {A} (e : exn) : Py A := λ w, (w, Raise e).
Definition bind {A B} (m : Py A) (k : A → Py B) : Py B :=
  λ w, match m w with
       | (w1, Ok a) => k a w1
       | (w1, Raise e) => (w1, Raise e)
       end.
Definition try_except {A} (body : Py A) (catches : exn → bool) (handler : exn → Py A) : Py A :=
  λ w, match body w with
       | (w1, Ok a) => (w1, Ok a)
       | (w1, Raise e) => if catches e then handler e w1 else (w1, Raise e)
       end.

End EspeakAPI.

Arguments NativeLib : clear implicits.
Arguments Module : clear implicits.
Arguments Env : clear implicits.
Arguments World : clear implicits.
Arguments Py : clear implicits.

Notation "x <- m ;; k" := (bind m (λ x, k))
  (at level 100, m at next level, right associativity).
Notation "m ;;; k" := (bind m (λ _, k))
  (at level 100, right associativity).

Section Bindings.

Context {nstate : Type} (E : Env nstate).

Local Abbreviation M := (Py nstate).
Local Abbreviation W := (World nstate).

(** ** tempfile, shutil and pathlib *)

(** [os.mkdir(parent / name)]. *)
Definition os_mkdir (parent : path) (name : string) : M unit :=
  λ w, match w_fs w !! parent with
       | Some Dir =>
           match w_fs w !! (parent ++ [name]) with
           | Some _ => (w, Raise (OSError FileExistsError))
           | None => (set_fs (insert (parent ++ [name]) Dir) w, Ok ())
           end
       | Some _ => (w, Raise (OSError NotADirectoryError))
       | None => (w, Raise (OSError FileNotFoundError))
       end.

(** [tempfile.mkdtemp()]: the candidate names of the random sequence are
    tried in turn; a name already taken is skipped, any other error of
    [os.mkdir] is passed on, and running out of candidates is the
    [FileExistsError] "No usable temporary directory name found". *)
Fixpoint mkdtemp_loop (names : list string) : M path :=
  match names with
  | [] => λ w, (set_tmp_names [] w, Raise (OSError FileExistsError))
  | n :: rest =>
      λ w, match os_mkdir (gettempdir E) n w with
           | (w1, Ok _) => (set_tmp_names rest w1, Ok (gettempdir E ++ [n]))
           | (w1, Raise (OSError FileExistsError)) => mkdtemp_loop rest w1
           | (w1, Raise e) => (set_tmp_names rest w1, Raise e)
           end
  end.

Definition mkdtemp : M path := λ w, mkdtemp_loop (w_tmp_names w) w.

(** Following a chain of symbolic links as the kernel does: after
    [MAXSYMLINKS] links the chain counts as a loop, [None]. *)
Definition MAXSYMLINKS : nat := 40.

Fixpoint follow (fuel : nat) (fs : gmap path node) (p : path) : option path :=
  match fs !! p with
  | Some (Symlink t) =>
      match fuel with
      | O => None
      | S n => follow n fs t
      end
  | _ => Some p
  end.

Definition realpath (fs : gmap path node) (p : path) : option path :=
  follow MAXSYMLINKS fs p.

(** [pathlib.Path(p).resolve()] (not strict): symbolic links are followed,
    a path that does not exist is returned as it is, a loop raises
    [RuntimeError].  On Windows an error of the final-path lookup other
    than "not found" is passed on. *)
Fixpoint resolve_loop (fuel : nat) (fs : gmap path node) (p : path) : result path :=
  match (if sys_platform E is win32 then win_resolve_error E p else None) with
  | Some k => Raise (OSError k)
  | None =>
      match fs !! p with
      | Some (Symlink t) =>
          match fuel with
          | O => Raise (RuntimeError symlink_loop)
          | S n => resolve_loop n fs t
          end
      | _ => Ok p
      end
  end.

Definition resolve (p : path) : M path :=
  λ w, (w, resolve_loop MAXSYMLINKS (w_fs w) p).

(** [open(p, 'wb')] followed by writing [b]. *)
Definition write_file (p : path) (b : string) : M unit :=
  λ w, match realpath (w_fs w) p with
       | None => (w, Raise (OSError PlainOSError))
       | Some q =>
           match w_fs w !! q with
           | Some Dir => (w, Raise (OSError IsADirectoryError))
           | _ =>
               match w_fs w !! removelast q with
               | Some Dir => (set_fs (insert q (File b)) w, Ok ())
               | Some _ => (w, Raise (OSError NotADirectoryError))
               | None => (w, Raise (OSError FileNotFoundError))
               end
           end
       end.

Definition isdir (fs : gmap path node) (p : path) : bool :=
  match realpath fs p with
  | Some q => if fs !! q is Some Dir then true else false
  | None => false
  end.

(** [shutil.copy(src, dst, follow_symlinks=False)]: a destination that is
    a directory receives the file under the source's name; a source that
    is a symbolic link is re-created as a link, anything else is opened
    and its bytes are written. *)
Definition shutil_copy (src dst : path) : M unit :=
  λ w,
    let dst' := if isdir (w_fs w) dst then path_join dst (path_name src) else dst in
    if decide (src = dst') then (w, Raise (OSError SameFileError)) else
    match w_fs w !! src with
    | Some (Symlink t) =>
        match w_fs w !! dst' with
        | Some _ => (w, Raise (OSError FileExistsError))
        | None => (set_fs (insert dst' (Symlink t)) w, Ok ())
        end
    | Some (File b) => write_file dst' b w
    | Some Dir => (w, Raise (OSError IsADirectoryError))
    | None => (w, Raise (OSError FileNotFoundError))
    end.

(** [shutil.rmtree(d)]: the directory goes with everything below it. *)
Definition rmtree_fs (d : path) (fs : gmap path node) : gmap path node :=
  filter (λ kv, ¬ d `prefix_of` kv.1) fs.

Definition shutil_rmtree (d : path) : M unit :=
  λ w, match w_fs w !! d with
       | Some Dir => (set_fs (rmtree_fs d) w, Ok ())
       | Some (File _) => (w, Raise (OSError NotADirectoryError))
       | Some (Symlink _) => (w, Raise (OSError PlainOSError))
       | None => (w, Raise (OSError FileNotFoundError))
       end.

(** ** The dynamic loader *)

Definition loaded_as (p : path) (ms : list (Module nstate)) : option nat :=
  fst <$> list_find (λ m, l_name m = p) ms.

Definition loaded_from (q : path) (ms : list (Module nstate)) : option nat :=
  fst <$> list_find (λ m, l_real m = q) ms.

(** [dlopen(p)]: an object already loaded under this name, or from this
    very file, is returned again (its reference count goes up, nothing is
    loaded); otherwise the file is mapped as a new module with its own
    fresh globals.  Nothing in the program ever calls [dlclose]. *)
Definition dlopen (p : path) : M nat :=
  λ w, match loaded_as p (w_modules w) with
       | Some h => (w, Ok h)
       | None =>
           match realpath (w_fs w) p with
           | None => (w, Raise (OSError PlainOSError))
           | Some q =>
               match w_fs w !! q with
               | Some (File b) =>
                   match loaded_from q (w_modules w) with
                   | Some h => (w, Ok h)
                   | None =>
                       match dl_image E b with
                       | Some lib =>
                           (set_modules (λ ms, ms ++ [mkModule p q lib (nl_init lib)]) w,
                            Ok (length (w_modules w)))
                       | None => (w, Raise (OSError PlainOSError))
                       end
                   end
               | _ => (w, Raise (OSError PlainOSError))
               end
           end
       end.

(** [dlopen] of the empty name, which the loader of Linux answers with
    the main program.  The link map of the model lists what the program has
    asked for, so the main program enters it the first time it is asked
    for; the name recorded for it is the empty one, as a path the working
    directory.  The working directory is taken to be a directory on disk:
    a process whose working directory has been removed under it is outside
    the model, and there the request is answered with an error. *)
Definition dlopen_main : M nat :=
  λ w, let p := path_of_string E "" in
       match loaded_as p (w_modules w) with
       | Some h => (w, Ok h)
       | None =>
           match realpath (w_fs w) p with
           | Some q =>
               match w_fs w !! q with
               | Some Dir =>
                   (set_modules
                      (λ ms, ms ++ [mkModule p q (main_program E) (nl_init (main_program E))])
                      w,
                    Ok (length (w_modules w)))
               | _ => (w, Raise (OSError PlainOSError))
               end
           | None => (w, Raise (OSError PlainOSError))
           end
       end.

(** A string with a NUL in it is no file name. *)
Fixpoint embedded_NUL (s : string) : bool :=
  match s with
  | EmptyString => false
  | String c s' => Ascii.eqb c Ascii.zero || embedded_NUL s'
  end.

(** On Windows the interpreters older than 3.12 test the name for a path
    separator as if it were a string, which a [pathlib.Path] does not
    allow. *)
Definition pathlike_refused : bool :=
  match sys_platform E with
  | win32 =>
      (fst (sys_version_info E) <? 3)%nat
      || ((fst (sys_version_info E) =? 3)%nat && (snd (sys_version_info E) <? 12)%nat)
  | _ => false
  end.

Definition asks_for_main_program (s : string) : bool :=
  match sys_platform E with
  | linux => bool_decide (s = "")
  | _ => false
  end.

(** [ctypes.cdll.LoadLibrary(name)].  The name is a string where the
    program passes [library] and a [pathlib.Path] where it passes the path
    of the copy.  A string with an embedded NUL is turned down with
    [ValueError] before the loader sees it, and a [pathlib.Path] with
    [TypeError] on the interpreters that take it for a string; the
    components of a path never hold a NUL. *)
Definition LoadLibrary (name : libname) : M CDLL :=
  h <- match name with
       | ByName s =>
           if embedded_NUL s then raise ValueError_embedded_null_byte
           else if asks_for_main_program s then dlopen_main
           else match ld_lookup E s with
                | Some p => dlopen p
                | None => raise (OSError PlainOSError)
                end
       | ByPath p =>
           if pathlike_refused then raise TypeError else dlopen p
       end ;;
  ret (mkCDLL h name).

(** [dlinfo.DLInfo(library).path]: the name recorded in the link map. *)
Definition DLInfo_path (library : CDLL) : M path :=
  λ w, match w_modules w !! _handle library with
       | Some m => (w, Ok (l_name m))
       | None => (w, Raise DLInfoException)
       end.

(** ** ctypes: attribute lookup, argument and result conversion *)

Definition cell (mem : gmap Z Z) (a : Z) : Z := default 0%Z (mem !! a).

Definition conv_simple (t : ctype) (z : Z) : option cval :=
  match t with
  | c_int => Some (CInt (wrap_int32 z))
  | c_uint => Some (CUInt (wrap_uint32 z))
  | c_size_t => Some (CSize (wrap_uint64 z))
  | _ => None
  end.

(** An integer given for a [c_void_p]: any integer is taken, reduced to
    the width of a pointer. *)
Definition conv_pointer_int (z : Z) : option cval := Some (CPtr (wrap_uint64 z)).

(** [t.from_param(v)] for an entry [t] of [argtypes]. *)
Definition from_param (mem : gmap Z Z) (t : ctype) (v : pyval) : option cval :=
  match t with
  | c_int | c_uint | c_size_t =>
      match v with
      | PyInt z => conv_simple t z
      | PyCData t' a => if decide (t' = t) then conv_simple t (cell mem a) else None
      | _ => None
      end
  | c_char_p =>
      match v with
      | PyNone => Some (CPtr 0)
      | PyBytes a _ => Some (CPtr a)
      | PyCData c_char_p a => Some (CPtr (cell mem a))
      | _ => None
      end
  | c_void_p =>
      match v with
      | PyNone => Some (CPtr 0)
      | PyInt z => conv_pointer_int z
      | PyBytes a _ | PyStr a _ => Some (CPtr a)
      | PyCData (c_void_p | c_char_p | POINTER _) a => Some (CPtr (cell mem a))
      | PyByref _ a => Some (CPtr a)
      | _ => None
      end
  | POINTER t' =>
      match v with
      | PyNone => Some (CPtr 0)
      | PyCData t'' a =>
          if decide (t'' = t') then Some (CPtr a)
          else if decide (t'' = POINTER t') then Some (CPtr (cell mem a))
          else None
      | PyByref t'' a => if decide (t'' = t') then Some (CPtr a) else None
      | _ => None
      end
  | EspeakVoice_Struct => None
  end.

(** The conversion of an argument beyond [argtypes]. *)
Definition conv_default (mem : gmap Z Z) (v : pyval) : option cval :=
  match v with
  | PyNone => Some (CPtr 0)
  | PyInt z => if decide (- 2 ^ 63 ≤ z < 2 ^ 64)%Z then Some (CInt (wrap_int32 z)) else None
  | PyBytes a _ | PyStr a _ => Some (CPtr a)
  | PyCData t a =>
      match t with
      | c_int | c_uint | c_size_t => conv_simple t (cell mem a)
      | c_char_p | c_void_p | POINTER _ => Some (CPtr (cell mem a))
      | EspeakVoice_Struct => None
      end
  | PyByref _ a => Some (CPtr a)
  | PyTuple _ _ => None
  end.

Fixpoint convert_args (mem : gmap Z Z) (argtypes : list ctype) (args : list pyval)
    (position : nat) : result (list cval) :=
  match args with
  | [] => Ok []
  | v :: vs =>
      let c := match argtypes with
               | t :: _ => from_param mem t v
               | [] => conv_default mem v
               end in
      match c with
      | None => Raise (ArgumentError position)
      | Some c =>
          match convert_args mem (tail argtypes) vs (S position) with
          | Ok cs => Ok (c :: cs)
          | Raise e => Raise e
          end
      end
  end.

(** [library.sym]: the attribute of a [CDLL] object is looked up with
    [dlsym]; [None] has no attributes. *)
Definition getattr_func (library : option CDLL) (sym : string) : M FuncPtr :=
  λ w, match library with
       | None => (w, Raise (AttributeError sym))
       | Some lib =>
           match w_modules w !! _handle lib with
           | Some m =>
               match nl_sym (m_lib m) sym with
               | Some _ => (w, Ok (mkFuncPtr (_handle lib) sym))
               | None => (w, Raise (AttributeError sym))
               end
           | None => (w, Raise (AttributeError sym))
           end
       end.

Definition alloc_cell (v : Z) : M Z :=
  λ w, (set_cmem (insert (w_brk w) v) (w_brk w + 8)%Z w, Ok (w_brk w)).

Definition apply_stores (stores : list (Z * Z)) (mem : gmap Z Z) : gmap Z Z :=
  foldl (λ m s, <[s.1 := s.2]> m) mem stores.

(** The [bytes] object made from the NUL-terminated string that module
    [h] holds at address [p]; a null pointer gives [None]. *)
Definition bytes_at (h : nat) (p : Z) : M pyval :=
  if decide (p = 0%Z) then ret PyNone else
  λ w, let s := match w_modules w !! h with
                | Some m => nl_string (m_lib m) (m_state m) p
                | None => ""
                end in
       (a <- alloc_cell 0 ;; ret (PyBytes a s)) w.

(** The Python value built from the raw word a foreign function returns. *)
Definition convert_result (restype : ctype) (h : nat) (raw : Z) : M pyval :=
  match restype with
  | c_char_p => bytes_at h raw
  | POINTER t => a <- alloc_cell raw ;; ret (PyCData (POINTER t) a)
  | c_uint => ret (PyInt (wrap_uint32 raw))
  | c_size_t | c_void_p => ret (PyInt (wrap_uint64 raw))
  | c_int | EspeakVoice_Struct => ret (PyInt (wrap_int32 raw))
  end.

(** [p.value] of a [c_char_p] instance and [p.contents] of a pointer
    instance whose buffer is at [a]. *)
Definition c_char_p_value (h : nat) (a : Z) : M pyval :=
  λ w, bytes_at h (cell (w_cmem w) a) w.

Definition contents (v : pyval) : M pyval :=
  λ w, match v with
       | PyCData (POINTER t) a =>
           if decide (cell (w_cmem w) a = 0%Z)
           then (w, Raise ValueError_NULL_pointer_access)
           else (w, Ok (PyCData t (cell (w_cmem w) a)))
       | _ => (w, Raise (AttributeError "contents"))
       end.

(** Calling a foreign function object whose [argtypes] and [restype] are
    as given. *)
Definition call (f : FuncPtr) (argtypes : list ctype) (restype : ctype)
    (args : list pyval) : M pyval :=
  λ w,
    if (length args <? length argtypes)%nat then (w, Raise TypeError) else
    match convert_args (w_cmem w) argtypes args 1 with
    | Raise e => (w, Raise e)
    | Ok cargs =>
        match w_modules w !! fp_handle f with
        | None => (w, Raise (AttributeError (fp_sym f)))
        | Some m =>
            match nl_sym (m_lib m) (fp_sym f) with
            | None => (w, Raise (AttributeError (fp_sym f)))
            | Some code =>
                let '(st, res) := code (m_state m) cargs in
                let w1 := log_event (EvCall (fp_handle f) (fp_sym f) cargs res)
                            (set_modules (<[fp_handle f := mkModule (l_name m) (l_real m) (m_lib m) st]>) w) in
                match res with
                | NRaise e => (w1, Raise e)
                | NRet raw stores =>
                    convert_result restype (fp_handle f) raw
                      (set_cmem (apply_stores stores) (w_brk w1) w1)
                end
            end
        end
    end.


(** ** class EspeakAPI *)

(** [object.__new__] followed by the first statement of [__init__],
    [self._library = None]; an attribute not yet assigned is [None] in
    [_tempdir] and [_library_path]. *)
Definition new_instance : M nat :=
  λ w, (set_heap (λ h, h ++ [mkInstance None None None]) w, Ok (length (w_heap w))).

(** [self.attr = value] and [self.attr]. *)
Definition setattr_self (self : nat) (f : Instance → Instance) : M unit :=
  λ w, (set_heap (alter f self) w, Ok ()).

Definition self_library (self : nat) : M (option CDLL) :=
  λ w, match w_heap w !! self with
       | Some i => (w, Ok (_library i))
       | None => (w, Raise (AttributeError "_library"))
       end.

Definition self_tempdir (self : nat) : M path :=
  λ w, match w_heap w !! self with
       | Some (mkInstance _ (Some d) _) => (w, Ok d)
       | _ => (w, Raise (AttributeError "_tempdir"))
       end.

(** [weakref.finalize(obj, func)]. *)
Definition weakref_finalize (obj : nat) (func : callable) : M unit :=
  λ w, (set_registry (λ r, r ++ [mkFinalizer obj func true]) w, Ok ()).

(** [EspeakAPI._shared_library_path], lines 79-97. *)
Definition _shared_library_path (library : CDLL) : M path :=
  if sys_platform E is win32 then
    resolve (match _name library with
             | ByName s => path_of_string E s
             | ByPath p => p
             end)
  else
    try_except
      (p <- DLInfo_path library ;; resolve p)
      (λ _, true)
      (λ _, raise (RuntimeError failed_to_retrieve_path)).

(** [EspeakAPI.__init__], lines 30-66.  The value is the new object. *)
Definition __init__ (library : string) : M nat :=
  self <- new_instance ;;
  tempdir <- mkdtemp ;;
  setattr_self self (λ i, mkInstance (_library i) (Some tempdir) (_library_path i)) ;;;
  weakref_finalize self (Bound_terminate self) ;;;
  library_path <-
    try_except
      (espeak <- LoadLibrary (ByName library) ;;
       _shared_library_path espeak)
      is_OSError
      (λ error, raise (match error with
                       | OSError k => RuntimeError (failed_to_load k)
                       | e => e
                       end)) ;;
  let espeak_copy := path_join tempdir (path_name library_path) in
  shutil_copy library_path espeak_copy ;;;
  lib <- LoadLibrary (ByPath espeak_copy) ;;
  setattr_self self (λ i, mkInstance (Some lib) (_tempdir i) (_library_path i)) ;;;
  lib' <- self_library self ;;
  f <- getattr_func lib' "espeak_Initialize" ;;
  r <- call f [] c_int [PyInt 2; PyInt 0; PyNone; PyInt 0] ;;
  match r with
  | PyInt z =>
      if (z <=? 0)%Z then raise (RuntimeError failed_to_initialize) else
      setattr_self self (λ i, mkInstance (_library i) (_tempdir i) (Some library_path)) ;;;
      ret self
  | _ => raise TypeError
  end.

(** [EspeakAPI._terminate], lines 68-73. *)
Definition _terminate (self : nat) : M unit :=
  lib <- self_library self ;;
  (if lib is Some _ then
     f <- getattr_func lib "espeak_Terminate" ;;
     call f [] c_int [] ;;;
     ret ()
   else ret ()) ;;;
  tempdir <- self_tempdir self ;;
  shutil_rmtree tempdir.

(** The property [library_path], lines 75-77, and the seven low-level
    methods, lines 99-149. *)
Definition library_path (self : nat) : M path :=
  λ w, match w_heap w !! self with
       | Some (mkInstance _ _ (Some p)) => (w, Ok p)
       | _ => (w, Raise (AttributeError "_library_path"))
       end.

Definition info (self : nat) : M pyval :=
  lib <- self_library self ;;
  f_info <- getattr_func lib "espeak_Info" ;;
  data_path <- alloc_cell 0 ;;
  version <- call f_info [] c_char_p [PyByref c_char_p data_path] ;;
  value <- c_char_p_value (fp_handle f_info) data_path ;;
  ret (PyTuple version value).

Definition list_voices (self : nat) (name : pyval) : M pyval :=
  lib <- self_library self ;;
  f_list_voices <- getattr_func lib "espeak_ListVoices" ;;
  call f_list_voices [POINTER EspeakVoice_Struct]
       (POINTER (POINTER EspeakVoice_Struct)) [name].

Definition set_voice_by_name (self : nat) (name : pyval) : M pyval :=
  lib <- self_library self ;;
  f_set_voice_by_name <- getattr_func lib "espeak_SetVoiceByName" ;;
  call f_set_voice_by_name [c_char_p] c_int [name].

Definition get_current_voice (self : nat) : M pyval :=
  lib <- self_library self ;;
  f_get_current_voice <- getattr_func lib "espeak_GetCurrentVoice" ;;
  p <- call f_get_current_voice [] (POINTER EspeakVoice_Struct) [] ;;
  contents p.

Definition text_to_phonemes (self : nat) (text_ptr text_mode phonemes_mode : pyval) : M pyval :=
  lib <- self_library self ;;
  f_text_to_phonemes <- getattr_func lib "espeak_TextToPhonemes" ;;
  call f_text_to_phonemes [POINTER c_char_p; c_int; c_int] c_char_p
       [text_ptr; text_mode; phonemes_mode].

Definition set_phoneme_trace (self : nat) (mode file_pointer : pyval) : M pyval :=
  lib <- self_library self ;;
  f_set_phoneme_trace <- getattr_func lib "espeak_SetPhonemeTrace" ;;
  call f_set_phoneme_trace [c_int; c_void_p] c_int [mode; file_pointer] ;;;
  ret PyNone.

Definition synthetize (self : nat) (text size mode : pyval) : M pyval :=
  lib <- self_library self ;;
  f_synthetize <- getattr_func lib "espeak_Synth" ;;
  call f_synthetize
       [c_void_p; c_size_t; c_uint; c_int; c_uint; POINTER c_uint; c_void_p] c_int
       [text; size; PyInt 0; PyInt 1; PyInt 0; mode; PyNone; PyNone].

(** ** Finalizers and the collector *)

Definition call_callable (c : callable) : M unit :=
  match c with Bound_terminate self => _terminate self end.

(** The objects a callable keeps alive: a bound method holds its
    [__self__]. *)
Definition callable_refs (c : callable) : list nat :=
  match c with Bound_terminate self => [self] end.

(** A finalizer runs at most once; what it raises is written to the error
    stream and goes no further. *)
Definition run_finalizer (i : nat) (w : W) : W :=
  match w_registry w !! i with
  | Some f =>
      if fin_alive f then
        match call_callable (fin_func f)
                (set_registry (<[i := mkFinalizer (fin_obj f) (fin_func f) false]>) w) with
        | (w1, Ok _) => w1
        | (w1, Raise e) => log_stderr e w1
        end
      else w
  | None => w
  end.

Definition strongly_held (w : W) : list nat :=
  flat_map (λ f, if fin_alive f then callable_refs (fin_func f) else []) (w_registry w).

(** An instance holds no other object, so it is reachable when a root
    names it or a live registry entry holds it. *)
Definition reachable (roots : list nat) (w : W) (o : nat) : bool :=
  bool_decide (o ∈ roots ++ strongly_held w).

(** A collection with the given roots: the finalizer of every target that
    has become unreachable runs. *)
Definition gc_step (roots : list nat) (w : W) (i : nat) : W :=
  match w_registry w !! i with
  | Some f =>
      if fin_alive f && negb (reachable roots w (fin_obj f))
      then run_finalizer i w else w
  | None => w
  end.

Definition gc_collect (roots : list nat) (w : W) : W :=
  foldl (gc_step roots) w (seq 0 (length (w_registry w))).

(** [weakref.finalize._exitfunc], registered with [atexit]: the finalizers
    still alive run, the youngest first. *)
Definition exitfunc (w : W) : W :=
  foldl (λ w i, run_finalizer i w) w (rev (seq 0 (length (w_registry w)))).


(** ** The constructor in stages, and the methods as one type *)

(** The constructor, cut where the proofs take it apart: the [try] block,
    the statements after the copy is loaded, and all that follows the
    registration of the finalizer. *)
Definition load_original (library : string) : M path :=
  try_except
    (espeak <- LoadLibrary (ByName library) ;;
     _shared_library_path espeak)
    is_OSError
    (λ error, raise (match error with
                     | OSError k => RuntimeError (failed_to_load k)
                     | e => e
                     end)).

Definition init_tail (self : nat) (lp : path) : M nat :=
  lib' <- self_library self ;;
  f <- getattr_func lib' "espeak_Initialize" ;;
  r <- call f [] c_int [PyInt 2; PyInt 0; PyNone; PyInt 0] ;;
  match r with
  | PyInt z =>
      if (z <=? 0)%Z then raise (RuntimeError failed_to_initialize) else
      setattr_self self (λ i, mkInstance (_library i) (_tempdir i) (Some lp)) ;;;
      ret self
  | _ => raise TypeError
  end.

Definition init_body (library : string) (self : nat) (tempdir : path) : M nat :=
  library_path <- load_original library ;;
  shutil_copy library_path (path_join tempdir (path_name library_path)) ;;;
  lib <- LoadLibrary (ByPath (path_join tempdir (path_name library_path))) ;;
  setattr_self self (λ i, mkInstance (Some lib) (_tempdir i) (_library_path i)) ;;;
  init_tail self library_path.

(** The path the loader is asked for. *)
Definition lookup_name (name : libname) : option path :=
  match name with
  | ByName s => ld_lookup E s
  | ByPath p => Some p
  end.

(** The seven low-level methods, as one type of calls. *)
Inductive low_level_call :=
  | call_info
  | call_list_voices (name : pyval)
  | call_set_voice_by_name (name : pyval)
  | call_get_current_voice
  | call_text_to_phonemes (text_ptr text_mode phonemes_mode : pyval)
  | call_set_phoneme_trace (mode file_pointer : pyval)
  | call_synthetize (text size mode : pyval).

Definition run_method (self : nat) (c : low_level_call) : M pyval :=
  match c with
  | call_info => info self
  | call_list_voices name => list_voices self name
  | call_set_voice_by_name name => set_voice_by_name self name
  | call_get_current_voice => get_current_voice self
  | call_text_to_phonemes a b c => text_to_phonemes self a b c
  | call_set_phoneme_trace a b => set_phoneme_trace self a b
  | call_synthetize a b c => synthetize self a b c
  end.

(** The native entry point each of them is bound to. *)
Definition entry_point (c : low_level_call) : string :=
  match c with
  | call_info => "espeak_Info"
  | call_list_voices _ => "espeak_ListVoices"
  | call_set_voice_by_name _ => "espeak_SetVoiceByName"
  | call_get_current_voice => "espeak_GetCurrentVoice"
  | call_text_to_phonemes _ _ _ => "espeak_TextToPhonemes"
  | call_set_phoneme_trace _ _ => "espeak_SetPhonemeTrace"
  | call_synthetize _ _ _ => "espeak_Synth"
  end.


(** The arguments [espeak_Initialize] receives for [(0x02, 0, None, 0)]. *)
Definition Initialize_args : list cval := [CInt 2; CInt 0; CPtr 0; CInt 0].

(** A result that is an error of the given class. *)
Definition LoadError_raised {A} (r : result A) : Prop :=
  ∃ e, r = Raise e ∧ LoadError e.

Definition InitializationError_raised {A} (r : result A) : Prop :=
  ∃ e, r = Raise e ∧ InitializationError e.

(** What [get_current_voice] returns, read off the world. *)
Definition current_voice_result (w : W) (self : nat) : result pyval :=
  match w_heap w !! self with
  | None => Raise (AttributeError "_library")
  | Some inst =>
      match _library inst with
      | None => Raise (AttributeError "espeak_GetCurrentVoice")
      | Some lib =>
          match w_modules w !! _handle lib with
          | None => Raise (AttributeError "espeak_GetCurrentVoice")
          | Some m =>
              match nl_sym (m_lib m) "espeak_GetCurrentVoice" with
              | None => Raise (AttributeError "espeak_GetCurrentVoice")
              | Some code =>
                  match (code (m_state m) []).2 with
                  | NRaise e => Raise e
                  | NRet raw _ =>
                      if decide (raw = 0%Z) then Raise ValueError_NULL_pointer_access
                      else Ok (PyCData EspeakVoice_Struct raw)
                  end
              end
          end
      end
  end.

(** The world once module [h] has run [sym] on [cargs]: its state is
    the new one and the call is on the trace. *)
Definition after_call (h : nat) (sym : string) (cargs : list cval) (m : Module nstate)
    (out : nstate * nresult) (w : W) : W :=
  log_event (EvCall h sym cargs out.2)
    (set_modules (<[h := mkModule (l_name m) (l_real m) (m_lib m) out.1]>) w).

(** ** Well-formed worlds and frames *)


(** Every entry of the file system lies in a directory. *)
Definition fs_closedb (fs : gmap path node) : bool :=
  forallb (λ kv, match kv.1 with
                 | [] => true
                 | _ => if fs !! removelast kv.1 is Some Dir then true else false
                 end)
          (map_to_list fs).

(** Every loaded module is still on disk under the name it was loaded
    as: no module outlives its file. *)
Definition modules_presentb (fs : gmap path node) (ms : list (Module nstate)) : bool :=
  forallb (λ m, bool_decide (is_Some (fs !! l_name m))
                && bool_decide (is_Some (fs !! l_real m))) ms.

Definition wf_world (w : W) : Prop :=
  fs_closedb (w_fs w) && modules_presentb (w_fs w) (w_modules w) = true.

(** The same two conditions as propositions. *)
Definition fs_closed (fs : gmap path node) : Prop :=
  ∀ p n x, fs !! (p ++ [n]) = Some x → fs !! p = Some Dir.

Definition modules_present (fs : gmap path node) (ms : list (Module nstate)) : Prop :=
  ∀ m, m ∈ ms → is_Some (fs !! l_name m) ∧ is_Some (fs !! l_real m).

(** The part of the world Python objects live in; the operating system
    and the loader leave it alone. *)
Definition same_py (w w1 : W) : Prop :=
  w_heap w1 = w_heap w ∧ w_registry w1 = w_registry w ∧ w_trace w1 = w_trace w
  ∧ w_stderr w1 = w_stderr w ∧ w_cmem w1 = w_cmem w ∧ w_brk w1 = w_brk w.

(** What a foreign call leaves alone. *)
Definition same_os (w w1 : W) : Prop :=
  w_fs w1 = w_fs w ∧ w_tmp_names w1 = w_tmp_names w ∧ w_heap w1 = w_heap w
  ∧ w_registry w1 = w_registry w ∧ w_stderr w1 = w_stderr w.

(** A step that only allocates or writes ctypes cells. *)
Definition cells_only (w w1 : W) : Prop :=
  same_os w w1 ∧ w_modules w1 = w_modules w ∧ w_trace w1 = w_trace w.

(** A step of the loader: nothing happens, or one module is added whose
    file is on disk. *)
Definition loader_step (w w1 : W) : Prop :=
  w1 = w ∨ ∃ m, w1 = set_modules (λ ms, ms ++ [m]) w
              ∧ is_Some (w_fs w !! l_name m) ∧ is_Some (w_fs w !! l_real m).

(** How a binding call ends: it is turned down before any native code
    runs, or the entry point [sym] of module [h] is called once. *)
Inductive forwarded (h : nat) (sym : string) (w w1 : W) (r : result pyval) : Prop :=
  | fwd_rejected (e : exn) :
      r = Raise e →
      cells_only w w1 →
      e = TypeError ∨ (∃ n, e = ArgumentError n) ∨ e = AttributeError sym →
      forwarded h sym w w1 r
  | fwd_made (m : Module nstate) (code : nstate → list cval → nstate * nresult)
      (cargs : list cval) :
      w_modules w !! h = Some m →
      nl_sym (m_lib m) sym = Some code →
      w_modules w1 =
        <[h := mkModule (l_name m) (l_real m) (m_lib m) (code (m_state m) cargs).1]>
          (w_modules w) →
      w_trace w1 = w_trace w ++ [EvCall h sym cargs (code (m_state m) cargs).2] →
      same_os w w1 →
      (∀ e, (code (m_state m) cargs).2 = NRaise e → r = Raise e) →
      (∀ raw stores, (code (m_state m) cargs).2 = NRet raw stores →
         (∃ v, r = Ok v) ∨ (raw = 0%Z ∧ r = Raise ValueError_NULL_pointer_access)) →
      forwarded h sym w w1 r.

(** ** Histories *)

(** A history of the process: constructions, whether they succeed or
    raise, and calls of the low-level methods, in any order. *)
Inductive run (w0 : W) : W → Prop :=
  | run_start : run w0 w0
  | run_construct (w w' : W) (library : string) (r : result nat) :
      run w0 w → __init__ library w = (w', r) → run w0 w'
  | run_call (w w' : W) (self : nat) (c : low_level_call) (r : result pyval) :
      run w0 w → run_method self c w = (w', r) → run w0 w'.

(** The directory of an instance is on disk, and the handle it holds is
    that of the module loaded from a file in that directory.  This covers
    the instances a failed construction leaves on the heap. *)
Definition instance_ok (w : W) (i : Instance) : Prop :=
  (∀ d, _tempdir i = Some d → w_fs w !! d = Some Dir)
  ∧ (∀ lib, _library i = Some lib →
       ∃ (d : path) (n : string) (m : Module nstate),
         _tempdir i = Some d
         ∧ w_modules w !! _handle lib = Some m
         ∧ l_name m = d ++ [n]).

Definition instances_ok (w : W) : Prop :=
  wf_world w ∧ ∀ a i, w_heap w !! a = Some i → instance_ok w i.

(** Along a history that starts without instances, directories are never
    shared. *)
Definition tempdirs_distinct (w : W) : Prop :=
  ∀ a b ia ib d, a ≠ b → w_heap w !! a = Some ia → w_heap w !! b = Some ib →
    _tempdir ia = Some d → _tempdir ib = Some d → False.

End Bindings.

(** ** A small espeak-ng, and machines to run it on *)

(** The state of the toy library is the address of the name of the voice
    in use, 0 before one is chosen. *)
Definition espeak_code (terminate_raises null_voice : bool) (sym : string)
    : option (Z → list cval → Z * nresult) :=
  if decide (sym = "espeak_Initialize") then Some (λ st _, (st, NRet 22050 []))
  else if decide (sym = "espeak_Terminate") then
    Some (λ st _, if terminate_raises then (st, NRaise (OSError PlainOSError))
                  else (0%Z, NRet 0 []))
  else if decide (sym = "espeak_Info") then
    Some (λ st args, match args with
                     | [CPtr p] => (st, NRet 7100 [(p, 7000%Z)])
                     | _ => (st, NRet 7100 [])
                     end)
  else if decide (sym = "espeak_SetVoiceByName") then
    Some (λ st args, match args with
                     | [CPtr a] => (a, NRet 0 [])
                     | _ => (st, NRet 2 [])
                     end)
  else if decide (sym = "espeak_GetCurrentVoice") then
    Some (λ st _, (st, NRet (if null_voice then 0 else 4096 + st) []))
  else if decide (sym = "espeak_Synth") then Some (λ st _, (st, NRet 0 []))
  else None.

Definition espeak_strings (st p : Z) : string :=
  if decide (p = 7100%Z) then "1.51"
  else if decide (p = 7000%Z) then "/usr/share/espeak-ng-data"
  else "".

Definition espeak_ng (terminate_raises null_voice : bool) : NativeLib Z :=
  mkNativeLib 0%Z (espeak_code terminate_raises null_voice) espeak_strings.

Definition image (bytes : string) : option (NativeLib Z) :=
  if decide (bytes = "ESPEAK") then Some (espeak_ng false false)
  else if decide (bytes = "ESPEAK, Terminate raises") then Some (espeak_ng true false)
  else if decide (bytes = "ESPEAK, no current voice") then Some (espeak_ng false true)
  else None.

Definition usr_lib (name : string) : option path :=
  if decide (name = "libespeak-ng.so.1") then Some ["usr"; "lib"; "libespeak-ng.so.1"]
  else if decide (name = "libespeak-ng.dll") then Some ["C:"; "eSpeak NG"; "libespeak-ng.dll"]
  else None.

(** The main program exports nothing of espeak-ng. *)
Definition python : NativeLib Z := mkNativeLib 0%Z (λ _, None) (λ _ _, "").

Definition from_cwd (cwd : path) (s : string) : path :=
  if decide (s = "") then cwd else cwd ++ [s].

Definition E_linux : Env Z :=
  mkEnv linux ["tmp"] usr_lib (from_cwd ["home"; "user"]) image (λ _, None) (3, 11)%nat python.

(** A Windows machine on which the working directory holds an entry of
    the library's name that may not be examined. *)
Definition E_win32 : Env Z :=
  mkEnv win32 ["C:"; "Temp"] usr_lib (from_cwd ["C:"; "work"]) image
    (λ p, if decide (p = ["C:"; "work"; "libespeak-ng.dll"]) then Some PermissionError
          else None)
    (3, 9)%nat python.

Definition disk (library_bytes : string) : gmap path node :=
  list_to_map
    [ ([], Dir); (["tmp"], Dir); (["home"], Dir); (["home"; "user"], Dir);
      (["usr"], Dir); (["usr"; "lib"], Dir);
      (["usr"; "lib"; "libespeak-ng.so.1"], Symlink ["usr"; "lib"; "libespeak-ng.so.1.1.51"]);
      (["usr"; "lib"; "libespeak-ng.so.1.1.51"], File library_bytes) ].

Definition disk_win32 : gmap path node :=
  list_to_map
    [ ([], Dir); (["C:"], Dir); (["C:"; "Temp"], Dir); (["C:"; "work"], Dir);
      (["C:"; "work"; "espeak.dll"], Symlink ["C:"; "work"; "espeak.dll"]);
      (["C:"; "eSpeak NG"], Dir);
      (["C:"; "eSpeak NG"; "libespeak-ng.dll"], File "ESPEAK") ].

Definition boot (fs : gmap path node) : World Z :=
  mkWorld fs ["tmpa"; "tmpb"; "tmpc"] [] ∅ 1000 [] [] [] [].

Definition w0 : World Z := boot (disk "ESPEAK").
Definition w1 : World Z := (__init__ E_linux "libespeak-ng.so.1" w0).1.
Definition w2 : World Z := (__init__ E_linux "libespeak-ng.so.1" w1).1.

(** The same machine with a library whose [espeak_Terminate] raises, one
    whose current-voice query answers NULL, and the Windows machine. *)
Definition wT : World Z :=
  (__init__ E_linux "libespeak-ng.so.1" (boot (disk "ESPEAK, Terminate raises"))).1.
Definition wN : World Z :=
  (__init__ E_linux "libespeak-ng.so.1" (boot (disk "ESPEAK, no current voice"))).1.
Definition w_win32 : World Z := boot disk_win32.

(** A library that exports every entry point the bindings name, and the
    machine that has it installed. *)
Definition espeak_full_code (sym : string) : option (Z → list cval → Z * nresult) :=
  if decide (sym = "espeak_ListVoices") then Some (λ st _, (st, NRet 0 []))
  else if decide (sym = "espeak_TextToPhonemes") then
    Some (λ st args, match args with
                     | CPtr a :: _ => (st, NRet 7200 [(a, 0%Z)])
                     | _ => (st, NRet 0 [])
                     end)
  else if decide (sym = "espeak_SetPhonemeTrace") then Some (λ st _, (st, NRet 5 []))
  else espeak_code false false sym.

Definition espeak_full_strings (st p : Z) : string :=
  if decide (p = 7200%Z) then "h@loU" else espeak_strings st p.

Definition espeak_full : NativeLib Z :=
  mkNativeLib 0%Z espeak_full_code espeak_full_strings.

Definition image_full (bytes : string) : option (NativeLib Z) :=
  if decide (bytes = "ESPEAK, all entry points") then Some espeak_full else image bytes.

Definition E_full : Env Z :=
  mkEnv linux ["tmp"] usr_lib (from_cwd ["home"; "user"]) image_full (λ _, None)
    (3, 11)%nat python.

Definition wF : World Z :=
  (__init__ E_full "libespeak-ng.so.1" (boot (disk "ESPEAK, all entry points"))).1.

(** The world a construction leaves behind when the loader does not know
    the library. *)
Definition wL : World Z := (__init__ E_linux "libnothere.so" w0).1.

(** The instance of [wF], its module, and [wF] with a text at address 40,
    a [c_char_p] for it at 48 and a pointer to that at 56. *)
Definition copy_path : path := ["tmp"; "tmpa"; "libespeak-ng.so.1.1.51"].

Definition instF : Instance :=
  mkInstance (Some (mkCDLL 1 (ByPath copy_path))) (Some ["tmp"; "tmpa"])
    (Some ["usr"; "lib"; "libespeak-ng.so.1.1.51"]).

Definition modF : Module Z := mkModule copy_path copy_path espeak_full 0%Z.

Definition wP : World Z :=
  set_cmem (λ mem, <[56%Z := 48%Z]> (<[48%Z := 40%Z]> mem)) 1000 wF.

(** * Properties *)

Ltac wsimpl :=
  unfold set_fs, set_tmp_names, set_modules, set_cmem, set_heap, set_registry,
    log_event, log_stderr in *;
  cbn [w_fs w_tmp_names w_modules w_cmem w_brk w_heap w_registry w_trace w_stderr
       _library _tempdir _library_path _handle _name fp_handle fp_sym
       l_name l_real m_lib m_state fst snd] in *.

Ltac by_evaluation :=
  repeat match goal with |- _ ∧ _ => split end; vm_compute; reflexivity.

Section Proofs.

Context {nstate : Type} (E : Env nstate).

Local Abbreviation M := (Py nstate).
Local Abbreviation W := (World nstate).

#[local] Opaque MAXSYMLINKS.

(** ** The monad *)

Lemma bind_inv {A B} (m : M A) (k : A → M B) (w w' : W) (r : result B) :
  bind m k w = (w', r) →
  (∃ w1 a, m w = (w1, Ok a) ∧ k a w1 = (w', r))
  ∨ (∃ e, m w = (w', Raise e) ∧ r = Raise e).
Proof.
  unfold bind. destruct (m w) as [w1 [a|e]]; intros H.
  - left. eauto.
  - right. inversion H; subst. eauto.
Qed.

Lemma bind_Ok_inv {A B} (m : M A) (k : A → M B) (w w' : W) (b : B) :
  bind m k w = (w', Ok b) → ∃ w1 a, m w = (w1, Ok a) ∧ k a w1 = (w', Ok b).
Proof.
  intros H. apply bind_inv in H as [H|(e & _ & H)]; [done | discriminate].
Qed.

Lemma bind_Ok_eq {A B} (m : M A) (k : A → M B) (w w1 : W) (a : A) :
  m w = (w1, Ok a) → bind m k w = k a w1.
Proof. unfold bind. by intros ->. Qed.

Lemma bind_Raise_eq {A B} (m : M A) (k : A → M B) (w w1 : W) (e : exn) :
  m w = (w1, Raise e) → bind m k w = (w1, Raise e).
Proof. unfold bind. by intros ->. Qed.

Lemma same_py_refl (w : W) : same_py w w.
Proof. by repeat split. Qed.

Lemma same_py_trans (w1 w2 w3 : W) : same_py w1 w2 → same_py w2 w3 → same_py w1 w3.
Proof.
  unfold same_py. intros (?&?&?&?&?&?) (?&?&?&?&?&?).
  repeat split; congruence.
Qed.

(** ** The file system *)

Lemma fs_closed_spec (fs : gmap path node) :
  fs_closedb fs = true ↔ ∀ p n x, fs !! (p ++ [n]) = Some x → fs !! p = Some Dir.
Proof.
  unfold fs_closedb. rewrite forallb_forall. split.
  - intros H p n x Hx.
    specialize (H (p ++ [n], x)). simpl in H.
    rewrite removelast_last in H.
    assert (Hin : In (p ++ [n], x) (map_to_list fs)).
    { apply list_elem_of_In, elem_of_map_to_list. exact Hx. }
    specialize (H Hin).
    destruct (p ++ [n]) eqn:Hp; [by destruct p | ].
    destruct (fs !! p) as [[]|]; done.
  - intros H [k x] Hin. simpl.
    apply list_elem_of_In, elem_of_map_to_list in Hin.
    destruct k as [|c k] using rev_ind; [done|].
    rewrite removelast_last.
    rewrite (H _ _ _ Hin). by destruct (k ++ [c]).
Qed.

Lemma modules_present_spec (fs : gmap path node) (ms : list (Module nstate)) :
  modules_presentb fs ms = true ↔
  ∀ m, m ∈ ms → is_Some (fs !! l_name m) ∧ is_Some (fs !! l_real m).
Proof.
  unfold modules_presentb. rewrite forallb_forall. split.
  - intros H m Hm. apply list_elem_of_In, H in Hm.
    apply andb_prop in Hm as [H1 H2].
    split; eapply bool_decide_eq_true; eassumption.
  - intros H m Hm. apply list_elem_of_In, H in Hm as [H1 H2].
    apply andb_true_intro. split; by apply bool_decide_eq_true.
Qed.

Lemma wf_world_spec (w : W) :
  wf_world w ↔
  (∀ p n x, w_fs w !! (p ++ [n]) = Some x → w_fs w !! p = Some Dir)
  ∧ (∀ m, m ∈ w_modules w → is_Some (w_fs w !! l_name m) ∧ is_Some (w_fs w !! l_real m)).
Proof.
  unfold wf_world. rewrite andb_true_iff, fs_closed_spec, modules_present_spec. done.
Qed.

Lemma follow_not_link (fuel : nat) (fs : gmap path node) (p q : path) :
  follow fuel fs p = Some q → ∀ t, fs !! q ≠ Some (Symlink t).
Proof.
  revert p. induction fuel as [|n IH]; intros p; simpl.
  - destruct (fs !! p) as [[]|] eqn:Hp; intros [= <-] t; congruence.
  - destruct (fs !! p) as [[]|] eqn:Hp; try (intros [= <-] t; congruence).
    apply IH.
Qed.

Lemma follow_absent (fuel : nat) (fs : gmap path node) (p : path) :
  (∀ t, fs !! p ≠ Some (Symlink t)) → follow fuel fs p = Some p.
Proof.
  intros H. destruct fuel; simpl; destruct (fs !! p) as [[]|] eqn:Hp; try done;
    by destruct (H target).
Qed.

Lemma resolve_loop_not_link (fuel : nat) (fs : gmap path node) (p q : path) :
  resolve_loop E fuel fs p = Ok q → ∀ t, fs !! q ≠ Some (Symlink t).
Proof.
  revert p. induction fuel as [|n IH]; intros p; simpl.
  - destruct (match sys_platform E with win32 => _ | _ => _ end); [done|].
    destruct (fs !! p) as [[]|] eqn:Hp; intros [= <-] t; congruence.
  - destruct (match sys_platform E with win32 => _ | _ => _ end); [done|].
    destruct (fs !! p) as [[]|] eqn:Hp; try (intros [= <-] t; congruence).
    apply IH.
Qed.

(** A fresh directory changes nothing about where links lead. *)
Lemma follow_insert_dir (fuel : nat) (fs : gmap path node) (d p : path) :
  fs !! d = None → follow fuel (<[d := Dir]> fs) p = follow fuel fs p.
Proof.
  intros Hd. revert p. induction fuel as [|n IH]; intros p; simpl.
  - destruct (decide (d = p)) as [->|Hne].
    + by rewrite lookup_insert_eq, Hd.
    + by rewrite lookup_insert_ne.
  - destruct (decide (d = p)) as [->|Hne].
    + by rewrite lookup_insert_eq, Hd.
    + rewrite lookup_insert_ne by done.
      destruct (fs !! p) as [[]|]; done.
Qed.

Lemma os_mkdir_inv (parent : path) (n : string) (w w1 : W) (r : result unit) :
  os_mkdir parent n w = (w1, r) →
  (r = Ok () ∧ w_fs w !! parent = Some Dir ∧ w_fs w !! (parent ++ [n]) = None
   ∧ w1 = set_fs (insert (parent ++ [n]) Dir) w)
  ∨ (∃ e, r = Raise e ∧ w1 = w).
Proof.
  unfold os_mkdir. intros H.
  destruct (w_fs w !! parent) as [[]|] eqn:Hp;
    try (right; inversion H; eauto; fail).
  destruct (w_fs w !! (parent ++ [n])) eqn:Hd; inversion H; subst; eauto 10.
Qed.

Lemma mkdtemp_loop_inv (names : list string) (w w1 : W) (r : result path) :
  mkdtemp_loop E names w = (w1, r) →
  (∃ n rest, r = Ok (gettempdir E ++ [n])
     ∧ w_fs w !! gettempdir E = Some Dir
     ∧ w_fs w !! (gettempdir E ++ [n]) = None
     ∧ w1 = set_tmp_names rest (set_fs (insert (gettempdir E ++ [n]) Dir) w))
  ∨ (∃ e rest, r = Raise e ∧ w1 = set_tmp_names rest w).
Proof.
  revert w. induction names as [|n rest IH]; intros w; simpl.
  - intros [= <- <-]. right. eauto.
  - destruct (os_mkdir (gettempdir E) n w) as [w2 r2] eqn:Hmk.
    apply os_mkdir_inv in Hmk as [(-> & Hp & Hd & ->)|(e & -> & ->)].
    + intros [= <- <-]. left. eauto 10.
    + destruct e as [[]| | | | | | |]; try (intros [= <- <-]; right; eauto; fail).
      apply IH.
Qed.

Lemma mkdtemp_inv (w w1 : W) (r : result path) :
  mkdtemp E w = (w1, r) →
  (∃ n rest, r = Ok (gettempdir E ++ [n])
     ∧ w_fs w !! gettempdir E = Some Dir
     ∧ w_fs w !! (gettempdir E ++ [n]) = None
     ∧ w1 = set_tmp_names rest (set_fs (insert (gettempdir E ++ [n]) Dir) w))
  ∨ (∃ e rest, r = Raise e ∧ w1 = set_tmp_names rest w).
Proof. apply mkdtemp_loop_inv. Qed.

Lemma dlopen_inv (p : path) (w w1 : W) (r : result nat) :
  dlopen E p w = (w1, r) →
  (∃ k, r = Raise (OSError k) ∧ w1 = w)
  ∨ (∃ h, r = Ok h ∧ w1 = w ∧ (loaded_as p (w_modules w) = Some h ∨
        ∃ q, realpath (w_fs w) p = Some q ∧ loaded_from q (w_modules w) = Some h))
  ∨ (∃ q b lib, r = Ok (length (w_modules w))
       ∧ loaded_as p (w_modules w) = None
       ∧ realpath (w_fs w) p = Some q
       ∧ w_fs w !! q = Some (File b)
       ∧ loaded_from q (w_modules w) = None
       ∧ dl_image E b = Some lib
       ∧ w1 = set_modules (λ ms, ms ++ [mkModule p q lib (nl_init lib)]) w).
Proof.
  unfold dlopen. intros H.
  destruct (loaded_as p (w_modules w)) as [h|] eqn:Has.
  { inversion H; subst. right; left. eauto 10. }
  destruct (realpath (w_fs w) p) as [q|] eqn:Hq; [|inversion H; subst; left; eauto].
  destruct (w_fs w !! q) as [[|b|]|] eqn:Hb; try (inversion H; subst; left; eauto; fail).
  destruct (loaded_from q (w_modules w)) as [h|] eqn:Hfrom.
  { inversion H; subst. right; left. eauto 10. }
  destruct (dl_image E b) as [lib|] eqn:Hi; inversion H; subst.
  - right; right. eauto 12.
  - left; eauto.
Qed.

Lemma dlopen_main_inv (w w1 : W) (r : result nat) :
  dlopen_main E w = (w1, r) →
  (∃ k, r = Raise (OSError k) ∧ w1 = w)
  ∨ (∃ h, r = Ok h ∧ w1 = w)
  ∨ (∃ q, r = Ok (length (w_modules w))
       ∧ realpath (w_fs w) (path_of_string E "") = Some q
       ∧ w_fs w !! q = Some Dir
       ∧ w1 = set_modules
                (λ ms, ms ++ [mkModule (path_of_string E "") q (main_program E)
                                (nl_init (main_program E))]) w).
Proof.
  unfold dlopen_main. cbv zeta. intros H.
  destruct (loaded_as (path_of_string E "") (w_modules w)) as [h|].
  { inversion H; subst. right; left. eauto. }
  destruct (realpath (w_fs w) (path_of_string E "")) as [q|] eqn:Hq;
    [|inversion H; subst; left; eauto].
  destruct (w_fs w !! q) as [[|b|]|] eqn:Hb; try (inversion H; subst; left; eauto; fail).
  inversion H; subst. right; right. eauto 10.
Qed.

(** What [LoadLibrary] raises: the loader's [OSError], or one of the two
    errors of the name. *)
Lemma LoadLibrary_inv (name : libname) (w w1 : W) (r : result CDLL) :
  LoadLibrary E name w = (w1, r) →
  (∃ e, r = Raise e ∧ w1 = w
      ∧ ((∃ k, e = OSError k)
         ∨ (e = ValueError_embedded_null_byte ∧ ∃ s, name = ByName s ∧ embedded_NUL s = true)
         ∨ (e = TypeError ∧ pathlike_refused E = true ∧ ∃ p, name = ByPath p)))
  ∨ (∃ p h, lookup_name E name = Some p ∧ dlopen E p w = (w1, Ok h) ∧ r = Ok (mkCDLL h name))
  ∨ (∃ h, name = ByName "" ∧ dlopen_main E w = (w1, Ok h) ∧ r = Ok (mkCDLL h name)).
Proof.
  unfold LoadLibrary. intros H.
  apply bind_inv in H as [(w2 & h & Hh & H)|(e & Hh & ->)].
  - injection H as <- <-. destruct name as [s|p].
    + destruct (embedded_NUL s); [done|].
      destruct (asks_for_main_program E s) eqn:Hmain.
      * right; right. exists h. split; [|done].
        unfold asks_for_main_program in Hmain.
        destruct (sys_platform E); try done. by apply bool_decide_eq_true in Hmain as ->.
      * destruct (ld_lookup E s) as [p|] eqn:Hl; [|done].
        right; left. exists p, h. simpl. done.
    + destruct (pathlike_refused E); [done|]. right; left. exists p, h. done.
  - left. exists e. destruct name as [s|p].
    + destruct (embedded_NUL s) eqn:Hnul.
      { injection Hh as <- <-. split; [done|]. split; [done|]. right; left. eauto. }
      destruct (asks_for_main_program E s).
      * apply dlopen_main_inv in Hh as [(k & [= ->] & ->)|[(h & ? & _)|(q & ? & _)]];
          try done. split; [done|]. split; [done|]. left. eauto.
      * destruct (ld_lookup E s) as [p|].
        -- apply dlopen_inv in Hh as [(k & [= ->] & ->)|[(h & ? & _)|(q & b & lib & ? & _)]];
             try done. split; [done|]. split; [done|]. left. eauto.
        -- injection Hh as <- <-. split; [done|]. split; [done|]. left. eauto.
    + destruct (pathlike_refused E) eqn:Hold.
      { injection Hh as <- <-. split; [done|]. split; [done|]. right; right. eauto. }
      apply dlopen_inv in Hh as [(k & [= ->] & ->)|[(h & ? & _)|(q & b & lib & ? & _)]];
        try done. split; [done|]. split; [done|]. left. eauto.
Qed.

Lemma resolve_inv (p : path) (w w1 : W) (r : result path) :
  resolve E p w = (w1, r) →
  w1 = w ∧ ∀ lp, r = Ok lp → ∀ t, w_fs w !! lp ≠ Some (Symlink t).
Proof.
  unfold resolve. intros H. injection H as <- Hr. split; [done|].
  intros lp -> t. eapply resolve_loop_not_link. exact Hr.
Qed.

Lemma shared_library_path_inv (lib : CDLL) (w w1 : W) (r : result path) :
  _shared_library_path E lib w = (w1, r) →
  w1 = w ∧ ∀ lp, r = Ok lp → ∀ t, w_fs w !! lp ≠ Some (Symlink t).
Proof.
  unfold _shared_library_path.
  assert (Hposix : try_except (p <- DLInfo_path lib ;; resolve E p) (λ _, true)
            (λ _, raise (RuntimeError failed_to_retrieve_path)) w = (w1, r) →
          w1 = w ∧ ∀ lp, r = Ok lp → ∀ t, w_fs w !! lp ≠ Some (Symlink t)).
  { unfold try_except.
    destruct (bind _ _ w) as [w2 [lp|e]] eqn:Hb.
    - intros [= <- <-].
      apply bind_Ok_inv in Hb as (w3 & p & Hd & Hr).
      unfold DLInfo_path in Hd. destruct (w_modules w !! _handle lib); [|done].
      injection Hd as <- <-. by apply resolve_inv in Hr.
    - intros [= <- <-].
      apply bind_inv in Hb as [(w3 & p & Hd & Hr)|(e' & Hd & _)].
      + unfold DLInfo_path in Hd. destruct (w_modules w !! _handle lib); [|done].
        injection Hd as <- <-. apply resolve_inv in Hr as [-> _]. done.
      + unfold DLInfo_path in Hd. destruct (w_modules w !! _handle lib); [done|].
        by injection Hd as <- <-. }
  destruct (sys_platform E); try exact Hposix.
  apply resolve_inv.
Qed.

Lemma alloc_cell_inv (v : Z) (w w1 : W) (r : result Z) :
  alloc_cell v w = (w1, r) →
  r = Ok (w_brk w) ∧ w1 = set_cmem (insert (w_brk w) v) (w_brk w + 8)%Z w.
Proof. unfold alloc_cell. by intros [= <- <-]. Qed.

Lemma bytes_at_inv (h : nat) (p : Z) (w w1 : W) (r : result pyval) :
  bytes_at h p w = (w1, r) →
  (∃ v, r = Ok v) ∧ same_os w w1 ∧ w_modules w1 = w_modules w ∧ w_trace w1 = w_trace w.
Proof.
  unfold bytes_at. destruct (decide (p = 0%Z)).
  - intros [= <- <-]. unfold same_os. eauto 10.
  - unfold bind, alloc_cell, ret. intros [= <- <-]. unfold same_os. simpl. eauto 10.
Qed.

Lemma convert_result_inv (t : ctype) (h : nat) (raw : Z) (w w1 : W) (r : result pyval) :
  convert_result t h raw w = (w1, r) →
  (∃ v, r = Ok v) ∧ same_os w w1 ∧ w_modules w1 = w_modules w ∧ w_trace w1 = w_trace w.
Proof.
  destruct t; simpl; try apply bytes_at_inv;
    unfold ret, bind, alloc_cell; intros [= <- <-]; unfold same_os; simpl; eauto 10.
Qed.

Lemma cells_only_refl (w : W) : cells_only w w.
Proof. by repeat split. Qed.

Lemma cells_only_trans (w1 w2 w3 : W) : cells_only w1 w2 → cells_only w2 w3 → cells_only w1 w3.
Proof.
  unfold cells_only, same_os.
  intros ((?&?&?&?&?)&?&?) ((?&?&?&?&?)&?&?). repeat split; congruence.
Qed.

Lemma forwarded_pre (h : nat) (sym : string) (w0 w w1 : W) (r : result pyval) :
  cells_only w0 w → forwarded h sym w w1 r → forwarded h sym w0 w1 r.
Proof.
  intros Hc [e ? ? ?|m code cargs Hm Hs Hmod Htr Hos Hraise Hret].
  - eapply fwd_rejected; eauto using cells_only_trans.
  - destruct Hc as ((?&?&?&?&?)&Hm0&Ht0). destruct Hos as (?&?&?&?&?).
    eapply (fwd_made _ _ _ _ _ m code cargs); try done.
    + by rewrite <- Hm0.
    + by rewrite Hmod, Hm0.
    + by rewrite Htr, Ht0.
    + repeat split; congruence.
Qed.

Lemma forwarded_post (h : nat) (sym : string) (w w1 w2 : W) (r r2 : result pyval) :
  forwarded h sym w w1 r →
  cells_only w1 w2 →
  (∀ e, r = Raise e → r2 = Raise e) →
  (∀ v, r = Ok v → (∃ v', r2 = Ok v')
                   ∨ (r2 = Raise ValueError_NULL_pointer_access
                      ∧ ∀ m code cargs raw stores,
                          w_modules w !! h = Some m → nl_sym (m_lib m) sym = Some code →
                          w_trace w1 = w_trace w ++ [EvCall h sym cargs (NRet raw stores)] →
                          raw = 0%Z)) →
  forwarded h sym w w2 r2.
Proof.
  intros [e -> ? ?|m code cargs Hm Hs Hmod Htr Hos Hraise Hret] Hc Hr Hok.
  - eapply fwd_rejected; eauto using cells_only_trans.
  - destruct Hc as ((?&?&?&?&?)&Hm2&Ht2). destruct Hos as (?&?&?&?&?).
    eapply (fwd_made _ _ _ _ _ m code cargs); try done.
    + by rewrite Hm2.
    + by rewrite Ht2.
    + repeat split; congruence.
    + intros e He. eauto.
    + intros raw stores Hres. destruct (Hret _ _ Hres) as [(v & ->)|(-> & ->)].
      * destruct (Hok v eq_refl) as [?|[-> Hz]]; [by left|].
        right. split; [|done]. eapply Hz; try done. by rewrite Htr, Hres.
      * right. split; [done|]. by apply Hr.
Qed.

Lemma convert_args_error (mem : gmap Z Z) (argtypes : list ctype) (args : list pyval)
    (n : nat) (e : exn) :
  convert_args mem argtypes args n = Raise e → ∃ k, e = ArgumentError k.
Proof.
  revert argtypes n. induction args as [|v vs IH]; intros ts n; simpl; [done|].
  destruct (match ts with [] => _ | _ => _ end); [|intros [= <-]; eauto].
  destruct (convert_args _ _ vs (S n)) eqn:Hc; [done|].
  intros [= <-]. eapply IH. exact Hc.
Qed.

Lemma call_forwarded (f : FuncPtr) (argtypes : list ctype) (restype : ctype)
    (args : list pyval) (w w1 : W) (r : result pyval) :
  call f argtypes restype args w = (w1, r) →
  forwarded (fp_handle f) (fp_sym f) w w1 r.
Proof.
  unfold call. intros H.
  destruct (length args <? length argtypes)%nat eqn:Hlen.
  { injection H as <- <-. eapply fwd_rejected; eauto using cells_only_refl. }
  destruct (convert_args (w_cmem w) argtypes args 1) as [cargs|e] eqn:Hconv.
  2:{ injection H as <- <-. apply convert_args_error in Hconv.
      eapply fwd_rejected; eauto using cells_only_refl. }
  destruct (w_modules w !! fp_handle f) as [m|] eqn:Hm.
  2:{ injection H as <- <-. eapply fwd_rejected; eauto using cells_only_refl. }
  destruct (nl_sym (m_lib m) (fp_sym f)) as [code|] eqn:Hsym.
  2:{ injection H as <- <-. eapply fwd_rejected; eauto using cells_only_refl. }
  destruct (code (m_state m) cargs) as [st res] eqn:Hcode.
  destruct res as [raw stores|e].
  - apply convert_result_inv in H as ((v & ->) & Hos & Hmod & Htr).
    eapply (fwd_made _ _ _ _ _ m code cargs); rewrite ?Hcode; try done.
    intros ?? _. left. eauto.
  - injection H as <- <-.
    eapply (fwd_made _ _ _ _ _ m code cargs); rewrite ?Hcode; try done.
    intros e' [= <-]. done.
Qed.

(** *** The construction, statement by statement *)

Lemma init_eq (library : string) :
  __init__ E library =
  (self <- new_instance ;;
   tempdir <- mkdtemp E ;;
   setattr_self self (λ i, mkInstance (_library i) (Some tempdir) (_library_path i)) ;;;
   weakref_finalize self (Bound_terminate self) ;;;
   init_body E library self tempdir).
Proof. reflexivity. Qed.

Lemma alter_last {A} (f : A → A) (l : list A) (x : A) :
  alter f (length l) (l ++ [x]) = l ++ [f x].
Proof.
  replace (length l) with (length l + 0)%nat by lia.
  by rewrite alter_app_r.
Qed.

Lemma lookup_last {A} (l : list A) (x : A) : (l ++ [x]) !! length l = Some x.
Proof. by rewrite lookup_app_r, Nat.sub_diag by lia. Qed.

Lemma init_prefix_inv (library : string) (w w' : W) (r : result nat) :
  __init__ E library w = (w', r) →
  (∃ e rest, r = Raise e
     ∧ w' = mkWorld (w_fs w) rest (w_modules w) (w_cmem w) (w_brk w)
              (w_heap w ++ [mkInstance None None None]) (w_registry w)
              (w_trace w) (w_stderr w))
  ∨ (∃ n rest,
       w_fs w !! gettempdir E = Some Dir
       ∧ w_fs w !! (gettempdir E ++ [n]) = None
       ∧ init_body E library (length (w_heap w)) (gettempdir E ++ [n])
           (mkWorld (<[gettempdir E ++ [n] := Dir]> (w_fs w)) rest (w_modules w)
              (w_cmem w) (w_brk w)
              (w_heap w ++ [mkInstance None (Some (gettempdir E ++ [n])) None])
              (w_registry w ++ [mkFinalizer (length (w_heap w))
                                  (Bound_terminate (length (w_heap w))) true])
              (w_trace w) (w_stderr w)) = (w', r)).
Proof.
  rewrite init_eq. intros H.
  apply bind_inv in H as [(w1 & self & Hnew & H)|(e & Hnew & _)]; [|done].
  unfold new_instance in Hnew. injection Hnew as <- <-.
  apply bind_inv in H as [(w2 & d & Hmk & H)|(e & Hmk & ->)].
  - apply mkdtemp_inv in Hmk as [(n & rest & [= ->] & Hp & Hd & ->)|(e & rest & ? & _)];
      [|done].
    right. exists n, rest. split; [done|]. split; [done|].
    unfold bind, setattr_self, weakref_finalize in H.
    unfold set_registry, set_heap, set_tmp_names, set_fs in H.
    cbn [w_fs w_tmp_names w_modules w_cmem w_brk w_heap w_registry w_trace w_stderr] in H.
    rewrite alter_last in H. exact H.
  - apply mkdtemp_inv in Hmk as [(n & rest & ? & _)|(e' & rest & [= <-] & ->)]; [done|].
    left. eauto.
Qed.

Lemma follow_is_Some (fuel : nat) (fs : gmap path node) (p q : path) :
  follow fuel fs p = Some q → is_Some (fs !! q) → is_Some (fs !! p).
Proof.
  destruct fuel; simpl; destruct (fs !! p) as [[]|] eqn:Hp; try done;
    intros [= <-]; rewrite Hp; intros [? ?]; done.
Qed.

Lemma LoadLibrary_step (name : libname) (w w1 : W) (r : result CDLL) :
  LoadLibrary E name w = (w1, r) → loader_step w w1.
Proof.
  intros H.
  apply LoadLibrary_inv in H as [(e & _ & -> & _)|[(p & h & _ & Hd & _)|(h & _ & Hd & _)]].
  { by left. }
  - apply dlopen_inv in Hd
      as [(k & ? & _)|[(h' & _ & -> & _)|(q & b & lib & _ & _ & Hq & Hb & _ & _ & ->)]].
    + done.
    + by left.
    + right. eexists. split; [done|]. simpl. split.
      * eapply follow_is_Some; [exact Hq|]. by rewrite Hb.
      * by rewrite Hb.
  - apply dlopen_main_inv in Hd as [(k & ? & _)|[(h' & _ & ->)|(q & _ & Hq & Hb & ->)]].
    + done.
    + by left.
    + right. eexists. split; [done|]. simpl. split.
      * eapply follow_is_Some; [exact Hq|]. by rewrite Hb.
      * by rewrite Hb.
Qed.

Lemma load_original_inv (library : string) (w w1 : W) (r : result path) :
  load_original E library w = (w1, r) →
  loader_step w w1
  ∧ (∀ lp, r = Ok lp → ∀ t, w_fs w !! lp ≠ Some (Symlink t))
  ∧ (∀ k, LoadLibrary E (ByName library) w = (w, Raise (OSError k)) →
          r = Raise (RuntimeError (failed_to_load k)) ∧ w1 = w).
Proof.
  unfold load_original, try_except. intros H.
  destruct (bind _ _ w) as [w2 r2] eqn:Hb.
  assert (Hw : w1 = w2).
  { destruct r2 as [|e]; [by injection H|].
    destruct (is_OSError e); unfold raise in H; by injection H. }
  subst w1.
  apply bind_inv in Hb as [(w3 & lib & Hl & Hs)|(e' & Hl & ->)].
  - apply shared_library_path_inv in Hs as [-> Hs].
    pose proof (LoadLibrary_step _ _ _ _ Hl) as Hstep.
    split; [done|]. split.
    + intros lp -> t. destruct r2 as [lp'|e].
      * injection H as ->. specialize (Hs lp eq_refl t).
        destruct Hstep as [->|(m & -> & _)]; done.
      * destruct (is_OSError e); unfold raise in H; done.
    + intros k Hk. rewrite Hk in Hl. done.
  - pose proof (LoadLibrary_step _ _ _ _ Hl) as Hstep.
    split; [done|]. split.
    + intros lp ->. destruct (is_OSError e'); unfold raise in H; done.
    + intros k Hk. rewrite Hk in Hl. injection Hl as -> <-.
      simpl in H. unfold raise in H. by injection H as <-.
Qed.

Lemma loader_step_same_py (w w1 : W) : loader_step w w1 → same_py w w1.
Proof. intros [->|(m & -> & _)]; by repeat split. Qed.

Lemma shutil_copy_same_py (src dst : path) (w w1 : W) (r : result unit) :
  shutil_copy src dst w = (w1, r) →
  same_py w w1 ∧ w_modules w1 = w_modules w.
Proof.
  unfold shutil_copy, write_file. intros H.
  repeat case_match; simplify_eq; by repeat split.
Qed.

Lemma shutil_copy_fresh (src d : path) (w w1 : W) :
  w_fs w !! d = Some Dir →
  (∀ n, w_fs w !! (d ++ [n]) = None) →
  (∀ t, w_fs w !! src ≠ Some (Symlink t)) →
  shutil_copy src (path_join d (path_name src)) w = (w1, Ok ()) →
  ∃ b, w_fs w !! src = Some (File b)
     ∧ path_name src ≠ ""
     ∧ w1 = set_fs (insert (d ++ [path_name src]) (File b)) w.
Proof.
  intros Hd Hempty Hsrc. unfold shutil_copy, path_join.
  destruct (decide (path_name src = "")) as [Hn|Hn].
  - rewrite Hn. unfold isdir, realpath.
    rewrite follow_absent by (intros t; rewrite Hd; done).
    rewrite Hd.
    destruct (decide (src = d)); [done|].
    destruct (w_fs w !! src) as [[|b|t]|] eqn:Hs; try done.
    + unfold write_file, realpath.
      rewrite follow_absent by (intros t; rewrite Hd; done).
      by rewrite Hd.
    + by destruct (Hsrc t).
  - unfold isdir, realpath.
    rewrite follow_absent by (intros t; rewrite Hempty; done).
    rewrite Hempty.
    destruct (decide (src = d ++ [path_name src])); [done|].
    destruct (w_fs w !! src) as [[|b|t]|] eqn:Hs; try done.
    + unfold write_file, realpath.
      rewrite follow_absent by (intros t; rewrite Hempty; done).
      rewrite Hempty, removelast_last, Hd.
      intros [= <-]. eauto.
    + by destruct (Hsrc t).
Qed.

Lemma loaded_as_Some (p : path) (ms : list (Module nstate)) (h : nat) :
  loaded_as p ms = Some h → ∃ m, ms !! h = Some m ∧ l_name m = p.
Proof.
  unfold loaded_as. intros H. apply fmap_Some in H as ([h' m] & Hf & ->).
  apply list_find_Some in Hf as (Hm & Hp & _). eauto.
Qed.

Lemma loaded_from_Some (q : path) (ms : list (Module nstate)) (h : nat) :
  loaded_from q ms = Some h → ∃ m, ms !! h = Some m ∧ l_real m = q.
Proof.
  unfold loaded_from. intros H. apply fmap_Some in H as ([h' m] & Hf & ->).
  apply list_find_Some in Hf as (Hm & Hp & _). eauto.
Qed.

(** Loading a file that was written just now, under a name no module
    carries, maps a new module. *)
Lemma LoadLibrary_copy (fs0 : gmap path node) (dst : path) (b : string)
    (w w1 : W) (lib : CDLL) :
  (∀ m, m ∈ w_modules w → is_Some (fs0 !! l_name m) ∧ is_Some (fs0 !! l_real m)) →
  fs0 !! dst = None →
  w_fs w = <[dst := File b]> fs0 →
  LoadLibrary E (ByPath dst) w = (w1, Ok lib) →
  ∃ nlib, dl_image E b = Some nlib
        ∧ lib = mkCDLL (length (w_modules w)) (ByPath dst)
        ∧ w1 = set_modules (λ ms, ms ++ [mkModule dst dst nlib (nl_init nlib)]) w.
Proof.
  intros Hpres Hdst Hfs H.
  assert (Hreal : realpath (w_fs w) dst = Some dst).
  { unfold realpath. apply follow_absent. intros t.
    rewrite Hfs, lookup_insert_eq. done. }
  apply LoadLibrary_inv in H as [(e & ? & _)|[(p & h & [= <-] & Hd & [= ->])|(h & ? & _)]];
    [done| |done].
  apply dlopen_inv in Hd as [(k & ? & _)|[(h' & [= <-] & -> & Hdup)|
    (q & b' & nlib & [= ->] & _ & Hq & Hb & _ & Hi & ->)]]; [done| |].
  - exfalso. destruct Hdup as [Has|(q & Hq & Hfrom)].
    + apply loaded_as_Some in Has as (m & Hm & Hn).
      apply list_elem_of_lookup_2, Hpres in Hm as [[x Hx] _]. congruence.
    + rewrite Hreal in Hq. injection Hq as <-.
      apply loaded_from_Some in Hfrom as (m & Hm & Hn).
      apply list_elem_of_lookup_2, Hpres in Hm as [_ [x Hx]]. congruence.
  - rewrite Hreal in Hq. injection Hq as <-.
    rewrite Hfs, lookup_insert_eq in Hb. injection Hb as <-.
    eauto.
Qed.

Lemma init_body_inv (library : string) (self : nat) (d : path) (w w' : W) (r : result nat) :
  init_body E library self d w = (w', r) →
  (∃ e, r = Raise e ∧ same_py w w')
  ∨ (∃ wE lp wF lib wG,
       load_original E library w = (wE, Ok lp)
       ∧ shutil_copy lp (path_join d (path_name lp)) wE = (wF, Ok ())
       ∧ LoadLibrary E (ByPath (path_join d (path_name lp))) wF = (wG, Ok lib)
       ∧ same_py w wG
       ∧ init_tail self lp
           (set_heap (alter (λ i, mkInstance (Some lib) (_tempdir i) (_library_path i)) self) wG)
         = (w', r)).
Proof.
  unfold init_body. intros H.
  apply bind_inv in H as [(wE & lp & Hlo & H)|(e & Hlo & ->)].
  2:{ left. exists e. split; [done|].
      apply load_original_inv in Hlo as [Hs _]. by apply loader_step_same_py. }
  pose proof Hlo as Hlo'. apply load_original_inv in Hlo' as [HsE _].
  apply loader_step_same_py in HsE.
  apply bind_inv in H as [(wF & [] & Hcp & H)|(e & Hcp & ->)].
  2:{ left. exists e. split; [done|].
      apply shutil_copy_same_py in Hcp as [Hs _]. eauto using same_py_trans. }
  pose proof Hcp as Hcp'. apply shutil_copy_same_py in Hcp' as [HsF _].
  apply bind_inv in H as [(wG & lib & Hll & H)|(e & Hll & ->)].
  2:{ left. exists e. split; [done|].
      apply LoadLibrary_step, loader_step_same_py in Hll. eauto using same_py_trans. }
  pose proof Hll as Hll'. apply LoadLibrary_step, loader_step_same_py in Hll'.
  right. exists wE, lp, wF, lib, wG.
  split; [done|]. split; [done|]. split; [done|].
  split; [eauto using same_py_trans|].
  unfold bind, setattr_self in H. exact H.
Qed.

Lemma call_c_int_inv (f : FuncPtr) (argtypes : list ctype) (args : list pyval)
    (w w1 : W) (r : result pyval) (m : Module nstate)
    (code : nstate → list cval → nstate * nresult) (cargs : list cval) :
  w_modules w !! fp_handle f = Some m →
  nl_sym (m_lib m) (fp_sym f) = Some code →
  convert_args (w_cmem w) argtypes args 1 = Ok cargs →
  (length argtypes ≤ length args)%nat →
  call f argtypes c_int args w = (w1, r) →
  w_trace w1 = w_trace w ++ [EvCall (fp_handle f) (fp_sym f) cargs (code (m_state m) cargs).2]
  ∧ same_os w w1
  ∧ w_modules w1 =
      <[fp_handle f := mkModule (l_name m) (l_real m) (m_lib m) (code (m_state m) cargs).1]>
        (w_modules w)
  ∧ w_brk w1 = w_brk w
  ∧ r = match (code (m_state m) cargs).2 with
        | NRet raw _ => Ok (PyInt (wrap_int32 raw))
        | NRaise e => Raise e
        end.
Proof.
  intros Hm Hsym Hconv Hlen. unfold call.
  rewrite (proj2 (Nat.ltb_ge _ _) Hlen), Hconv, Hm, Hsym.
  destruct (code (m_state m) cargs) as [st [raw stores|e]]; simpl;
    unfold ret; intros [= <- <-]; by repeat split.
Qed.

Lemma init_tail_inv (self : nat) (lp : path) (w w' : W) (r : result nat)
    (inst : Instance) (lib : CDLL) :
  w_heap w !! self = Some inst →
  _library inst = Some lib →
  init_tail self lp w = (w', r) →
  (w' = w ∧ r = Raise (AttributeError "espeak_Initialize")
   ∧ ∀ m, w_modules w !! _handle lib = Some m → nl_sym (m_lib m) "espeak_Initialize" = None)
  ∨ (∃ m code,
       w_modules w !! _handle lib = Some m
       ∧ nl_sym (m_lib m) "espeak_Initialize" = Some code
       ∧ w_trace w' = w_trace w ++
           [EvCall (_handle lib) "espeak_Initialize" Initialize_args
              (code (m_state m) Initialize_args).2]
       ∧ w_fs w' = w_fs w ∧ w_tmp_names w' = w_tmp_names w
       ∧ w_registry w' = w_registry w ∧ w_stderr w' = w_stderr w
       ∧ w_modules w' =
           <[_handle lib := mkModule (l_name m) (l_real m) (m_lib m)
                              (code (m_state m) Initialize_args).1]> (w_modules w)
       ∧ match (code (m_state m) Initialize_args).2 with
         | NRaise e => r = Raise e ∧ w_heap w' = w_heap w
         | NRet raw _ =>
             if (wrap_int32 raw <=? 0)%Z
             then r = Raise (RuntimeError failed_to_initialize) ∧ w_heap w' = w_heap w
             else r = Ok self
                  ∧ w_heap w' =
                    alter (λ i, mkInstance (_library i) (_tempdir i) (Some lp)) self (w_heap w)
         end).
Proof.
  intros Hinst Hlib. unfold init_tail, self_library.
  unfold bind at 1. rewrite Hinst, Hlib.
  unfold bind at 1. unfold getattr_func.
  destruct (w_modules w !! _handle lib) as [m|] eqn:Hm.
  2:{ intros [= <- <-]. left. by repeat split. }
  destruct (nl_sym (m_lib m) "espeak_Initialize") as [code|] eqn:Hsym.
  2:{ intros [= <- <-]. left. repeat split; try done. by intros m' [= <-]. }
  intros H. right. exists m, code. split; [done|]. split; [done|].
  apply bind_inv in H as [(wc & rc & Hc & H)|(e & Hc & ->)].
  - eapply (call_c_int_inv _ _ _ _ _ _ m code Initialize_args) in Hc
      as (Htr & (Hfs & Htmp & Hheap & Hreg & Herr) & Hmod & Hbrk & Hr);
      [|done|done|reflexivity|simpl; lia].
    simpl in *.
    destruct (code (m_state m) Initialize_args) as [st [raw stores|e]]; simpl in *;
      [|done].
    injection Hr as ->.
    destruct (wrap_int32 raw <=? 0)%Z.
    + injection H as <- <-. by repeat split.
    + unfold bind, setattr_self, ret in H. injection H as <- <-. simpl.
      rewrite Hheap. by repeat split.
  - eapply (call_c_int_inv _ _ _ _ _ _ m code Initialize_args) in Hc
      as (Htr & (Hfs & Htmp & Hheap & Hreg & Herr) & Hmod & Hbrk & Hr);
      [|done|done|reflexivity|simpl; lia].
    simpl in *.
    destruct (code (m_state m) Initialize_args) as [st [raw stores|e']]; simpl in *;
      [done|].
    injection Hr as ->. by repeat split.
Qed.

(** C5. Once the copy is loaded and retained, and it exports
    [espeak_Initialize], construction makes exactly one native call, that
    entry point with the arguments (0x02, 0, NULL, 0); and it fails with
    "failed to initialize espeak shared library" if and only if the value
    returned, read as a C int, is not positive. *)
Theorem init_calls_Initialize_once (library : string) (w w' : W) (r : result nat)
    (inst : Instance) (lib : CDLL) (m : Module nstate) :
  __init__ E library w = (w', r) →
  w_heap w' !! length (w_heap w) = Some inst →
  _library inst = Some lib →
  w_modules w' !! _handle lib = Some m →
  is_Some (nl_sym (m_lib m) "espeak_Initialize") →
  ∃ res,
    w_trace w' = w_trace w ++
      [EvCall (_handle lib) "espeak_Initialize" [CInt 2; CInt 0; CPtr 0; CInt 0] res]
    ∧ match res with
      | NRet raw _ =>
          (InitializationError_raised r ↔ (wrap_int32 raw ≤ 0)%Z)
          ∧ (r = Ok (length (w_heap w)) ↔ (0 < wrap_int32 raw)%Z)
      | NRaise e => r = Raise e
      end.
Proof.
  intros H Hinst Hlib Hm Hsym.
  apply init_prefix_inv in H as [(e & rest & -> & ->)|(n & rest & Htmp & Hd & H)].
  { wsimpl. rewrite lookup_last in Hinst. injection Hinst as <-. done. }
  apply init_body_inv in H as [(e & -> & Hsame)|
    (wE & lp & wF & lib0 & wG & _ & _ & _ & Hsame & H)].
  { destruct Hsame as (Hheap & _). wsimpl.
    rewrite Hheap, lookup_last in Hinst. injection Hinst as <-. done. }
  destruct Hsame as (Hheap & Hreg & Htr & _). wsimpl.
  eapply (init_tail_inv _ _ _ _ _ (mkInstance (Some lib0) (Some (gettempdir E ++ [n])) None) lib0)
    in H; [| |done].
  2:{ wsimpl. rewrite Hheap, alter_last. apply lookup_last. }
  wsimpl. rewrite Hheap, alter_last in H.
  destruct H as [(-> & -> & Hno)|(m0 & code & Hm0 & Hs0 & Htr' & _ & _ & _ & _ & Hmod & Hres)].
  - wsimpl. rewrite lookup_last in Hinst. injection Hinst as <-.
    wsimpl. injection Hlib as <-.
    rewrite (Hno _ Hm) in Hsym. by destruct Hsym.
  - exists (code (m_state m0) Initialize_args).2.
    assert (Hl : lib = lib0).
    { destruct (code (m_state m0) Initialize_args).2 as [raw stores|e].
      - destruct (wrap_int32 raw <=? 0)%Z; destruct Hres as [_ Hh];
          rewrite Hh in Hinst; try rewrite alter_last in Hinst;
          rewrite lookup_last in Hinst; injection Hinst as <-;
          wsimpl; congruence.
      - destruct Hres as [_ Hh]. rewrite Hh, lookup_last in Hinst.
        injection Hinst as <-. wsimpl. congruence. }
    subst lib0. split.
    + rewrite Htr', Htr. done.
    + destruct (code (m_state m0) Initialize_args).2 as [raw stores|e]; [|by destruct Hres].
      unfold InitializationError_raised.
      destruct (wrap_int32 raw <=? 0)%Z eqn:Hle; destruct Hres as [-> _].
      * apply Z.leb_le in Hle. split; split.
        -- done.
        -- intros _. by eexists.
        -- done.
        -- lia.
      * apply Z.leb_gt in Hle. split; split.
        -- by intros (e & ? & _).
        -- lia.
        -- lia.
        -- done.
Qed.

Lemma insert_last {A} (l : list A) (x y : A) : <[length l := y]> (l ++ [x]) = l ++ [y].
Proof.
  replace (length l) with (length l + 0)%nat by lia.
  by rewrite insert_app_r.
Qed.

Lemma path_snoc_ne (p : path) (n : string) : p ≠ p ++ [n].
Proof.
  intros H. apply (f_equal length) in H. rewrite length_app in H. simpl in H. lia.
Qed.

(** What a successful construction in a well-formed world has done. *)
Lemma init_success_inv (library : string) (w w' : W) (self : nat) :
  wf_world w →
  __init__ E library w = (w', Ok self) →
  ∃ (n : string) (lp : path) (b : string) (nlib : NativeLib nstate)
    (mods0 : list (Module nstate)) (code : nstate → list cval → nstate * nresult),
    self = length (w_heap w)
    ∧ w_fs w !! gettempdir E = Some Dir
    ∧ w_fs w !! (gettempdir E ++ [n]) = None
    ∧ w_fs w !! (gettempdir E ++ [n] ++ [path_name lp]) = None
    ∧ w_fs w !! lp = Some (File b)
    ∧ dl_image E b = Some nlib
    ∧ nl_sym nlib "espeak_Initialize" = Some code
    ∧ (mods0 = w_modules w ∨ ∃ m, mods0 = w_modules w ++ [m])
    ∧ w_fs w' = <[gettempdir E ++ [n] ++ [path_name lp] := File b]>
                  (<[gettempdir E ++ [n] := Dir]> (w_fs w))
    ∧ w_modules w' =
        mods0 ++ [mkModule (gettempdir E ++ [n] ++ [path_name lp])
                    (gettempdir E ++ [n] ++ [path_name lp]) nlib
                    (code (nl_init nlib) Initialize_args).1]
    ∧ w_heap w' =
        w_heap w ++ [mkInstance
                       (Some (mkCDLL (length mods0)
                                (ByPath (gettempdir E ++ [n] ++ [path_name lp]))))
                       (Some (gettempdir E ++ [n])) (Some lp)]
    ∧ w_registry w' =
        w_registry w ++ [mkFinalizer self (Bound_terminate self) true]
    ∧ w_trace w' =
        w_trace w ++ [EvCall (length mods0) "espeak_Initialize" Initialize_args
                        (code (nl_init nlib) Initialize_args).2]
    ∧ wf_world w'.
Proof.
  intros Hwf H. apply wf_world_spec in Hwf as [Hclosed Hpres].
  apply init_prefix_inv in H as [(e & rest & ? & _)|(n & rest & Htmp & Hd & H)]; [done|].
  set (d := gettempdir E ++ [n]) in *.
  apply init_body_inv in H as [(e & ? & _)|
    (wE & lp & wF & lib & wG & Hlo & Hcp & Hll & _ & H)]; [done|].
  apply load_original_inv in Hlo as (HstepE & Hlink & _). wsimpl.
  specialize (Hlink lp eq_refl).
  (* the world after the transient load *)
  assert (HE : ∃ mods0, (mods0 = w_modules w ∨ ∃ m, mods0 = w_modules w ++ [m])
             ∧ wE = mkWorld (<[d := Dir]> (w_fs w)) rest mods0 (w_cmem w) (w_brk w)
                      (w_heap w ++ [mkInstance None (Some d) None])
                      (w_registry w ++ [mkFinalizer (length (w_heap w))
                                          (Bound_terminate (length (w_heap w))) true])
                      (w_trace w) (w_stderr w)
             ∧ ∀ m, m ∈ mods0 → is_Some (<[d := Dir]> (w_fs w) !! l_name m)
                               ∧ is_Some (<[d := Dir]> (w_fs w) !! l_real m)).
  { assert (Hold : ∀ m, m ∈ w_modules w → is_Some (<[d := Dir]> (w_fs w) !! l_name m)
                                         ∧ is_Some (<[d := Dir]> (w_fs w) !! l_real m)).
    { intros m Hm. apply Hpres in Hm as [H1 H2].
      split; apply lookup_insert_is_Some'; by right. }
    destruct HstepE as [->|(m & -> & Hn & Hr)].
    - exists (w_modules w). split; [by left|]. split; [done|]. exact Hold.
    - exists (w_modules w ++ [m]). split; [right; eauto|]. split; [done|].
      intros m' Hm'. apply elem_of_app in Hm' as [Hm'|Hm']; [by apply Hold|].
      apply list_elem_of_singleton in Hm' as ->. done. }
  destruct HE as (mods0 & Hmods0 & -> & Hpres0).
  assert (Hempty : ∀ n', <[d := Dir]> (w_fs w) !! (d ++ [n']) = None).
  { intros n'. rewrite lookup_insert_ne by apply path_snoc_ne.
    destruct (w_fs w !! (d ++ [n'])) eqn:Hx; [|done].
    apply Hclosed in Hx. congruence. }
  apply shutil_copy_fresh in Hcp as (b & Hb & Hname & ->); wsimpl;
    [|by rewrite lookup_insert_eq|done|done].
  assert (Hlpd : lp ≠ d).
  { intros ->. rewrite lookup_insert_eq in Hb. done. }
  rewrite lookup_insert_ne in Hb by done.
  assert (Hdst : w_fs w !! (d ++ [path_name lp]) = None).
  { specialize (Hempty (path_name lp)).
    by rewrite lookup_insert_ne in Hempty by apply path_snoc_ne. }
  unfold path_join in Hll. rewrite decide_False in Hll by done.
  eapply (LoadLibrary_copy (<[d := Dir]> (w_fs w))) in Hll as (nlib & Hi & -> & ->);
    wsimpl; [|done|apply Hempty|done].
  rewrite alter_last in H. wsimpl.
  eapply init_tail_inv in H; [|wsimpl; apply lookup_last|wsimpl; reflexivity].
  wsimpl.
  destruct H as [(_ & ? & _)|(m & code & Hm & Hsym & Htr & Hfs & _ & Hreg & _ & Hmod & Hres)];
    [done|].
  rewrite lookup_last in Hm. injection Hm as <-. wsimpl.
  rewrite insert_last in Hmod.
  destruct (code (nl_init nlib) Initialize_args) as [st [raw stores|e]] eqn:Hcode;
    wsimpl; [|by destruct Hres].
  destruct (wrap_int32 raw <=? 0)%Z; destruct Hres as [Hr Hheap]; [done|].
  injection Hr as ->. rewrite alter_last in Hheap. wsimpl.
  exists n, lp, b, nlib, mods0, code. rewrite Hcode. wsimpl.
  unfold d in *. rewrite <- !(assoc_L (++)) in *.
  repeat (split; [done|]).
  (* the resulting world is well formed *)
  apply wf_world_spec. rewrite Hfs, Hmod. split.
  - intros p n' x Hx.
    destruct (decide (p ++ [n'] = gettempdir E ++ [n] ++ [path_name lp])) as [Heq|Hne1].
    { rewrite (assoc_L (++)) in Heq. apply app_inj_tail in Heq as [-> _].
      rewrite lookup_insert_ne, lookup_insert_eq; [done|].
      rewrite (assoc_L (++)). apply not_eq_sym, path_snoc_ne. }
    rewrite lookup_insert_ne in Hx by done.
    destruct (decide (p ++ [n'] = gettempdir E ++ [n])) as [Heq|Hne2].
    { apply app_inj_tail in Heq as [-> _].
      rewrite !lookup_insert_ne; [done| |]; intros Heq; congruence. }
    rewrite lookup_insert_ne in Hx by done.
    apply Hclosed in Hx.
    rewrite !lookup_insert_ne; [done| |]; intros Heq; congruence.
  - intros m Hm. apply elem_of_app in Hm as [Hm|Hm].
    + apply Hpres0 in Hm as [H1 H2].
      split; apply lookup_insert_is_Some'; by right.
    + apply list_elem_of_singleton in Hm as ->. wsimpl.
      rewrite lookup_insert_eq. split; by eexists.
Qed.

(** C6. After a successful construction in a well-formed world the
    resolved library path is a regular file, not a link; its bytes are in
    a new file of the same name inside the instance's new temporary
    directory; and the module the instance retains was not loaded before,
    is named by that copy and runs the code of the copied bytes. *)
Theorem construction_loads_private_copy (library : string) (w w' : W) (self : nat) :
  wf_world w →
  __init__ E library w = (w', Ok self) →
  ∃ (d lp : path) (b : string) (lib : CDLL) (m : Module nstate),
    w_heap w' !! self = Some (mkInstance (Some lib) (Some d) (Some lp))
    ∧ w_fs w !! d = None
    ∧ w_fs w' !! d = Some Dir
    ∧ w_fs w !! lp = Some (File b)
    ∧ w_fs w' !! lp = Some (File b)
    ∧ w_fs w' !! (d ++ [path_name lp]) = Some (File b)
    ∧ _name lib = ByPath (d ++ [path_name lp])
    ∧ w_modules w !! _handle lib = None
    ∧ w_modules w' !! _handle lib = Some m
    ∧ l_name m = d ++ [path_name lp]
    ∧ l_real m = d ++ [path_name lp]
    ∧ dl_image E b = Some (m_lib m).
Proof.
  intros Hwf H.
  apply init_success_inv in H
    as (n & lp & b & nlib & mods0 & code & -> & Htmp & Hd & Hdst & Hb & Hi & Hsym & Hmods
        & Hfs & Hmod & Hheap & Hreg & Htr & Hwf'); [|done].
  eexists (gettempdir E ++ [n]), lp, b, _, _.
  rewrite Hheap, Hfs, Hmod, !lookup_last. wsimpl.
  rewrite <- !(assoc_L (++)).
  split; [done|]. split; [done|].
  split. { rewrite lookup_insert_ne, lookup_insert_eq; [done|].
           rewrite (assoc_L (++)). apply not_eq_sym, path_snoc_ne. }
  split; [done|].
  split. { rewrite !lookup_insert_ne; [done| |]; intros Heq; congruence. }
  split. { by rewrite lookup_insert_eq. }
  split; [done|].
  split. { apply lookup_ge_None.
           destruct Hmods as [->|(m & ->)]; [done|].
           rewrite length_app. simpl. lia. }
  wsimpl. rewrite lookup_last. by repeat split.
Qed.

(** *** Calls on one instance and the state of another *)

Lemma set_voice_by_name_frame (self : nat) (name : pyval) (w w1 : W) (r : result pyval)
    (inst : Instance) (lib : CDLL) :
  w_heap w !! self = Some inst →
  _library inst = Some lib →
  set_voice_by_name self name w = (w1, r) →
  w_heap w1 = w_heap w ∧ w_brk w1 = w_brk w ∧ w_fs w1 = w_fs w
  ∧ ∀ h, h ≠ _handle lib → w_modules w1 !! h = w_modules w !! h.
Proof.
  intros Hinst Hlib. unfold set_voice_by_name, self_library.
  unfold bind at 1. rewrite Hinst, Hlib.
  unfold bind at 1. unfold getattr_func.
  destruct (w_modules w !! _handle lib) as [m|] eqn:Hm; [|by intros [= <- <-]].
  destruct (nl_sym (m_lib m) "espeak_SetVoiceByName") as [code|] eqn:Hsym;
    [|by intros [= <- <-]].
  unfold call. wsimpl.
  destruct (length [name] <? length [c_char_p])%nat; [by intros [= <- <-]|].
  destruct (convert_args _ _ _ _) as [cargs|e]; [|by intros [= <- <-]].
  rewrite Hm, Hsym.
  destruct (code (m_state m) cargs) as [st [raw stores|e]]; simpl; unfold ret;
    intros [= <- <-]; wsimpl; repeat split; try done;
    intros h Hh; by rewrite list_lookup_insert_ne.
Qed.

Lemma get_current_voice_result (self : nat) (w : W) :
  (get_current_voice self w).2 = current_voice_result w self.
Proof.
  unfold get_current_voice, current_voice_result, bind, self_library.
  destruct (w_heap w !! self) as [inst|]; [|done].
  unfold getattr_func. destruct (_library inst) as [lib|]; [|done].
  destruct (w_modules w !! _handle lib) as [m|] eqn:Hm; [|done].
  destruct (nl_sym (m_lib m) "espeak_GetCurrentVoice") as [code|] eqn:Hsym; [|done].
  unfold call. wsimpl. cbn [length Nat.ltb Nat.leb convert_args]. rewrite Hm, Hsym.
  destruct (code (m_state m) []) as [st [raw stores|e]]; [|done].
  cbn [convert_result]. unfold bind, alloc_cell, ret, contents. wsimpl.
  unfold cell. rewrite lookup_insert_eq. cbn [default from_option id].
  by destruct (decide (raw = 0%Z)).
Qed.

Lemma get_current_voice_local (self : nat) (w wx : W) :
  w_heap wx !! self = w_heap w !! self →
  (∀ inst lib, w_heap w !! self = Some inst → _library inst = Some lib →
     w_modules wx !! _handle lib = w_modules w !! _handle lib) →
  (get_current_voice self wx).2 = (get_current_voice self w).2.
Proof.
  intros Hheap Hmods. rewrite !get_current_voice_result.
  unfold current_voice_result. rewrite Hheap.
  destruct (w_heap w !! self) as [inst|] eqn:Hinst; [|done].
  destruct (_library inst) as [lib|] eqn:Hlib; [|done].
  by rewrite (Hmods inst lib eq_refl Hlib).
Qed.


(** *** The low-level methods *)

Lemma method_prefix_inv {A} (self : nat) (sym : string) (k : FuncPtr → M A)
    (w w' : W) (r : result A) (inst : Instance) (lib : CDLL) :
  w_heap w !! self = Some inst →
  _library inst = Some lib →
  (lib0 <- self_library self ;; f <- getattr_func lib0 sym ;; k f) w = (w', r) →
  (w' = w ∧ r = Raise (AttributeError sym))
  ∨ (∃ m code, w_modules w !! _handle lib = Some m
               ∧ nl_sym (m_lib m) sym = Some code
               ∧ k (mkFuncPtr (_handle lib) sym) w = (w', r)).
Proof.
  intros Hinst Hlib. unfold self_library.
  unfold bind at 1. rewrite Hinst, Hlib.
  unfold bind at 1. unfold getattr_func.
  destruct (w_modules w !! _handle lib) as [m|]; [|intros [= <- <-]; by left].
  destruct (nl_sym (m_lib m) sym) eqn:Hs; [|intros [= <- <-]; by left].
  right. eauto.
Qed.

Lemma bytes_at_cells_only (h : nat) (p : Z) (w w1 : W) (r : result pyval) :
  bytes_at h p w = (w1, r) → cells_only w w1 ∧ ∃ v, r = Ok v.
Proof.
  intros H. apply bytes_at_inv in H as (Hv & Hos & Hm & Ht).
  split; [|done]. destruct Hos as (?&?&?&?&?). by repeat split.
Qed.

Lemma get_current_voice_forwarded (h : nat) (w w' : W) (r : result pyval)
    (m : Module nstate) (code : nstate → list cval → nstate * nresult) :
  w_modules w !! h = Some m →
  nl_sym (m_lib m) "espeak_GetCurrentVoice" = Some code →
  (p <- call (mkFuncPtr h "espeak_GetCurrentVoice") [] (POINTER EspeakVoice_Struct) [] ;;
   contents p) w = (w', r) →
  forwarded h "espeak_GetCurrentVoice" w w' r.
Proof.
  intros Hm Hsym. unfold bind, call. wsimpl.
  cbn [length Nat.ltb Nat.leb convert_args]. rewrite Hm, Hsym.
  destruct (code (m_state m) []) as [st [raw stores|e]] eqn:Hcode.
  - cbn [convert_result]. unfold bind, alloc_cell, ret, contents. wsimpl.
    unfold cell. rewrite lookup_insert_eq. cbn [default from_option id].
    destruct (decide (raw = 0%Z)) as [->|Hne]; intros [= <- <-];
      eapply (fwd_made _ _ _ _ _ m code []); rewrite ?Hcode; wsimpl; try done.
    + intros ?? [= <- <-]. by right.
    + intros ?? _. left. eauto.
  - intros [= <- <-].
    eapply (fwd_made _ _ _ _ _ m code []); rewrite ?Hcode; wsimpl; try done.
    by intros ? [= <-].
Qed.

(** Every low-level method looks up its entry point in the instance's
    library and calls it; nothing else decides whether the call is made. *)
Lemma method_forwarded (self : nat) (c : low_level_call) (w w' : W) (r : result pyval)
    (inst : Instance) (lib : CDLL) :
  w_heap w !! self = Some inst →
  _library inst = Some lib →
  run_method self c w = (w', r) →
  forwarded (_handle lib) (entry_point c) w w' r.
Proof.
  intros Hinst Hlib H.
  destruct c; simpl in H;
    eapply method_prefix_inv in H as [[-> ->]|(m & code & Hm & Hsym & H)];
    try eassumption;
    try (eapply fwd_rejected; eauto using cells_only_refl; fail).
  - (* info *)
    unfold bind at 1 in H. unfold alloc_cell at 1 in H.
    eapply forwarded_pre; [|].
    2:{ apply bind_inv in H as [(w2 & version & Hcall & H)|(e & Hcall & ->)].
        - apply call_forwarded in Hcall. cbn [fp_handle fp_sym] in Hcall.
          apply bind_inv in H as [(w3 & value & Hv & H)|(e & Hv & _)].
          + unfold c_char_p_value in Hv. apply bytes_at_cells_only in Hv as [Hc3 _].
            injection H as <- <-.
            eapply forwarded_post; [exact Hcall|exact Hc3|done|]. intros v _. left. eauto.
          + unfold c_char_p_value in Hv. by apply bytes_at_cells_only in Hv as [_ [? ?]].
        - apply call_forwarded in Hcall. exact Hcall. }
    by repeat split.
  - (* list_voices *) by apply call_forwarded in H.
  - (* set_voice_by_name *) by apply call_forwarded in H.
  - (* get_current_voice *) by eapply get_current_voice_forwarded.
  - (* text_to_phonemes *) by apply call_forwarded in H.
  - (* set_phoneme_trace *)
    apply bind_inv in H as [(w2 & v & Hcall & H)|(e & Hcall & ->)].
    + apply call_forwarded in Hcall. injection H as <- <-.
      eapply forwarded_post; [exact Hcall|apply cells_only_refl|done|].
      intros ? _. left. eauto.
    + by apply call_forwarded in Hcall.
  - (* synthetize *) by apply call_forwarded in H.
Qed.

(** *** Teardown *)

Lemma rmtree_fs_gone (d p : path) (fs : gmap path node) :
  d `prefix_of` p → rmtree_fs d fs !! p = None.
Proof.
  intros Hp. unfold rmtree_fs. apply map_lookup_filter_None. right.
  intros x _ Hn. by apply Hn.
Qed.

Lemma rmtree_fs_kept (d p : path) (fs : gmap path node) :
  ¬ d `prefix_of` p → rmtree_fs d fs !! p = fs !! p.
Proof.
  intros Hn. unfold rmtree_fs. destruct (fs !! p) as [x|] eqn:Hx.
  - by apply map_lookup_filter_Some_2.
  - apply map_lookup_filter_None. by left.
Qed.

Lemma getattr_func_Ok (lib : CDLL) (sym : string) (w : W) (m : Module nstate)
    (code : nstate → list cval → nstate * nresult) :
  w_modules w !! _handle lib = Some m →
  nl_sym (m_lib m) sym = Some code →
  getattr_func (Some lib) sym w = (w, Ok (mkFuncPtr (_handle lib) sym)).
Proof. intros Hm Hs. unfold getattr_func. by rewrite Hm, Hs. Qed.

Lemma call_noargs_c_int (h : nat) (sym : string) (w : W) (m : Module nstate)
    (code : nstate → list cval → nstate * nresult) :
  w_modules w !! h = Some m →
  nl_sym (m_lib m) sym = Some code →
  call (mkFuncPtr h sym) [] c_int [] w =
  match (code (m_state m) []).2 with
  | NRaise e => (after_call h sym [] m (code (m_state m) []) w, Raise e)
  | NRet raw stores =>
      (set_cmem (apply_stores stores) (w_brk w)
         (after_call h sym [] m (code (m_state m) []) w),
       Ok (PyInt (wrap_int32 raw)))
  end.
Proof.
  intros Hm Hs. unfold call, after_call. wsimpl.
  cbn [length Nat.ltb Nat.leb convert_args]. rewrite Hm, Hs.
  by destruct (code (m_state m) []) as [st [raw stores|e]].
Qed.

Lemma terminate_cases (self : nat) (w : W) (inst : Instance) (d : path) :
  w_heap w !! self = Some inst →
  _tempdir inst = Some d →
  w_fs w !! d = Some Dir →
  match _library inst with
  | None => _terminate self w = (set_fs (rmtree_fs d) w, Ok ())
  | Some lib =>
      match w_modules w !! _handle lib with
      | None => _terminate self w = (w, Raise (AttributeError "espeak_Terminate"))
      | Some m =>
          match nl_sym (m_lib m) "espeak_Terminate" with
          | None => _terminate self w = (w, Raise (AttributeError "espeak_Terminate"))
          | Some code =>
              let wc := after_call (_handle lib) "espeak_Terminate" [] m
                          (code (m_state m) []) w in
              match (code (m_state m) []).2 with
              | NRaise e => _terminate self w = (wc, Raise e)
              | NRet raw stores =>
                  _terminate self w =
                  (set_fs (rmtree_fs d) (set_cmem (apply_stores stores) (w_brk w) wc), Ok ())
              end
          end
      end
  end.
Proof.
  intros Hinst Hd Hfs. destruct inst as [olib od olp]. wsimpl. subst od.
  assert (Hself : self_library self w = (w, Ok olib)).
  { unfold self_library. by rewrite Hinst. }
  assert (Hrm : ∀ w1 : W, w_heap w1 = w_heap w → w_fs w1 = w_fs w →
            (tempdir <- self_tempdir self ;; shutil_rmtree tempdir) w1
            = (set_fs (rmtree_fs d) w1, Ok ())).
  { intros w1 Hh Hf. unfold bind, self_tempdir, shutil_rmtree.
    rewrite Hh, Hinst, Hf, Hfs. done. }
  unfold _terminate. rewrite (bind_Ok_eq _ _ _ _ _ Hself).
  destruct olib as [lib|].
  2:{ unfold bind at 1. unfold ret at 1. by apply Hrm. }
  destruct (w_modules w !! _handle lib) as [m|] eqn:Hm.
  2:{ apply bind_Raise_eq. apply bind_Raise_eq. unfold getattr_func. by rewrite Hm. }
  destruct (nl_sym (m_lib m) "espeak_Terminate") as [code|] eqn:Hsym.
  2:{ apply bind_Raise_eq. apply bind_Raise_eq. unfold getattr_func. by rewrite Hm, Hsym. }
  cbv zeta.
  pose proof (call_noargs_c_int _ _ _ _ _ Hm Hsym) as Hcall.
  destruct (code (m_state m) []) as [st [raw stores|e]] eqn:Hcode; wsimpl.
  - erewrite bind_Ok_eq.
    2:{ erewrite bind_Ok_eq; [|eapply getattr_func_Ok; eauto].
        erewrite bind_Ok_eq; [|exact Hcall]. reflexivity. }
    by apply Hrm.
  - apply bind_Raise_eq.
    erewrite bind_Ok_eq; [|eapply getattr_func_Ok; eauto].
    by apply bind_Raise_eq.
Qed.

Lemma run_finalizer_no_handle (i self : nat) (w : W) (d : path) (lp : option path) :
  w_registry w !! i = Some (mkFinalizer self (Bound_terminate self) true) →
  w_heap w !! self = Some (mkInstance None (Some d) lp) →
  w_fs w !! d = Some Dir →
  run_finalizer i w =
  set_fs (rmtree_fs d)
    (set_registry (<[i := mkFinalizer self (Bound_terminate self) false]>) w).
Proof.
  intros Hreg Hinst Hfs. unfold run_finalizer. rewrite Hreg. cbn [fin_alive fin_func fin_obj].
  cbn [call_callable].
  pose proof (terminate_cases self
    (set_registry (<[i := mkFinalizer self (Bound_terminate self) false]>) w)
    _ d Hinst eq_refl Hfs) as Ht.
  cbn [_library] in Ht. by rewrite Ht.
Qed.

(** C3, as the code has it.  For an instance whose directory is on disk
    and whose finalizer is pending, what teardown does is decided by the
    native terminate call alone.  With no handle, no call is made and the
    directory is removed.  With a handle whose library exports
    [espeak_Terminate], that entry point is called once; if it returns,
    whatever the status, [_terminate] returns, the directory is removed and
    nothing is written to the error stream; if it raises, [_terminate]
    raises the same exception before it reaches [rmtree], so the disk is
    left as it was, directory included, and the finalizer that ran it
    writes the exception to the error stream instead of passing it on.
    Removed means: every path below the directory is gone and every other
    path is as before. *)
Theorem teardown_outcomes (i self : nat) (w : W) (f : Finalizer) (inst : Instance) (d : path) :
  w_registry w !! i = Some f →
  fin_alive f = true →
  fin_func f = Bound_terminate self →
  w_heap w !! self = Some inst →
  _tempdir inst = Some d →
  w_fs w !! d = Some Dir →
  match _library inst with
  | None =>
      (_terminate self w).2 = Ok ()
      ∧ w_fs (_terminate self w).1 = rmtree_fs d (w_fs w)
      ∧ w_fs (run_finalizer i w) = rmtree_fs d (w_fs w)
      ∧ w_stderr (run_finalizer i w) = w_stderr w
      ∧ w_trace (run_finalizer i w) = w_trace w
  | Some lib =>
      ∀ m code,
        w_modules w !! _handle lib = Some m →
        nl_sym (m_lib m) "espeak_Terminate" = Some code →
        w_trace (run_finalizer i w) =
          w_trace w ++ [EvCall (_handle lib) "espeak_Terminate" [] (code (m_state m) []).2]
        ∧ match (code (m_state m) []).2 with
          | NRet raw stores =>
              (_terminate self w).2 = Ok ()
              ∧ w_fs (_terminate self w).1 = rmtree_fs d (w_fs w)
              ∧ w_fs (run_finalizer i w) = rmtree_fs d (w_fs w)
              ∧ w_stderr (run_finalizer i w) = w_stderr w
          | NRaise e =>
              (_terminate self w).2 = Raise e
              ∧ w_fs (_terminate self w).1 = w_fs w
              ∧ w_fs (run_finalizer i w) = w_fs w
              ∧ w_fs (run_finalizer i w) !! d = Some Dir
              ∧ w_stderr (run_finalizer i w) = w_stderr w ++ [e]
          end
  end
  ∧ (∀ p, d `prefix_of` p → rmtree_fs d (w_fs w) !! p = None)
  ∧ (∀ p, ¬ d `prefix_of` p → rmtree_fs d (w_fs w) !! p = w_fs w !! p).
Proof.
  intros Hreg Halive Hfunc Hinst Hd Hfs.
  split; [|split; [intros p Hp; by apply rmtree_fs_gone|intros p Hp; by apply rmtree_fs_kept]].
  unfold run_finalizer. rewrite Hreg, Halive, Hfunc. cbn [call_callable].
  set (wr := set_registry _ w).
  pose proof (terminate_cases self w inst d Hinst Hd Hfs) as Hw.
  pose proof (terminate_cases self wr inst d Hinst Hd Hfs) as Hwr.
  destruct (_library inst) as [lib|] eqn:Hlib.
  2:{ rewrite Hw, Hwr. wsimpl. by repeat split. }
  change (w_modules wr) with (w_modules w) in Hwr.
  intros m code Hm Hsym. rewrite Hm, Hsym in Hw, Hwr.
  cbv zeta in Hw, Hwr. unfold after_call in Hw, Hwr.
  destruct (code (m_state m) []) as [st [raw stores|e]] eqn:Hcode; wsimpl.
  - rewrite Hw, Hwr. wsimpl. by repeat split.
  - rewrite Hw, Hwr. wsimpl. by repeat split.
Qed.

(** *** Construction that fails at the first load *)

Lemma mkdtemp_loop_heap (names : list string) (f : list Instance → list Instance) (w : W) :
  mkdtemp_loop E names (set_heap f w)
  = (set_heap f (mkdtemp_loop E names w).1, (mkdtemp_loop E names w).2).
Proof.
  revert w. induction names as [|n rest IH]; intros w; [done|].
  cbn [mkdtemp_loop]. unfold os_mkdir. wsimpl.
  destruct (w_fs w !! gettempdir E) as [[| |]|]; try done.
  destruct (w_fs w !! (gettempdir E ++ [n])); [|done].
  apply IH.
Qed.

Lemma mkdtemp_heap (f : list Instance → list Instance) (w : W) :
  mkdtemp E (set_heap f w) = (set_heap f (mkdtemp E w).1, (mkdtemp E w).2).
Proof. apply mkdtemp_loop_heap. Qed.

Lemma dlopen_result_frame (p : path) (wa wb : W) :
  w_fs wa = w_fs wb → w_modules wa = w_modules wb →
  (dlopen E p wa).2 = (dlopen E p wb).2.
Proof.
  intros Hfs Hmods. unfold dlopen. rewrite Hfs, Hmods. by repeat case_match.
Qed.

Lemma dlopen_main_result_frame (wa wb : W) :
  w_fs wa = w_fs wb → w_modules wa = w_modules wb →
  (dlopen_main E wa).2 = (dlopen_main E wb).2.
Proof.
  intros Hfs Hmods. unfold dlopen_main. cbv zeta. rewrite Hfs, Hmods. by repeat case_match.
Qed.

(** Whether the loader can open a library depends on the disk and on
    the link map only. *)
Lemma LoadLibrary_result_frame (name : libname) (wa wb : W) :
  w_fs wa = w_fs wb → w_modules wa = w_modules wb →
  (LoadLibrary E name wa).2 = (LoadLibrary E name wb).2.
Proof.
  intros Hfs Hmods.
  assert (Hk : ∀ (m : M nat),
            (m wa).2 = (m wb).2 →
            (bind m (λ h, ret (mkCDLL h name)) wa).2 = (bind m (λ h, ret (mkCDLL h name)) wb).2).
  { intros m Hm. unfold bind, ret.
    destruct (m wa) as [wa' [ha|ea]], (m wb) as [wb' [hb|eb]]; simpl in *; congruence. }
  unfold LoadLibrary. apply Hk. destruct name as [s|p].
  - destruct (embedded_NUL s); [done|].
    destruct (asks_for_main_program E s); [by apply dlopen_main_result_frame|].
    destruct (ld_lookup E s); [by apply dlopen_result_frame|done].
  - destruct (pathlike_refused E); [done|]. by apply dlopen_result_frame.
Qed.

(** C2, as the code has it.  When the temporary directory can be made and
    the loader then cannot open the named library, construction raises the
    [RuntimeError] "failed to load espeak library" and returns no instance.
    When the error surfaces the directory is still there: the disk is the
    one of the start with the new directory added, nothing is loaded and no
    native call was made; the object under construction is left with the
    directory and without a library, and the one thing registered is the
    finalizer of the start.  It is that finalizer which removes the
    directory when it runs, and it makes no native call. *)
Theorem load_failure_leaves_tempdir_to_finalizer (library : string) (w w' : W)
    (r : result nat) (k : os_error) (d : path) :
  (mkdtemp E w).2 = Ok d →
  (LoadLibrary E (ByName library) (mkdtemp E w).1).2 = Raise (OSError k) →
  __init__ E library w = (w', r) →
  r = Raise (RuntimeError (failed_to_load k))
  ∧ LoadError_raised r
  ∧ w_fs w !! d = None
  ∧ w_fs w' = <[d := Dir]> (w_fs w)
  ∧ w_fs w' !! d = Some Dir
  ∧ w_heap w' = w_heap w ++ [mkInstance None (Some d) None]
  ∧ w_registry w' =
      w_registry w ++ [mkFinalizer (length (w_heap w)) (Bound_terminate (length (w_heap w))) true]
  ∧ w_modules w' = w_modules w
  ∧ w_trace w' = w_trace w
  ∧ (∀ p, d `prefix_of` p → w_fs (run_finalizer (length (w_registry w)) w') !! p = None)
  ∧ w_trace (run_finalizer (length (w_registry w)) w') = w_trace w.
Proof.
  intros Hmk Hload H.
  destruct (mkdtemp E w) as [wm rm] eqn:Hm. cbn [fst snd] in Hmk, Hload. subst rm.
  pose proof Hm as Hm'.
  apply mkdtemp_inv in Hm' as [(n & rest & [= ->] & Htmp & Hd & ->)|(e & rest & ? & _)];
    [|done].
  rewrite init_eq in H. unfold bind at 1 in H. unfold new_instance at 1 in H.
  unfold bind at 1 in H.
  rewrite mkdtemp_heap, Hm in H. cbn [fst snd] in H.
  unfold bind at 1 in H. unfold setattr_self at 1 in H.
  unfold bind at 1 in H. unfold weakref_finalize at 1 in H.
  wsimpl. rewrite alter_last in H. wsimpl.
  match type of H with init_body _ _ _ _ ?wd = _ => set (wD := wd) in * end.
  assert (HloadD : LoadLibrary E (ByName library) wD = (wD, Raise (OSError k))).
  { destruct (LoadLibrary E (ByName library) wD) as [wx rx] eqn:Hx.
    assert (rx = Raise (OSError k)) as ->.
    { rewrite <- Hload.
      change rx with (wx, rx).2. rewrite <- Hx.
      by apply LoadLibrary_result_frame. }
    by apply LoadLibrary_inv in Hx
      as [(e' & _ & -> & _)|[(p & h & _ & _ & ?)|(h & _ & _ & ?)]]. }
  unfold init_body in H.
  assert (Hlo : load_original E library wD = (wD, Raise (RuntimeError (failed_to_load k)))).
  { unfold load_original, try_except.
    by rewrite (bind_Raise_eq _ _ _ _ _ HloadD). }
  rewrite (bind_Raise_eq _ _ _ _ _ Hlo) in H. injection H as <- <-.
  unfold wD. wsimpl.
  split; [done|]. split. { eexists. split; [done|]. by eexists. }
  split; [done|]. split; [done|]. split; [by rewrite lookup_insert_eq|].
  split; [done|]. split; [done|]. split; [done|]. split; [done|].
  rewrite (run_finalizer_no_handle (length (w_registry w)) (length (w_heap w)) _
             (gettempdir E ++ [n]) None).
  - wsimpl. split; [|done]. intros p Hp. by apply rmtree_fs_gone.
  - wsimpl. apply lookup_last.
  - wsimpl. apply lookup_last.
  - wsimpl. by rewrite lookup_insert_eq.
Qed.

(** *** The finalizer and the collector *)

Lemma init_registers_hook (library : string) (w w' : W) (self : nat) :
  __init__ E library w = (w', Ok self) →
  self = length (w_heap w)
  ∧ w_registry w' =
      w_registry w ++ [mkFinalizer self (Bound_terminate self) true]
  ∧ ∃ lib d lp, w_heap w' !! self = Some (mkInstance (Some lib) (Some d) (Some lp)).
Proof.
  intros H.
  apply init_prefix_inv in H as [(e & rest & ? & _)|(n & rest & Htmp & Hd & H)]; [done|].
  apply init_body_inv in H as [(e & ? & _)|
    (wE & lp & wF & lib & wG & _ & _ & _ & Hsame & H)]; [done|].
  destruct Hsame as (Hheap & Hreg & _). wsimpl.
  eapply (init_tail_inv _ _ _ _ _ (mkInstance (Some lib) (Some (gettempdir E ++ [n])) None) lib)
    in H; [| |done].
  2:{ wsimpl. rewrite Hheap, alter_last. apply lookup_last. }
  wsimpl. rewrite Hheap, alter_last in H.
  destruct H as [(_ & ? & _)|(m & code & _ & _ & _ & _ & _ & Hreg' & _ & _ & Hres)]; [done|].
  destruct (code (m_state m) Initialize_args).2 as [raw stores|e]; [|by destruct Hres].
  destruct (wrap_int32 raw <=? 0)%Z; destruct Hres as [Hr Hheap']; [done|].
  injection Hr as ->. rewrite alter_last in Hheap'. wsimpl.
  split; [done|]. split; [by rewrite Hreg', Hreg|].
  rewrite Hheap', lookup_last. eauto.
Qed.

Lemma strongly_held_app (w : W) (l1 l2 : list Finalizer) :
  w_registry w = l1 ++ l2 →
  strongly_held w =
  flat_map (λ f, if fin_alive f then callable_refs (fin_func f) else []) l1
  ++ flat_map (λ f, if fin_alive f then callable_refs (fin_func f) else []) l2.
Proof. intros H. unfold strongly_held. by rewrite H, flat_map_app. Qed.

(** C4, what the code does.  The hook registered by a successful
    construction is the bound method [self._terminate]: the one object it
    holds is the instance itself, not the handle and the directory path.
    So the instance stays reachable whatever the program's own references
    are, and a collection never runs its finalizer. *)
Theorem finalizer_holds_the_instance (library : string) (w w' : W) (self : nat) :
  __init__ E library w = (w', Ok self) →
  ∃ f, w_registry w' !! length (w_registry w) = Some f
     ∧ fin_obj f = self
     ∧ fin_alive f = true
     ∧ fin_func f = Bound_terminate self
     ∧ callable_refs (fin_func f) = [self]
     ∧ (∀ roots, reachable roots w' self = true)
     ∧ (∀ roots, gc_step roots w' (length (w_registry w)) = w').
Proof.
  intros H. apply init_registers_hook in H as (-> & Hreg & _).
  eexists. rewrite Hreg, lookup_last. repeat (split; [done|]).
  assert (Hreach : ∀ roots, reachable roots w' (length (w_heap w)) = true).
  { intros roots. unfold reachable. apply bool_decide_eq_true.
    rewrite (strongly_held_app _ _ _ Hreg). simpl.
    rewrite !elem_of_app. right. right. by apply list_elem_of_here. }
  split; [done|].
  intros roots. unfold gc_step. rewrite Hreg, lookup_last. cbn [fin_alive fin_obj].
  rewrite Hreach. done.
Qed.

Lemma run_finalizer_once (i : nat) (w : W) (f : Finalizer) :
  w_registry w !! i = Some f → fin_alive f = false → run_finalizer i w = w.
Proof. intros Hf Ha. unfold run_finalizer. by rewrite Hf, Ha. Qed.

(** *** Path resolution *)

Lemma shared_library_path_posix (lib : CDLL) (w w1 : W) (e : exn) :
  sys_platform E ≠ win32 →
  _shared_library_path E lib w = (w1, Raise e) → PathResolutionError e.
Proof.
  intros Hp. unfold _shared_library_path, try_except.
  destruct (sys_platform E); try done.
  all: destruct (bind _ _ w) as [w2 [lp|e']]; [done|];
    unfold raise; by intros [= <- <-].
Qed.

Lemma shared_library_path_win32 (lib : CDLL) (w : W) :
  sys_platform E = win32 →
  _shared_library_path E lib w =
  resolve E (match _name lib with
             | ByName s => path_of_string E s
             | ByPath p => p
             end) w.
Proof. intros Hp. unfold _shared_library_path. by rewrite Hp. Qed.

(** *** Calls after teardown *)


(** *** Synthesis *)

(** C9, what the code does.  [argtypes] lists seven types for the eight
    parameters of [espeak_Synth], so the mode lands in the slot declared
    [POINTER(c_uint)]: with an integer for mode, [synthetize] raises and
    the native entry point is never called, the world being left as it
    was. *)
Theorem synthetize_rejects_integer_mode (self : nat) (text size : pyval) (z : Z) (w : W) :
  (synthetize self text size (PyInt z) w).1 = w
  ∧ ∃ e, (synthetize self text size (PyInt z) w).2 = Raise e.
Proof.
  unfold synthetize, bind, self_library.
  destruct (w_heap w !! self) as [inst|]; [|eauto].
  unfold getattr_func. destruct (_library inst) as [lib|]; [|eauto].
  destruct (w_modules w !! _handle lib) as [m|] eqn:Hm; [|eauto].
  destruct (nl_sym (m_lib m) "espeak_Synth") as [code|] eqn:Hsym; [|eauto].
  unfold call. wsimpl. cbn [length Nat.ltb Nat.leb].
  cbn [convert_args tail]. 
  destruct (from_param (w_cmem w) c_void_p text); [|eauto].
  destruct (from_param (w_cmem w) c_size_t size); [|eauto].
  cbn [from_param conv_simple]. eauto.
Qed.

(** *** The current voice *)

(** C10. When the native current-voice query returns a pointer,
    [get_current_voice] raises "NULL pointer access" if that pointer is
    null, and whenever it returns a descriptor the pointer was not null
    and the descriptor is the structure at that address. *)
Theorem get_current_voice_null_pointer (self : nat) (w : W) (inst : Instance) (lib : CDLL)
    (m : Module nstate) (code : nstate → list cval → nstate * nresult)
    (raw : Z) (stores : list (Z * Z)) :
  w_heap w !! self = Some inst →
  _library inst = Some lib →
  w_modules w !! _handle lib = Some m →
  nl_sym (m_lib m) "espeak_GetCurrentVoice" = Some code →
  (code (m_state m) []).2 = NRet raw stores →
  (raw = 0%Z → (get_current_voice self w).2 = Raise ValueError_NULL_pointer_access)
  ∧ (∀ v, (get_current_voice self w).2 = Ok v →
       raw ≠ 0%Z ∧ v = PyCData EspeakVoice_Struct raw).
Proof.
  intros Hinst Hlib Hm Hsym Hcode.
  rewrite get_current_voice_result. unfold current_voice_result.
  rewrite Hinst, Hlib, Hm, Hsym, Hcode.
  destruct (decide (raw = 0%Z)) as [->|Hne].
  - split; [done|]. by intros v.
  - split; [done|]. by intros v [= <-].
Qed.

(** *** Histories *)

Lemma method_without_library {A} (self : nat) (sym : string) (k : FuncPtr → M A) (w : W) :
  (w_heap w !! self = None ∨ ∃ i, w_heap w !! self = Some i ∧ _library i = None) →
  ∃ e, (lib0 <- self_library self ;; f <- getattr_func lib0 sym ;; k f) w = (w, Raise e).
Proof.
  unfold bind, self_library, getattr_func. intros [->|(i & -> & ->)]; eauto.
Qed.

Lemma method_frame (self : nat) (c : low_level_call) (w w' : W) (r : result pyval) :
  run_method self c w = (w', r) →
  same_os w w'
  ∧ (w_modules w' = w_modules w
     ∨ ∃ h m st, w_modules w !! h = Some m
         ∧ w_modules w' = <[h := mkModule (l_name m) (l_real m) (m_lib m) st]> (w_modules w)).
Proof.
  intros H.
  assert (Hno : (w_heap w !! self = None ∨ ∃ i, w_heap w !! self = Some i ∧ _library i = None)
                → w' = w).
  { intros Hx. destruct c; cbn [run_method] in H;
      unfold info, list_voices, set_voice_by_name, get_current_voice, text_to_phonemes,
        set_phoneme_trace, synthetize in H;
      match type of H with
      | bind _ (λ lib0, bind (getattr_func lib0 ?sym) ?k) w = _ =>
          destruct (method_without_library self sym k w Hx) as [e He]
      end;
      rewrite He in H; by injection H. }
  destruct (w_heap w !! self) as [inst|] eqn:Hinst.
  2:{ rewrite Hno by (by left). split; [by repeat split|by left]. }
  destruct (_library inst) as [lib|] eqn:Hlib.
  2:{ rewrite Hno by (right; eauto). split; [by repeat split|by left]. }
  eapply method_forwarded in H; [|done|done].
  destruct H as [e _ (Hos & Hm & _) _|m code cargs Hm _ Hmod _ Hos _ _].
  - split; [done|by left].
  - split; [done|]. right. eauto.
Qed.

Lemma fs_closed_insert (fs : gmap path node) (d : path) (n : string) (x : node) :
  fs_closed fs → fs !! d = Some Dir → fs !! (d ++ [n]) = None →
  fs_closed (<[d ++ [n] := x]> fs).
Proof.
  intros Hclosed Hd Hnew p n' y Hy.
  destruct (decide (p ++ [n'] = d ++ [n])) as [Heq|Hne].
  - apply app_inj_tail in Heq as [-> _].
    rewrite lookup_insert_ne by apply not_eq_sym, path_snoc_ne. done.
  - rewrite lookup_insert_ne in Hy by done. apply Hclosed in Hy.
    rewrite lookup_insert_ne; [done|]. intros Heq. congruence.
Qed.

Lemma modules_present_insert (fs : gmap path node) (ms : list (Module nstate))
    (p : path) (x : node) :
  modules_present fs ms → modules_present (<[p := x]> fs) ms.
Proof.
  intros H m Hm. apply H in Hm as [H1 H2].
  split; apply lookup_insert_is_Some'; by right.
Qed.

Lemma modules_present_snoc (fs : gmap path node) (ms : list (Module nstate))
    (m : Module nstate) :
  modules_present fs ms → is_Some (fs !! l_name m) → is_Some (fs !! l_real m) →
  modules_present fs (ms ++ [m]).
Proof.
  intros H H1 H2 m' Hm'. apply elem_of_app in Hm' as [Hm'|Hm']; [by apply H|].
  apply list_elem_of_singleton in Hm' as ->. done.
Qed.

Lemma modules_present_update (fs : gmap path node) (ms : list (Module nstate))
    (h : nat) (m : Module nstate) (st : nstate) :
  modules_present fs ms → ms !! h = Some m →
  modules_present fs (<[h := mkModule (l_name m) (l_real m) (m_lib m) st]> ms).
Proof.
  intros H Hm m' Hm'. apply list_elem_of_lookup in Hm' as [j Hj].
  destruct (decide (j = h)) as [->|Hne].
  - rewrite list_lookup_insert_eq in Hj by (by eapply lookup_lt_Some).
    injection Hj as <-. simpl. apply H. by eapply list_elem_of_lookup_2.
  - rewrite list_lookup_insert_ne in Hj by done.
    apply H. by eapply list_elem_of_lookup_2.
Qed.

Lemma shutil_copy_fails (src dst : path) (w w1 : W) (e : exn) :
  shutil_copy src dst w = (w1, Raise e) → w1 = w.
Proof.
  unfold shutil_copy, write_file. intros H. repeat case_match; by simplify_eq.
Qed.

Lemma LoadLibrary_fails (name : libname) (w w1 : W) (e : exn) :
  LoadLibrary E name w = (w1, Raise e) → w1 = w.
Proof.
  intros H.
  apply LoadLibrary_inv in H as [(e' & _ & -> & _)|[(p & h & _ & _ & ?)|(h & _ & _ & ?)]]; done.
Qed.

(** What any construction, successful or not, leaves behind in a
    well-formed world. *)
Lemma init_wf_inv (library : string) (w w' : W) (r : result nat) :
  wf_world w →
  __init__ E library w = (w', r) →
  wf_world w'
  ∧ (∀ p x, w_fs w !! p = Some x → w_fs w' !! p = Some x)
  ∧ (∀ h m, w_modules w !! h = Some m → w_modules w' !! h = Some m)
  ∧ ∃ i, w_heap w' = w_heap w ++ [i]
       ∧ (∀ d, _tempdir i = Some d → w_fs w !! d = None ∧ w_fs w' !! d = Some Dir)
       ∧ (∀ lib, _library i = Some lib →
            ∃ d n m, _tempdir i = Some d
                     ∧ w_modules w' !! _handle lib = Some m
                     ∧ l_name m = d ++ [n]).
Proof.
  intros Hwf H. pose proof Hwf as Hwf0.
  apply wf_world_spec in Hwf as [Hclosed Hpres].
  apply init_prefix_inv in H as [(e & rest & -> & ->)|(n & rest & Htmp & Hd & H)].
  { wsimpl. split; [by apply wf_world_spec|]. split; [done|]. split; [done|].
    eexists. split; [done|]. split; [done|]. done. }
  set (d := gettempdir E ++ [n]) in *.
  (* the directory is there *)
  assert (HclosedD : fs_closed (<[d := Dir]> (w_fs w))).
  { by apply fs_closed_insert. }
  assert (HpresD : modules_present (<[d := Dir]> (w_fs w)) (w_modules w)).
  { by apply modules_present_insert. }
  assert (Hempty : ∀ n', <[d := Dir]> (w_fs w) !! (d ++ [n']) = None).
  { intros n'. rewrite lookup_insert_ne by apply path_snoc_ne.
    destruct (w_fs w !! (d ++ [n'])) eqn:Hx; [|done].
    apply Hclosed in Hx. congruence. }
  assert (HmonoD : ∀ p x, w_fs w !! p = Some x → <[d := Dir]> (w_fs w) !! p = Some x).
  { intros p x Hp. rewrite lookup_insert_ne; [done|]. intros <-. congruence. }
  unfold init_body in H.
  apply bind_inv in H as [(wE & lp & Hlo & H)|(e & Hlo & ->)].
  2:{ (* the first load, or the path resolution, fails *)
      apply load_original_inv in Hlo as (Hstep & _ & _).
      destruct Hstep as [->|(m & -> & Hn & Hr)]; wsimpl.
      - split; [by apply wf_world_spec|]. split; [done|]. split; [done|].
        eexists. split; [done|]. split; [|done].
        intros d' [= <-]. by rewrite lookup_insert_eq.
      - split; [apply wf_world_spec; split; [done|by apply modules_present_snoc]|].
        split; [done|]. split; [intros h m' Hm'; by apply lookup_app_l_Some|].
        eexists. split; [done|]. split; [|done].
        intros d' [= <-]. by rewrite lookup_insert_eq. }
  apply load_original_inv in Hlo as (HstepE & Hlink & _). wsimpl.
  specialize (Hlink lp eq_refl).
  assert (HE : ∃ mods0,
             (∀ h m, w_modules w !! h = Some m → mods0 !! h = Some m)
             ∧ (length (w_modules w) ≤ length mods0)%nat
             ∧ wE = mkWorld (<[d := Dir]> (w_fs w)) rest mods0 (w_cmem w) (w_brk w)
                      (w_heap w ++ [mkInstance None (Some d) None])
                      (w_registry w ++ [mkFinalizer (length (w_heap w))
                                          (Bound_terminate (length (w_heap w))) true])
                      (w_trace w) (w_stderr w)
             ∧ modules_present (<[d := Dir]> (w_fs w)) mods0).
  { destruct HstepE as [->|(m & -> & Hn & Hr)].
    - exists (w_modules w). done.
    - exists (w_modules w ++ [m]). split; [intros h m' Hm'; by apply lookup_app_l_Some|].
      split; [rewrite length_app; lia|]. split; [done|]. by apply modules_present_snoc. }
  destruct HE as (mods0 & Hmono0 & Hlen0 & -> & Hpres0).
  apply bind_inv in H as [(wF & [] & Hcp & H)|(e & Hcp & ->)].
  2:{ (* the copy fails *)
      apply shutil_copy_fails in Hcp as ->. wsimpl.
      split; [by apply wf_world_spec|]. split; [done|]. split; [done|].
      eexists. split; [done|]. split; [|done].
      intros d' [= <-]. by rewrite lookup_insert_eq. }
  apply shutil_copy_fresh in Hcp as (b & Hb & Hname & ->); wsimpl;
    [|by rewrite lookup_insert_eq|done|done].
  unfold path_join in H. rewrite decide_False in H by done.
  set (dst := d ++ [path_name lp]) in *.
  assert (HclosedF : fs_closed (<[dst := File b]> (<[d := Dir]> (w_fs w)))).
  { apply fs_closed_insert; [done|by rewrite lookup_insert_eq|apply Hempty]. }
  assert (HmonoF : ∀ p x, w_fs w !! p = Some x
                          → <[dst := File b]> (<[d := Dir]> (w_fs w)) !! p = Some x).
  { intros p x Hp. rewrite lookup_insert_ne; [by apply HmonoD|].
    intros <-. apply HmonoD in Hp. unfold dst in Hp. rewrite Hempty in Hp. done. }
  assert (HdF : <[dst := File b]> (<[d := Dir]> (w_fs w)) !! d = Some Dir).
  { rewrite lookup_insert_ne, lookup_insert_eq; [done|]. apply not_eq_sym, path_snoc_ne. }
  apply bind_inv in H as [(wG & lib & Hll & H)|(e & Hll & ->)].
  2:{ (* the copy cannot be loaded *)
      apply LoadLibrary_fails in Hll as ->. wsimpl.
      split; [apply wf_world_spec; split; [done|by apply modules_present_insert]|].
      split; [done|]. split; [done|].
      eexists. split; [done|]. split; [|done].
      intros d' [= <-]. done. }
  eapply (LoadLibrary_copy (<[d := Dir]> (w_fs w))) in Hll as (nlib & Hi & -> & ->);
    wsimpl; [|done|apply Hempty|done].
  unfold bind at 1 in H. unfold setattr_self at 1 in H. wsimpl.
  rewrite alter_last in H. wsimpl.
  eapply init_tail_inv in H; [|wsimpl; apply lookup_last|wsimpl; reflexivity].
  wsimpl.
  set (mc := mkModule dst dst nlib (nl_init nlib)) in *.
  assert (HpresG : modules_present (<[dst := File b]> (<[d := Dir]> (w_fs w))) (mods0 ++ [mc])).
  { apply modules_present_snoc; [by apply modules_present_insert| |];
      unfold mc; cbn [l_name l_real]; rewrite lookup_insert_eq; by eexists. }
  destruct H as [(-> & -> & _)|(m & code & Hm & Hsym & _ & Hfs & _ & _ & _ & Hmod & Hres)].
  - (* the copy does not export the entry point *)
    wsimpl. split; [by apply wf_world_spec|]. split; [done|].
    split; [intros h m' Hm'; by apply lookup_app_l_Some, Hmono0|].
    eexists. split; [done|]. cbn [_tempdir _library]. split; [by intros d' [= <-]|].
    intros lib [= <-]. cbn [_handle]. exists d, (path_name lp), mc.
    rewrite lookup_last. done.
  - rewrite lookup_last in Hm. injection Hm as <-.
    assert (Hlk : w_modules w' !! length mods0
                  = Some (mkModule dst dst nlib (code (nl_init nlib) Initialize_args).1)).
    { rewrite Hmod. unfold mc. cbn [l_name l_real m_lib m_state].
      rewrite insert_last. apply lookup_last. }
    assert (Hwf' : wf_world w').
    { apply wf_world_spec. rewrite Hfs, Hmod. split; [done|].
      apply modules_present_update; [done|apply lookup_last]. }
    assert (Hmono' : ∀ h m, w_modules w !! h = Some m → w_modules w' !! h = Some m).
    { intros h m Hm. rewrite Hmod, list_lookup_insert_ne.
      - by apply lookup_app_l_Some, Hmono0.
      - apply lookup_lt_Some in Hm. lia. }
    split; [done|]. split; [by rewrite Hfs|]. split; [done|].
    assert (Hheap : ∃ olp, w_heap w' =
              w_heap w ++ [mkInstance (Some (mkCDLL (length mods0) (ByPath dst))) (Some d) olp]).
    { unfold mc in Hres. cbn [m_state] in Hres. wsimpl.
      destruct (code (nl_init nlib) Initialize_args).2 as [raw stores|e].
      - destruct (wrap_int32 raw <=? 0)%Z; destruct Hres as [_ ->]; [eauto|].
        rewrite alter_last. eauto.
      - destruct Hres as [_ ->]. eauto. }
    destruct Hheap as (olp & Hheap).
    eexists. split; [exact Hheap|]. cbn [_tempdir _library].
    split; [intros d' [= <-]; by rewrite Hfs|].
    intros lib [= <-]. cbn [_handle]. eexists d, (path_name lp), _.
    split; [done|]. split; [exact Hlk|]. done.
Qed.

Lemma instances_ok_call (self : nat) (c : low_level_call) (w w' : W) (r : result pyval) :
  instances_ok w → run_method self c w = (w', r) → instances_ok w'.
Proof.
  intros [Hwf Hok] H. apply method_frame in H as [(Hfs & _ & Hheap & _) Hmod].
  apply wf_world_spec in Hwf as [Hclosed Hpres].
  split.
  - apply wf_world_spec. rewrite Hfs. split; [done|].
    destruct Hmod as [->|(h & m & st & Hm & ->)]; [done|].
    by apply modules_present_update.
  - intros a i Hai. rewrite Hheap in Hai.
    destruct (Hok a i Hai) as [Hdir Hlib]. split.
    + intros d Hd. rewrite Hfs. by apply Hdir.
    + intros lib Hl. destruct (Hlib lib Hl) as (d & n & m & Hd & Hm & Hn).
      destruct Hmod as [->|(h' & m' & st & Hm' & ->)]; [by eauto|].
      destruct (decide (_handle lib = h')) as [Heq|Hne].
      * eexists d, n, _. split; [done|]. rewrite Heq.
        rewrite list_lookup_insert_eq by (by eapply lookup_lt_Some).
        split; [done|]. rewrite Heq in Hm. simpl. congruence.
      * exists d, n, m. rewrite list_lookup_insert_ne by done. done.
Qed.

Lemma instances_ok_construct (library : string) (w w' : W) (r : result nat) :
  instances_ok w → __init__ E library w = (w', r) →
  instances_ok w'
  ∧ ∃ i, w_heap w' = w_heap w ++ [i] ∧ ∀ d, _tempdir i = Some d → w_fs w !! d = None.
Proof.
  intros [Hwf Hok] H.
  apply init_wf_inv in H as (Hwf' & Hfs & Hmod & i & Hheap & Hdir & Hlib); [|done].
  split; [|exists i; split; [done|]; intros d Hd; by apply Hdir].
  split; [done|].
  intros a j Haj. rewrite Hheap in Haj.
  apply lookup_app_Some in Haj as [Haj|[_ Haj]].
  - destruct (Hok a j Haj) as [Hdj Hlj]. split.
    + intros d Hd. by apply Hfs, Hdj.
    + intros lib Hl. destruct (Hlj lib Hl) as (d & n & m & Hd & Hm & Hn).
      exists d, n, m. split; [done|]. split; [by apply Hmod|done].
  - apply list_lookup_singleton_Some in Haj as [_ <-]. split.
    + intros d Hd. by apply Hdir.
    + done.
Qed.

Lemma run_invariant (w0 w : W) :
  wf_world w0 → w_heap w0 = [] → run E w0 w → instances_ok w ∧ tempdirs_distinct w.
Proof.
  intros Hwf Hempty Hrun.
  induction Hrun as [|w w' library r _ [Hok Hdis] H|w w' self c r _ [Hok Hdis] H].
  - split; [split; [done|]|]; intros ?; rewrite Hempty; intros; by rewrite ?lookup_nil in *.
  - destruct (instances_ok_construct _ _ _ _ Hok H) as (Hok' & i & Hheap & Hfresh).
    split; [done|].
    intros a b' ia ib d Hne Ha Hb Hda Hdb. rewrite Hheap in Ha, Hb.
    destruct Hok as [_ Hok].
    apply lookup_app_Some in Ha as [Ha|[Hla Ha]]; apply lookup_app_Some in Hb as [Hb|[Hlb Hb]].
    + by eapply (Hdis a b').
    + apply list_lookup_singleton_Some in Hb as [_ <-].
      destruct (Hok a ia Ha) as [Hdir _]. apply Hdir in Hda.
      rewrite (Hfresh d Hdb) in Hda. done.
    + apply list_lookup_singleton_Some in Ha as [_ <-].
      destruct (Hok b' ib Hb) as [Hdir _]. apply Hdir in Hdb.
      rewrite (Hfresh d Hda) in Hdb. done.
    + apply list_lookup_singleton_Some in Ha as [Ha _].
      apply list_lookup_singleton_Some in Hb as [Hb _]. lia.
  - split; [by eapply instances_ok_call|].
    apply method_frame in H as [(_ & _ & Hheap & _) _].
    intros a b' ia ib d Hne Ha Hb. rewrite Hheap in Ha, Hb. by eapply Hdis.
Qed.

(** C1. In any history of constructions, successful or not, and of
    low-level calls, that starts from a well-formed world without instances,
    two distinct instances that hold a library (every instance whose
    construction returned does) have distinct temporary directories, both on
    disk, and distinct module handles; and after [set_voice_by_name] on one
    of them, [get_current_voice] on the other returns what it returned
    before, the state of the other's module being untouched. *)
Theorem instances_are_isolated (w0 w : W) (a b : nat) (ia ib : Instance) (la lb : CDLL) :
  wf_world w0 →
  w_heap w0 = [] →
  run E w0 w →
  a ≠ b →
  w_heap w !! a = Some ia →
  w_heap w !! b = Some ib →
  _library ia = Some la →
  _library ib = Some lb →
  ∃ (da db : path),
    _tempdir ia = Some da ∧ _tempdir ib = Some db
    ∧ w_fs w !! da = Some Dir ∧ w_fs w !! db = Some Dir
    ∧ da ≠ db
    ∧ _handle la ≠ _handle lb
    ∧ ∀ name,
        (get_current_voice b (set_voice_by_name a name w).1).2
        = (get_current_voice b w).2
        ∧ w_modules (set_voice_by_name a name w).1 !! _handle lb
          = w_modules w !! _handle lb.
Proof.
  intros Hwf Hempty Hrun Hne Ha Hb Hla Hlb.
  destruct (run_invariant w0 w Hwf Hempty Hrun) as [[_ Hok] Hdis].
  destruct (Hok a ia Ha) as [Hdira Hliba].
  destruct (Hok b ib Hb) as [Hdirb Hlibb].
  destruct (Hliba la Hla) as (da & na & ma & Hda & Hma & Hna).
  destruct (Hlibb lb Hlb) as (db & nb & mb & Hdb & Hmb & Hnb).
  assert (Hd : da ≠ db).
  { intros ->. by eapply (Hdis a b). }
  assert (Hh : _handle la ≠ _handle lb).
  { intros Heq. rewrite Heq, Hmb in Hma. injection Hma as <-. rewrite Hna in Hnb.
    apply app_inj_tail in Hnb as [? _]. done. }
  exists da, db.
  split; [done|]. split; [done|]. split; [by apply Hdira|]. split; [by apply Hdirb|].
  split; [done|]. split; [done|].
  intros name.
  destruct (set_voice_by_name a name w) as [w3 r] eqn:Hset.
  eapply set_voice_by_name_frame in Hset as (Hheap3 & Hbrk3 & _ & Hmod3);
    [|exact Ha|exact Hla].
  cbn [fst snd] in *. split.
  - apply get_current_voice_local; [by rewrite Hheap3|].
    intros inst lib Hinst Hlib. rewrite Hb in Hinst. injection Hinst as <-.
    rewrite Hlb in Hlib. injection Hlib as <-. apply Hmod3. by apply not_eq_sym.
  - apply Hmod3. by apply not_eq_sym.
Qed.

(** ** Further properties of the bindings *)

(** *** Directories and what lies below them *)

Lemma fs_closed_prefix (fs : gmap path node) (d p : path) :
  fs_closed fs → d `prefix_of` p → is_Some (fs !! p) → is_Some (fs !! d).
Proof.
  intros Hc [k ->]. induction k as [|n k IH] using rev_ind.
  - by rewrite app_nil_r.
  - rewrite (assoc_L (++)). intros [x Hx]. apply Hc in Hx. apply IH. by eexists.
Qed.

Lemma rmtree_fs_insert_below (d p : path) (x : node) (fs : gmap path node) :
  d `prefix_of` p → rmtree_fs d (<[p := x]> fs) = rmtree_fs d fs.
Proof.
  intros Hp. apply map_eq. intros q. apply option_eq. intros y.
  unfold rmtree_fs. rewrite !map_lookup_filter_Some. cbn [fst].
  split; intros [Hq Hn]; (split; [|done]).
  - rewrite lookup_insert_ne in Hq; [done|]. by intros <-.
  - rewrite lookup_insert_ne; [done|]. by intros <-.
Qed.

Lemma rmtree_fs_absent (d : path) (fs : gmap path node) :
  fs_closed fs → fs !! d = None → rmtree_fs d fs = fs.
Proof.
  intros Hc Hd. apply map_eq. intros q. apply option_eq. intros y.
  unfold rmtree_fs. rewrite map_lookup_filter_Some. cbn [fst].
  split; [by intros [? _]|]. intros Hq. split; [done|].
  intros Hp. destruct (fs_closed_prefix fs d q Hc Hp) as [z Hz]; [by eexists|].
  congruence.
Qed.

(** What a construction, whatever its outcome, has done to the disk of a
    well-formed world and which instance it leaves on the heap. *)
Lemma init_disk_inv (library : string) (w w' : W) (r : result nat) :
  wf_world w →
  __init__ E library w = (w', r) →
  (w_fs w' = w_fs w ∧ w_heap w' = w_heap w ++ [mkInstance None None None])
  ∨ ∃ (n : string) (olib : option CDLL) (olp : option path),
      w_fs w !! (gettempdir E ++ [n]) = None
      ∧ w_heap w' = w_heap w ++ [mkInstance olib (Some (gettempdir E ++ [n])) olp]
      ∧ (w_fs w' = <[gettempdir E ++ [n] := Dir]> (w_fs w)
         ∨ ∃ (lp : path) (b : string),
             w_fs w !! lp = Some (File b)
             ∧ path_name lp ≠ ""
             ∧ w_fs w' = <[(gettempdir E ++ [n]) ++ [path_name lp] := File b]>
                           (<[gettempdir E ++ [n] := Dir]> (w_fs w))).
Proof.
  intros Hwf H. apply wf_world_spec in Hwf as [Hclosed Hpres].
  apply init_prefix_inv in H as [(e & rest & -> & ->)|(n & rest & Htmp & Hd & H)].
  { left. wsimpl. done. }
  right. exists n.
  set (d := gettempdir E ++ [n]) in *.
  assert (Hempty : ∀ n', <[d := Dir]> (w_fs w) !! (d ++ [n']) = None).
  { intros n'. rewrite lookup_insert_ne by apply path_snoc_ne.
    destruct (w_fs w !! (d ++ [n'])) eqn:Hx; [|done].
    apply Hclosed in Hx. congruence. }
  unfold init_body in H.
  apply bind_inv in H as [(wE & lp & Hlo & H)|(e & Hlo & ->)].
  2:{ apply load_original_inv in Hlo as (Hstep & _ & _).
      exists None, None. split; [done|].
      destruct Hstep as [->|(m & -> & _)]; wsimpl; (split; [done|by left]). }
  apply load_original_inv in Hlo as (HstepE & Hlink & _). wsimpl.
  specialize (Hlink lp eq_refl).
  assert (HE : ∃ mods0,
             wE = mkWorld (<[d := Dir]> (w_fs w)) rest mods0 (w_cmem w) (w_brk w)
                    (w_heap w ++ [mkInstance None (Some d) None])
                    (w_registry w ++ [mkFinalizer (length (w_heap w))
                                        (Bound_terminate (length (w_heap w))) true])
                    (w_trace w) (w_stderr w)
             ∧ modules_present (<[d := Dir]> (w_fs w)) mods0).
  { assert (HpresD : modules_present (<[d := Dir]> (w_fs w)) (w_modules w)).
    { by apply modules_present_insert. }
    destruct HstepE as [->|(m & -> & Hn & Hr)].
    - exists (w_modules w). done.
    - exists (w_modules w ++ [m]). split; [done|]. by apply modules_present_snoc. }
  destruct HE as (mods0 & -> & Hpres0).
  apply bind_inv in H as [(wF & [] & Hcp & H)|(e & Hcp & ->)].
  2:{ apply shutil_copy_fails in Hcp as ->. wsimpl.
      exists None, None. split; [done|]. split; [done|]. by left. }
  apply shutil_copy_fresh in Hcp as (b & Hb & Hname & ->); wsimpl;
    [|by rewrite lookup_insert_eq|done|done].
  assert (Hlpd : lp ≠ d).
  { intros ->. rewrite lookup_insert_eq in Hb. done. }
  rewrite lookup_insert_ne in Hb by done.
  unfold path_join in H. rewrite decide_False in H by done.
  apply bind_inv in H as [(wG & lib & Hll & H)|(e & Hll & ->)].
  2:{ apply LoadLibrary_fails in Hll as ->. wsimpl.
      exists None, None. split; [done|]. split; [done|]. right. eauto. }
  eapply (LoadLibrary_copy (<[d := Dir]> (w_fs w))) in Hll as (nlib & Hi & -> & ->);
    wsimpl; [|done|apply Hempty|done].
  unfold bind at 1 in H. unfold setattr_self at 1 in H. wsimpl.
  rewrite alter_last in H. wsimpl.
  eapply init_tail_inv in H; [|wsimpl; apply lookup_last|wsimpl; reflexivity].
  wsimpl.
  destruct H as [(-> & _)|(m & code & _ & _ & _ & Hfs & _ & _ & _ & _ & Hres)].
  - wsimpl. eexists _, _. split; [done|]. split; [done|]. right. eauto.
  - assert (Hheap : ∃ olp, w_heap w' =
              w_heap w ++ [mkInstance (Some (mkCDLL (length mods0)
                                               (ByPath (d ++ [path_name lp])))) (Some d) olp]).
    { destruct (code (m_state m) Initialize_args).2 as [raw stores|e].
      - destruct (wrap_int32 raw <=? 0)%Z; destruct Hres as [_ ->]; [eauto|].
        rewrite alter_last. eauto.
      - destruct Hres as [_ ->]. eauto. }
    destruct Hheap as (olp & Hheap).
    eexists _, olp. split; [done|]. split; [exact Hheap|]. right.
    exists lp, b. by rewrite Hfs.
Qed.

Lemma terminate_unfold (self : nat) (w : W) (inst : Instance) (d : path) :
  w_heap w !! self = Some inst →
  _tempdir inst = Some d →
  _terminate self w =
  match _library inst with
  | None => shutil_rmtree d w
  | Some lib =>
      match w_modules w !! _handle lib with
      | None => (w, Raise (AttributeError "espeak_Terminate"))
      | Some m =>
          match nl_sym (m_lib m) "espeak_Terminate" with
          | None => (w, Raise (AttributeError "espeak_Terminate"))
          | Some code =>
              match (code (m_state m) []).2 with
              | NRaise e =>
                  (after_call (_handle lib) "espeak_Terminate" [] m (code (m_state m) []) w,
                   Raise e)
              | NRet raw stores =>
                  shutil_rmtree d
                    (set_cmem (apply_stores stores) (w_brk w)
                       (after_call (_handle lib) "espeak_Terminate" [] m
                          (code (m_state m) []) w))
              end
          end
      end
  end.
Proof.
  intros Hinst Hd. destruct inst as [olib od olp]. wsimpl. subst od.
  assert (Hself : self_library self w = (w, Ok olib)).
  { unfold self_library. by rewrite Hinst. }
  assert (Hrm : ∀ w1 : W, w_heap w1 = w_heap w →
            (tempdir <- self_tempdir self ;; shutil_rmtree tempdir) w1 = shutil_rmtree d w1).
  { intros w1 Hh. unfold bind, self_tempdir. rewrite Hh, Hinst. done. }
  unfold _terminate. rewrite (bind_Ok_eq _ _ _ _ _ Hself).
  destruct olib as [lib|].
  2:{ unfold bind at 1. unfold ret at 1. by apply Hrm. }
  destruct (w_modules w !! _handle lib) as [m|] eqn:Hm.
  2:{ apply bind_Raise_eq. apply bind_Raise_eq. unfold getattr_func. by rewrite Hm. }
  destruct (nl_sym (m_lib m) "espeak_Terminate") as [code|] eqn:Hsym.
  2:{ apply bind_Raise_eq. apply bind_Raise_eq. unfold getattr_func. by rewrite Hm, Hsym. }
  pose proof (call_noargs_c_int _ _ _ _ _ Hm Hsym) as Hcall.
  destruct (code (m_state m) []) as [st [raw stores|e]] eqn:Hcode; wsimpl.
  - erewrite bind_Ok_eq.
    2:{ erewrite bind_Ok_eq; [|eapply getattr_func_Ok; eauto].
        erewrite bind_Ok_eq; [|exact Hcall]. reflexivity. }
    by apply Hrm.
  - apply bind_Raise_eq.
    erewrite bind_Ok_eq; [|eapply getattr_func_Ok; eauto].
    by apply bind_Raise_eq.
Qed.

Lemma shutil_rmtree_inv (d : path) (w w1 : W) (r : result unit) :
  shutil_rmtree d w = (w1, r) →
  (r = Ok () ∧ w_fs w !! d = Some Dir ∧ w1 = set_fs (rmtree_fs d) w)
  ∨ (∃ k, r = Raise (OSError k) ∧ w1 = w ∧ w_fs w !! d ≠ Some Dir).
Proof.
  unfold shutil_rmtree. intros H.
  destruct (w_fs w !! d) as [[| |]|]; injection H as <- <-; eauto 10.
Qed.

(** A teardown that succeeds has found the directory and removed it with
    all below it; the instance's module, if any, is still mapped and runs
    the same code. *)
Lemma terminate_Ok_inv (self : nat) (w w1 : W) (inst : Instance) (d : path) :
  w_heap w !! self = Some inst →
  _tempdir inst = Some d →
  _terminate self w = (w1, Ok ()) →
  w_fs w !! d = Some Dir
  ∧ w_fs w1 = rmtree_fs d (w_fs w)
  ∧ w_heap w1 = w_heap w
  ∧ ∀ lib, _library inst = Some lib →
      ∃ m code,
        w_modules w !! _handle lib = Some m
        ∧ nl_sym (m_lib m) "espeak_Terminate" = Some code
        ∧ w_modules w1 !! _handle lib
          = Some (mkModule (l_name m) (l_real m) (m_lib m) (code (m_state m) []).1)
        ∧ w_trace w1 = w_trace w ++
            [EvCall (_handle lib) "espeak_Terminate" [] (code (m_state m) []).2].
Proof.
  intros Hinst Hd H. rewrite (terminate_unfold self w inst d Hinst Hd) in H.
  destruct (_library inst) as [lib|].
  2:{ apply shutil_rmtree_inv in H as [(_ & Hfs & ->)|(k & ? & _)]; [|done].
      wsimpl. by repeat split. }
  destruct (w_modules w !! _handle lib) as [m|] eqn:Hm; [|done].
  destruct (nl_sym (m_lib m) "espeak_Terminate") as [code|] eqn:Hsym; [|done].
  destruct (code (m_state m) []) as [st [raw stores|e]] eqn:Hcode; wsimpl; [|done].
  apply shutil_rmtree_inv in H as [(_ & Hfs & ->)|(k & ? & _)]; [|done].
  unfold after_call in *. wsimpl. repeat (split; [done|]).
  intros lib' [= <-]. exists m, code. rewrite Hcode. wsimpl.
  split; [done|]. split; [done|]. split; [|done].
  apply list_lookup_insert_eq. by eapply lookup_lt_Some.
Qed.


(** X2. [_library_path] is assigned by the last statement of the
    constructor: on the object of a construction that raised, whatever the
    reason, [library_path] raises [AttributeError]. *)
Theorem library_path_unset_when_construction_fails (library : string) (w w' : W) (e : exn) :
  __init__ E library w = (w', Raise e) →
  library_path (length (w_heap w)) w' = (w', Raise (AttributeError "_library_path")).
Proof.
  intros H.
  assert (Hheap : ∃ olib od, w_heap w' = w_heap w ++ [mkInstance olib od None]).
  { apply init_prefix_inv in H as [(e' & rest & _ & ->)|(n & rest & _ & _ & H)];
      [wsimpl; eauto|].
    apply init_body_inv in H as [(e' & _ & Hs)|(wE & lp & wF & lib & wG & _ & _ & _ & Hs & H)].
    - destruct Hs as (Hh & _). wsimpl. rewrite Hh. eauto.
    - destruct Hs as (Hh & _). wsimpl.
      eapply (init_tail_inv _ _ _ _ _
                (mkInstance (Some lib) (Some (gettempdir E ++ [n])) None) lib) in H;
        [| |done].
      2:{ wsimpl. rewrite Hh, alter_last. apply lookup_last. }
      wsimpl. rewrite Hh, alter_last in H.
      destruct H as [(-> & _)|(m & code & _ & _ & _ & _ & _ & _ & _ & _ & Hres)].
      + wsimpl. eauto.
      + destruct (code (m_state m) Initialize_args).2 as [raw stores|e'].
        * destruct (wrap_int32 raw <=? 0)%Z; destruct Hres as [Hr ->]; [eauto|done].
        * destruct Hres as [_ ->]. eauto. }
  destruct Hheap as (olib & od & Hheap).
  unfold library_path. rewrite Hheap, lookup_last. done.
Qed.

(** X3. Whatever its outcome, a construction in a well-formed world leaves
    every entry that was on disk as it was, and adds at most two: the new
    temporary directory and, in it, one regular file with the bytes and the
    name of the resolved library. *)
Theorem construction_touches_only_its_tempdir (library : string) (w w' : W) (r : result nat) :
  wf_world w →
  __init__ E library w = (w', r) →
  (∀ p x, w_fs w !! p = Some x → w_fs w' !! p = Some x)
  ∧ (w_fs w' = w_fs w
     ∨ ∃ d, w_fs w !! d = None
          ∧ (w_fs w' = <[d := Dir]> (w_fs w)
             ∨ ∃ (lp : path) (b : string),
                 w_fs w !! lp = Some (File b)
                 ∧ w_fs w' = <[d ++ [path_name lp] := File b]> (<[d := Dir]> (w_fs w)))).
Proof.
  intros Hwf H. pose proof Hwf as Hwf0. apply wf_world_spec in Hwf0 as [Hclosed _].
  apply init_disk_inv in H as [[Hfs _]|(n & olib & olp & Hd & _ & Hfs)]; [| |done].
  { rewrite Hfs. split; [done|by left]. }
  set (d := gettempdir E ++ [n]) in *.
  assert (HmonoD : ∀ p x, w_fs w !! p = Some x → <[d := Dir]> (w_fs w) !! p = Some x).
  { intros p x Hp. rewrite lookup_insert_ne; [done|]. intros <-. congruence. }
  split.
  - destruct Hfs as [->|(lp & b & _ & _ & ->)]; [done|].
    intros p x Hp. rewrite lookup_insert_ne; [by apply HmonoD|].
    intros <-. apply Hclosed in Hp. congruence.
  - right. exists d. split; [done|].
    destruct Hfs as [->|(lp & b & Hb & _ & ->)]; [by left|]. right. eauto.
Qed.

(** X4. Construction followed by a teardown that succeeds restores the
    disk: whatever the outcome of the construction, once [_terminate] has
    returned on its object the file system is what it was before the
    constructor ran. *)
Theorem teardown_undoes_construction_on_disk (library : string) (w w' w'' : W)
    (r : result nat) :
  wf_world w →
  __init__ E library w = (w', r) →
  _terminate (length (w_heap w)) w' = (w'', Ok ()) →
  w_fs w'' = w_fs w.
Proof.
  intros Hwf H Ht. pose proof Hwf as Hwf0. apply wf_world_spec in Hwf0 as [Hclosed _].
  apply init_disk_inv in H as [[_ Hheap]|(n & olib & olp & Hd & Hheap & Hfs)]; [| |done].
  { exfalso. unfold _terminate, bind, self_library, self_tempdir in Ht.
    rewrite Hheap, lookup_last in Ht. cbn [_library] in Ht. unfold ret in Ht.
    rewrite Hheap, lookup_last in Ht. done. }
  eapply terminate_Ok_inv in Ht as (_ & -> & _); [|by rewrite Hheap, lookup_last|done].
  destruct Hfs as [->|(lp & b & _ & _ & ->)].
  - rewrite rmtree_fs_insert_below by done. by apply rmtree_fs_absent.
  - rewrite rmtree_fs_insert_below by (by apply prefix_app_r).
    rewrite rmtree_fs_insert_below by done. by apply rmtree_fs_absent.
Qed.

(** X5. [_terminate] is not idempotent.  After a teardown that succeeded,
    a second one calls [espeak_Terminate] again when the instance holds a
    library, and then, unless that call itself raises, fails with
    [FileNotFoundError] because the directory is gone; the disk is left as
    the first teardown left it. *)
Theorem second_teardown_fails (self : nat) (w w1 : W) (inst : Instance) (d : path) :
  w_heap w !! self = Some inst →
  _tempdir inst = Some d →
  _terminate self w = (w1, Ok ()) →
  ∃ e, (_terminate self w1).2 = Raise e
     ∧ w_fs (_terminate self w1).1 = w_fs w1
     ∧ match _library inst with
       | None => e = OSError FileNotFoundError ∧ w_trace (_terminate self w1).1 = w_trace w1
       | Some lib =>
           ∃ res,
             w_trace (_terminate self w1).1 =
               w_trace w1 ++ [EvCall (_handle lib) "espeak_Terminate" [] res]
             ∧ match res with
               | NRaise e' => e = e'
               | NRet _ _ => e = OSError FileNotFoundError
               end
       end.
Proof.
  intros Hinst Hd H.
  eapply terminate_Ok_inv in H as (Hdir & Hfs & Hheap & Hlib); [|done|done].
  assert (Hgone : w_fs w1 !! d = None).
  { rewrite Hfs. by apply rmtree_fs_gone. }
  rewrite (terminate_unfold self w1 inst d) by (by rewrite ?Hheap).
  destruct (_library inst) as [lib|].
  2:{ unfold shutil_rmtree. rewrite Hgone. eauto. }
  destruct (Hlib lib eq_refl) as (m & code & _ & Hsym & Hm1 & _).
  rewrite Hm1. cbn [m_lib m_state]. rewrite Hsym.
  set (st := (code (m_state m) []).1).
  destruct (code st []) as [st' [raw stores|e]] eqn:Hcode; wsimpl.
  - unfold shutil_rmtree, after_call. wsimpl. rewrite Hgone. wsimpl.
    exists (OSError FileNotFoundError). split; [done|]. split; [done|].
    eexists. split; [done|]. done.
  - unfold after_call. wsimpl. exists e. split; [done|]. split; [done|].
    eexists. split; [done|]. done.
Qed.

(** *** The low-level methods, one by one *)

Lemma method_prefix_eq {A} (self : nat) (sym : string) (k : FuncPtr → M A) (w : W)
    (inst : Instance) (lib : CDLL) (m : Module nstate)
    (code : nstate → list cval → nstate * nresult) :
  w_heap w !! self = Some inst →
  _library inst = Some lib →
  w_modules w !! _handle lib = Some m →
  nl_sym (m_lib m) sym = Some code →
  (lib0 <- self_library self ;; f <- getattr_func lib0 sym ;; k f) w
  = k (mkFuncPtr (_handle lib) sym) w.
Proof.
  intros Hinst Hlib Hm Hsym. unfold bind, self_library, getattr_func.
  by rewrite Hinst, Hlib, Hm, Hsym.
Qed.

Lemma call_eq (h : nat) (sym : string) (argtypes : list ctype) (restype : ctype)
    (args : list pyval) (w : W) (m : Module nstate)
    (code : nstate → list cval → nstate * nresult) (cargs : list cval) :
  w_modules w !! h = Some m →
  nl_sym (m_lib m) sym = Some code →
  (length argtypes ≤ length args)%nat →
  convert_args (w_cmem w) argtypes args 1 = Ok cargs →
  call (mkFuncPtr h sym) argtypes restype args w =
  match (code (m_state m) cargs).2 with
  | NRaise e => (after_call h sym cargs m (code (m_state m) cargs) w, Raise e)
  | NRet raw stores =>
      convert_result restype h raw
        (set_cmem (apply_stores stores) (w_brk w)
           (after_call h sym cargs m (code (m_state m) cargs) w))
  end.
Proof.
  intros Hm Hsym Hlen Hconv. unfold call, after_call. wsimpl.
  rewrite (proj2 (Nat.ltb_ge _ _) Hlen), Hconv, Hm, Hsym.
  by destruct (code (m_state m) cargs) as [st [raw stores|e]].
Qed.

Lemma call_rejected (h : nat) (sym : string) (argtypes : list ctype) (restype : ctype)
    (args : list pyval) (w : W) (e : exn) :
  (length argtypes ≤ length args)%nat →
  convert_args (w_cmem w) argtypes args 1 = Raise e →
  call (mkFuncPtr h sym) argtypes restype args w = (w, Raise e).
Proof.
  intros Hlen Hconv. unfold call.
  by rewrite (proj2 (Nat.ltb_ge _ _) Hlen), Hconv.
Qed.

Lemma cell_insert_ne (mem : gmap Z Z) (a b v : Z) :
  a ≠ b → cell (<[a := v]> mem) b = cell mem b.
Proof. intros Hne. unfold cell. by rewrite lookup_insert_ne. Qed.

Lemma cell_insert_eq (mem : gmap Z Z) (a v : Z) : cell (<[a := v]> mem) a = v.
Proof. unfold cell. by rewrite lookup_insert_eq. Qed.

(** X6. [info] makes one call of [espeak_Info], whose only argument is
    the address of a new [c_char_p] that holds NULL, and returns the pair of
    the version, read as a string where the returned pointer leads, and the
    data path, read where the library has made the [c_char_p] point; either
    is [None] when the pointer is null, so a library that stores nothing
    gives [None] for the data path. *)
Theorem info_returns_version_and_data_path (self : nat) (w : W) (inst : Instance)
    (lib : CDLL) (m : Module nstate) (code : nstate → list cval → nstate * nresult)
    (st : nstate) (raw : Z) (stores : list (Z * Z)) :
  w_heap w !! self = Some inst →
  _library inst = Some lib →
  w_modules w !! _handle lib = Some m →
  nl_sym (m_lib m) "espeak_Info" = Some code →
  code (m_state m) [CPtr (w_brk w)] = (st, NRet raw stores) →
  let p := cell (apply_stores stores (<[w_brk w := 0%Z]> (w_cmem w))) (w_brk w) in
  ∃ w' version value,
    info self w = (w', Ok (PyTuple version value))
    ∧ (if decide (raw = 0%Z) then version = PyNone
       else ∃ a, version = PyBytes a (nl_string (m_lib m) st raw))
    ∧ (if decide (p = 0%Z) then value = PyNone
       else ∃ a, value = PyBytes a (nl_string (m_lib m) st p))
    ∧ w_trace w' =
        w_trace w ++ [EvCall (_handle lib) "espeak_Info" [CPtr (w_brk w)] (NRet raw stores)].
Proof.
  intros Hinst Hlib Hm Hsym Hcode p.
  unfold info. rewrite (method_prefix_eq _ _ _ _ _ _ _ _ Hinst Hlib Hm Hsym).
  unfold bind at 1. unfold alloc_cell at 1. cbn [fp_handle].
  unfold bind at 1.
  rewrite (call_eq _ _ _ _ _ _ m code [CPtr (w_brk w)]); [|done|done|simpl; lia|done].
  wsimpl. rewrite Hcode. cbn [snd fst convert_result].
  unfold after_call. wsimpl.
  assert (Hlk : <[_handle lib := mkModule (l_name m) (l_real m) (m_lib m) st]> (w_modules w)
                !! _handle lib = Some (mkModule (l_name m) (l_real m) (m_lib m) st)).
  { apply list_lookup_insert_eq. by eapply lookup_lt_Some. }
  unfold bytes_at at 1.
  destruct (decide (raw = 0%Z)) as [Hraw|Hraw].
  - unfold ret at 1. unfold bind at 1. unfold c_char_p_value at 1. wsimpl.
    fold p. unfold bytes_at.
    destruct (decide (p = 0%Z)) as [Hp|Hp].
    + unfold ret, bind. wsimpl. eexists _, PyNone, PyNone. by repeat split.
    + unfold bind, alloc_cell, ret. wsimpl. rewrite Hlk. wsimpl.
      eexists _, PyNone, _. split; [done|]. split; [done|]. split; [eauto|done].
  - unfold bind at 2. unfold alloc_cell at 1. unfold ret at 1. wsimpl.
    rewrite Hlk. wsimpl.
    unfold bind at 1. unfold c_char_p_value at 1. wsimpl.
    rewrite cell_insert_ne by lia. fold p. unfold bytes_at.
    destruct (decide (p = 0%Z)) as [Hp|Hp].
    + unfold ret, bind. wsimpl. eexists _, _, PyNone. split; [done|].
      split; [eauto|]. by split.
    + unfold bind, alloc_cell, ret. wsimpl. rewrite Hlk. wsimpl.
      eexists _, _, _. split; [done|]. split; [eauto|]. split; [eauto|done].
Qed.

(** X7. [list_voices(None)] passes a null pointer to [espeak_ListVoices]
    and returns a pointer object that holds whatever address the library
    returned: a NULL result is handed to the caller as a null pointer, it is
    not an error and not [None]. *)
Theorem list_voices_of_None (self : nat) (w : W) (inst : Instance)
    (lib : CDLL) (m : Module nstate) (code : nstate → list cval → nstate * nresult)
    (st : nstate) (raw : Z) (stores : list (Z * Z)) :
  w_heap w !! self = Some inst →
  _library inst = Some lib →
  w_modules w !! _handle lib = Some m →
  nl_sym (m_lib m) "espeak_ListVoices" = Some code →
  code (m_state m) [CPtr 0] = (st, NRet raw stores) →
  (list_voices self PyNone w).2
  = Ok (PyCData (POINTER (POINTER EspeakVoice_Struct)) (w_brk w))
  ∧ cell (w_cmem (list_voices self PyNone w).1) (w_brk w) = raw
  ∧ w_trace (list_voices self PyNone w).1 =
      w_trace w ++ [EvCall (_handle lib) "espeak_ListVoices" [CPtr 0] (NRet raw stores)].
Proof.
  intros Hinst Hlib Hm Hsym Hcode.
  unfold list_voices. rewrite (method_prefix_eq _ _ _ _ _ _ _ _ Hinst Hlib Hm Hsym).
  rewrite (call_eq _ _ _ _ _ _ m code [CPtr 0]); [|done|done|simpl; lia|done].
  rewrite Hcode. cbn [snd fst convert_result].
  unfold after_call, bind, alloc_cell, ret. wsimpl.
  split; [done|]. split; [apply cell_insert_eq|done].
Qed.

(** X8. [argtypes] of [espeak_ListVoices] is one pointer to a voice
    structure: a name given as [bytes], as [str] or as an integer is turned
    down with [ArgumentError] for argument 1, and the library is not
    called. *)
Theorem list_voices_rejects_names_that_are_not_pointers (self : nat) (name : pyval) (w : W)
    (inst : Instance) (lib : CDLL) (m : Module nstate)
    (code : nstate → list cval → nstate * nresult) :
  w_heap w !! self = Some inst →
  _library inst = Some lib →
  w_modules w !! _handle lib = Some m →
  nl_sym (m_lib m) "espeak_ListVoices" = Some code →
  (∃ a s, name = PyBytes a s ∨ name = PyStr a s) ∨ (∃ z, name = PyInt z) →
  list_voices self name w = (w, Raise (ArgumentError 1)).
Proof.
  intros Hinst Hlib Hm Hsym Hname.
  unfold list_voices. rewrite (method_prefix_eq _ _ _ _ _ _ _ _ Hinst Hlib Hm Hsym).
  apply call_rejected; [simpl; lia|].
  destruct Hname as [(a & s & [->| ->])|(z & ->)]; reflexivity.
Qed.

(** X9. [set_voice_by_name] with a [bytes] name passes the address of its
    buffer to [espeak_SetVoiceByName] and returns the status the library
    answers, read as a signed 32-bit integer. *)
Theorem set_voice_by_name_returns_the_status (self : nat) (a : Z) (s : string) (w : W)
    (inst : Instance) (lib : CDLL) (m : Module nstate)
    (code : nstate → list cval → nstate * nresult)
    (st : nstate) (raw : Z) (stores : list (Z * Z)) :
  w_heap w !! self = Some inst →
  _library inst = Some lib →
  w_modules w !! _handle lib = Some m →
  nl_sym (m_lib m) "espeak_SetVoiceByName" = Some code →
  code (m_state m) [CPtr a] = (st, NRet raw stores) →
  (set_voice_by_name self (PyBytes a s) w).2 = Ok (PyInt (wrap_int32 raw))
  ∧ (- 2 ^ 31 ≤ wrap_int32 raw < 2 ^ 31)%Z
  ∧ w_modules (set_voice_by_name self (PyBytes a s) w).1 !! _handle lib
    = Some (mkModule (l_name m) (l_real m) (m_lib m) st)
  ∧ w_trace (set_voice_by_name self (PyBytes a s) w).1 =
      w_trace w ++ [EvCall (_handle lib) "espeak_SetVoiceByName" [CPtr a] (NRet raw stores)].
Proof.
  intros Hinst Hlib Hm Hsym Hcode.
  unfold set_voice_by_name. rewrite (method_prefix_eq _ _ _ _ _ _ _ _ Hinst Hlib Hm Hsym).
  rewrite (call_eq _ _ _ _ _ _ m code [CPtr a]); [|done|done|simpl; lia|done].
  rewrite Hcode. cbn [snd fst convert_result].
  unfold after_call, ret. wsimpl.
  split; [done|]. split.
  { unfold wrap_int32. pose proof (Z.mod_pos_bound (raw + 2 ^ 31) (2 ^ 32)). lia. }
  split; [|done]. apply list_lookup_insert_eq. by eapply lookup_lt_Some.
Qed.

(** X10. [argtypes] of [espeak_SetVoiceByName] is [c_char_p]: a name given
    as [str] or as an integer is turned down with [ArgumentError] for
    argument 1, and the library is not called. *)
Theorem set_voice_by_name_rejects_str (self : nat) (name : pyval) (w : W)
    (inst : Instance) (lib : CDLL) (m : Module nstate)
    (code : nstate → list cval → nstate * nresult) :
  w_heap w !! self = Some inst →
  _library inst = Some lib →
  w_modules w !! _handle lib = Some m →
  nl_sym (m_lib m) "espeak_SetVoiceByName" = Some code →
  (∃ a s, name = PyStr a s) ∨ (∃ z, name = PyInt z) →
  set_voice_by_name self name w = (w, Raise (ArgumentError 1)).
Proof.
  intros Hinst Hlib Hm Hsym Hname.
  unfold set_voice_by_name. rewrite (method_prefix_eq _ _ _ _ _ _ _ _ Hinst Hlib Hm Hsym).
  apply call_rejected; [simpl; lia|].
  destruct Hname as [(a & s & ->)|(z & ->)]; reflexivity.
Qed.

(** X11. [text_to_phonemes], given a pointer object to a [c_char_p] and two
    integers, passes the address the pointer holds and the integers reduced
    to 32 bits; it returns the string at the address the library answers,
    or [None] for NULL; and what the library stores through the pointer, the
    advanced text position, is in the caller's cells afterwards. *)
Theorem text_to_phonemes_result (self : nat) (q tm pm : Z) (w : W) (inst : Instance)
    (lib : CDLL) (m : Module nstate) (code : nstate → list cval → nstate * nresult)
    (st : nstate) (raw : Z) (stores : list (Z * Z)) :
  w_heap w !! self = Some inst →
  _library inst = Some lib →
  w_modules w !! _handle lib = Some m →
  nl_sym (m_lib m) "espeak_TextToPhonemes" = Some code →
  code (m_state m) [CPtr (cell (w_cmem w) q); CInt (wrap_int32 tm); CInt (wrap_int32 pm)]
  = (st, NRet raw stores) →
  let out := text_to_phonemes self (PyCData (POINTER c_char_p) q) (PyInt tm) (PyInt pm) w in
  (if decide (raw = 0%Z) then out.2 = Ok PyNone
   else ∃ a, out.2 = Ok (PyBytes a (nl_string (m_lib m) st raw)))
  ∧ (∀ x, x ≠ w_brk w → cell (w_cmem out.1) x = cell (apply_stores stores (w_cmem w)) x)
  ∧ w_trace out.1 =
      w_trace w ++
      [EvCall (_handle lib) "espeak_TextToPhonemes"
         [CPtr (cell (w_cmem w) q); CInt (wrap_int32 tm); CInt (wrap_int32 pm)]
         (NRet raw stores)].
Proof.
  intros Hinst Hlib Hm Hsym Hcode out. unfold out. clear out.
  unfold text_to_phonemes. rewrite (method_prefix_eq _ _ _ _ _ _ _ _ Hinst Hlib Hm Hsym).
  rewrite (call_eq _ _ _ _ _ _ m code
             [CPtr (cell (w_cmem w) q); CInt (wrap_int32 tm); CInt (wrap_int32 pm)]);
    [|done|done|simpl; lia|].
  2:{ cbn [convert_args from_param tail conv_simple].
      rewrite decide_False by done. rewrite decide_True by done. done. }
  rewrite Hcode. cbn [snd fst convert_result].
  unfold after_call, bytes_at. wsimpl.
  destruct (decide (raw = 0%Z)) as [Hraw|Hraw].
  - unfold ret. wsimpl. by repeat split.
  - unfold bind, alloc_cell, ret. wsimpl.
    rewrite list_lookup_insert_eq by (by eapply lookup_lt_Some). wsimpl.
    split; [eauto|]. split; [|done].
    intros x Hx. by apply cell_insert_ne.
Qed.

(** X12. The text of [text_to_phonemes] has to come as a pointer to a
    [c_char_p]: [bytes] or [str] in its place are turned down with
    [ArgumentError] for argument 1, and a mode that is [None] with
    [ArgumentError] for its own position; the library is not called. *)
Theorem text_to_phonemes_rejects_plain_text (self : nat) (w : W)
    (inst : Instance) (lib : CDLL) (m : Module nstate)
    (code : nstate → list cval → nstate * nresult) :
  w_heap w !! self = Some inst →
  _library inst = Some lib →
  w_modules w !! _handle lib = Some m →
  nl_sym (m_lib m) "espeak_TextToPhonemes" = Some code →
  (∀ a s tm pm,
     text_to_phonemes self (PyBytes a s) tm pm w = (w, Raise (ArgumentError 1))
     ∧ text_to_phonemes self (PyStr a s) tm pm w = (w, Raise (ArgumentError 1)))
  ∧ (∀ q pm,
       text_to_phonemes self (PyCData (POINTER c_char_p) q) PyNone pm w
       = (w, Raise (ArgumentError 2)))
  ∧ (∀ q tm,
       text_to_phonemes self (PyCData (POINTER c_char_p) q) (PyInt tm) PyNone w
       = (w, Raise (ArgumentError 3))).
Proof.
  intros Hinst Hlib Hm Hsym.
  unfold text_to_phonemes. split; [|split].
  - intros a s tm pm.
    split; rewrite (method_prefix_eq _ _ _ _ _ _ _ _ Hinst Hlib Hm Hsym);
      (apply call_rejected; [simpl; lia|reflexivity]).
  - intros q pm. rewrite (method_prefix_eq _ _ _ _ _ _ _ _ Hinst Hlib Hm Hsym).
    apply call_rejected; [simpl; lia|].
    cbn [convert_args from_param tail]. rewrite decide_False by done.
    rewrite decide_True by done. done.
  - intros q tm. rewrite (method_prefix_eq _ _ _ _ _ _ _ _ Hinst Hlib Hm Hsym).
    apply call_rejected; [simpl; lia|].
    cbn [convert_args from_param tail conv_simple]. rewrite decide_False by done.
    rewrite decide_True by done. done.
Qed.

(** X13. [set_phoneme_trace] has no [return]: with an integer mode and a
    file pointer given as an address it calls [espeak_SetPhonemeTrace] once
    with both and returns [None], whatever status the library answers. *)
Theorem set_phoneme_trace_returns_None (self : nat) (z fp : Z) (w : W) (inst : Instance)
    (lib : CDLL) (m : Module nstate) (code : nstate → list cval → nstate * nresult)
    (st : nstate) (raw : Z) (stores : list (Z * Z)) :
  w_heap w !! self = Some inst →
  _library inst = Some lib →
  w_modules w !! _handle lib = Some m →
  nl_sym (m_lib m) "espeak_SetPhonemeTrace" = Some code →
  (0 ≤ fp < 2 ^ 64)%Z →
  code (m_state m) [CInt (wrap_int32 z); CPtr fp] = (st, NRet raw stores) →
  (set_phoneme_trace self (PyInt z) (PyInt fp) w).2 = Ok PyNone
  ∧ w_trace (set_phoneme_trace self (PyInt z) (PyInt fp) w).1 =
      w_trace w ++
      [EvCall (_handle lib) "espeak_SetPhonemeTrace" [CInt (wrap_int32 z); CPtr fp]
         (NRet raw stores)].
Proof.
  intros Hinst Hlib Hm Hsym Hfp Hcode.
  unfold set_phoneme_trace. rewrite (method_prefix_eq _ _ _ _ _ _ _ _ Hinst Hlib Hm Hsym).
  unfold bind.
  rewrite (call_eq _ _ _ _ _ _ m code [CInt (wrap_int32 z); CPtr fp]);
    [|done|done|simpl; lia|].
  2:{ cbn [convert_args from_param tail conv_simple]. unfold conv_pointer_int.
      unfold wrap_uint64. by rewrite Z.mod_small by lia. }
  rewrite Hcode. cbn [snd fst convert_result].
  unfold after_call, ret. wsimpl. done.
Qed.

(** X14. What a low-level method can touch.  Called on an instance that
    holds a library, each of the seven methods leaves the disk, the
    instances, the finalizer registry and the error stream alone, maps and
    unmaps nothing, changes no module but the instance's own, which keeps
    its code, and makes at most one native call: of its own entry point, in
    the instance's own module. *)
Theorem low_level_call_footprint (self : nat) (c : low_level_call) (w w' : W)
    (r : result pyval) (inst : Instance) (lib : CDLL) :
  w_heap w !! self = Some inst →
  _library inst = Some lib →
  run_method self c w = (w', r) →
  same_os w w'
  ∧ length (w_modules w') = length (w_modules w)
  ∧ (∀ h, h ≠ _handle lib → w_modules w' !! h = w_modules w !! h)
  ∧ (∀ m, w_modules w !! _handle lib = Some m →
       ∃ st, w_modules w' !! _handle lib
             = Some (mkModule (l_name m) (l_real m) (m_lib m) st))
  ∧ (w_trace w' = w_trace w
     ∨ ∃ cargs res,
         w_trace w' = w_trace w ++ [EvCall (_handle lib) (entry_point c) cargs res]).
Proof.
  intros Hinst Hlib H. eapply method_forwarded in H; [|done|done].
  destruct H as [e _ (Hos & Hmod & Htr) _|m code cargs Hm _ Hmod Htr Hos _ _].
  - split; [done|]. rewrite Hmod. split; [done|]. split; [done|].
    split; [|by left]. intros [] Hm. eauto.
  - split; [done|]. rewrite Hmod. split; [apply length_insert|].
    split; [intros h Hh; by apply list_lookup_insert_ne|].
    split; [|right; eauto].
    intros m' Hm'. rewrite Hm in Hm'. injection Hm' as <-. eexists.
    apply list_lookup_insert_eq. by eapply lookup_lt_Some.
Qed.

(** X15. A method whose entry point cannot be looked up, because the
    instance holds no library ([_library] is still [None]) or because the
    library does not export it, raises [AttributeError] for that entry
    point and changes nothing: no cell is allocated, no call is made. *)
Theorem methods_without_entry_point_raise (self : nat) (c : low_level_call) (w : W)
    (inst : Instance) :
  w_heap w !! self = Some inst →
  (_library inst = None
   ∨ ∃ lib m, _library inst = Some lib
            ∧ w_modules w !! _handle lib = Some m
            ∧ nl_sym (m_lib m) (entry_point c) = None) →
  run_method self c w = (w, Raise (AttributeError (entry_point c))).
Proof.
  intros Hinst Hno.
  assert (Hpre : ∀ (k : FuncPtr → M pyval),
            (lib0 <- self_library self ;; f <- getattr_func lib0 (entry_point c) ;; k f) w
            = (w, Raise (AttributeError (entry_point c)))).
  { intros k. unfold bind, self_library, getattr_func. rewrite Hinst.
    destruct Hno as [->|(lib & m & -> & -> & ->)]; done. }
  destruct c; cbn [run_method entry_point] in *; apply Hpre.
Qed.

(** *** What teardown leaves of the methods *)












(** *** What the constructor raises *)





Lemma resolve_loop_posix (fuel : nat) (fs : gmap path node) (p : path) :
  sys_platform E ≠ win32 →
  resolve_loop E fuel fs p =
  match follow fuel fs p with
  | Some q => Ok q
  | None => Raise (RuntimeError symlink_loop)
  end.
Proof.
  intros Hp. revert p. induction fuel as [|n IH]; intros p; simpl.
  - destruct (sys_platform E); try done; by destruct (fs !! p) as [[]|].
  - destruct (sys_platform E); try done; destruct (fs !! p) as [[]|]; try done; apply IH.
Qed.




Lemma shared_library_path_posix_Ok (lib : CDLL) (w : W) (lp : path) :
  sys_platform E ≠ win32 →
  _shared_library_path E lib w = (w, Ok lp) →
  ∃ m, w_modules w !! _handle lib = Some m ∧ realpath (w_fs w) (l_name m) = Some lp.
Proof.
  intros Hp H. unfold _shared_library_path in H.
  assert (Hb : try_except (p <- DLInfo_path lib ;; resolve E p) (λ _, true)
                 (λ _, raise (RuntimeError failed_to_retrieve_path)) w = (w, Ok lp)).
  { by destruct (sys_platform E). }
  unfold try_except in Hb.
  destruct (bind _ _ w) as [w2 [lp'|e']] eqn:Hbind; [|done].
  injection Hb as -> ->.
  apply bind_Ok_inv in Hbind as (w3 & p & Hd & Hr).
  unfold DLInfo_path in Hd. destruct (w_modules w !! _handle lib) as [m|]; [|done].
  injection Hd as <- <-. exists m. split; [done|].
  unfold resolve in Hr. injection Hr as Hr.
  rewrite resolve_loop_posix in Hr by done. unfold realpath.
  by destruct (follow MAXSYMLINKS (w_fs w) (l_name m)); simplify_eq.
Qed.

(** Where the constructor succeeds, the path it records is the one the
    [try] block gave, in the world in which only the temporary directory
    had been made. *)
Lemma init_success_load (library : string) (w w' : W) (self : nat) :
  __init__ E library w = (w', Ok self) →
  ∃ (n : string) (lp : path) (olib : option CDLL) (wD wE : W),
    w_heap w' !! length (w_heap w)
      = Some (mkInstance olib (Some (gettempdir E ++ [n])) (Some lp))
    ∧ w_fs wD = <[gettempdir E ++ [n] := Dir]> (w_fs w)
    ∧ w_modules wD = w_modules w
    ∧ load_original E library wD = (wE, Ok lp).
Proof.
  intros H.
  apply init_prefix_inv in H as [(e & rest & ? & _)|(n & rest & _ & _ & H)]; [done|].
  apply init_body_inv in H as [(e & ? & _)|
    (wE & lp & wF & lib & wG & Hlo & _ & _ & (Hheap & _) & H)]; [done|].
  cbn [w_heap] in Hheap.
  eapply (init_tail_inv _ _ _ _ _
            (mkInstance (Some lib) (Some (gettempdir E ++ [n])) None) lib) in H;
    [| |done].
  2:{ unfold set_heap. cbn [w_heap]. rewrite Hheap, alter_last. apply lookup_last. }
  destruct H as [(_ & ? & _)|(m & code & _ & _ & _ & _ & _ & _ & _ & _ & Hres)]; [done|].
  exists n, lp, (Some lib). eexists _, wE. split; [|split; [|split; [|exact Hlo]]]; [|done|done].
  destruct (code (m_state m) Initialize_args).2 as [raw stores|e]; [|by destruct Hres].
  destruct (wrap_int32 raw <=? 0)%Z; destruct Hres as [Hr Hh]; [done|].
  rewrite Hh. unfold set_heap. cbn [w_heap]. rewrite Hheap, !alter_last. apply lookup_last.
Qed.

(** X1: [library_path] on a constructed instance is the path of the
    library that was asked for by name.  It is what [_shared_library_path]
    gave for the handle that loading [library] by name gave, in the world
    in which only the temporary directory had been made: on POSIX the
    [realpath] of the name the loader has recorded for that handle, on
    Windows the resolution of [library] itself.  It names a regular file
    outside the instance's temporary directory, and it is not the file the
    instance's own module is mapped from. *)
Theorem library_path_is_the_original (library : string) (w w' : W) (self : nat) :
  wf_world w →
  __init__ E library w = (w', Ok self) →
  ∃ (lp d : path) (b : string) (lib : CDLL) (m : Module nstate),
    library_path self w' = (w', Ok lp)
    ∧ w_heap w' !! self = Some (mkInstance (Some lib) (Some d) (Some lp))
    ∧ w_fs w' !! lp = Some (File b)
    ∧ ¬ d `prefix_of` lp
    ∧ w_modules w' !! _handle lib = Some m
    ∧ l_real m ≠ lp
    ∧ ∃ (wD wL : W) (espeak : CDLL),
        w_fs wD = <[d := Dir]> (w_fs w)
        ∧ w_modules wD = w_modules w
        ∧ LoadLibrary E (ByName library) wD = (wL, Ok espeak)
        ∧ _name espeak = ByName library
        ∧ w_fs wL = w_fs wD
        ∧ _shared_library_path E espeak wL = (wL, Ok lp)
        ∧ if sys_platform E is win32
          then resolve_loop E MAXSYMLINKS (w_fs wD) (path_of_string E library) = Ok lp
          else ∃ m0, w_modules wL !! _handle espeak = Some m0
                     ∧ realpath (w_fs wD) (l_name m0) = Some lp.
Proof.
  intros Hwf H. pose proof Hwf as Hwf0. apply wf_world_spec in Hwf0 as [Hclosed _].
  pose proof (init_success_load _ _ _ _ H) as (n' & lp' & olib & wD & wE & Hat & HfsD & HmD & Hlo).
  apply init_success_inv in H
    as (n & lp & b & nlib & mods0 & code & -> & Htmp & Hd & Hdst & Hb & Hi & Hsym & Hmods
        & Hfs & Hmod & Hheap & Hreg & Htr & Hwf'); [|done].
  rewrite Hheap, lookup_last in Hat. injection Hat as _ Hn <-.
  apply app_inj_tail in Hn as [_ <-].
  assert (Hout : ¬ (gettempdir E ++ [n]) `prefix_of` lp).
  { intros Hp. destruct (fs_closed_prefix (w_fs w) _ lp Hclosed Hp) as [x Hx]; [by eexists|].
    congruence. }
  exists lp, (gettempdir E ++ [n]), b,
    (mkCDLL (length mods0) (ByPath (gettempdir E ++ [n] ++ [path_name lp]))),
    (mkModule (gettempdir E ++ [n] ++ [path_name lp]) (gettempdir E ++ [n] ++ [path_name lp])
       nlib (code (nl_init nlib) Initialize_args).1).
  unfold library_path. cbn [_handle l_real]. rewrite Hheap, Hmod, !lookup_last.
  split; [done|]. split; [done|].
  split. { rewrite Hfs, !lookup_insert_ne; [done| |]; intros Heq; congruence. }
  split; [done|]. split; [done|].
  split. { intros Heq. apply Hout. exists [path_name lp]. by rewrite <- (assoc_L (++)). }
  (* the [try] block *)
  unfold load_original, try_except in Hlo.
  destruct (bind (LoadLibrary E (ByName library)) (_shared_library_path E) wD)
    as [wE' [lp'|e]] eqn:Hbind.
  2:{ destruct (is_OSError e); [|done]. unfold raise in Hlo. done. }
  injection Hlo as -> ->.
  apply bind_Ok_inv in Hbind as (wL & espeak & HLL & Hslp).
  pose proof Hslp as Hslp0. apply shared_library_path_inv in Hslp0 as [-> _].
  assert (HfsL : w_fs wL = w_fs wD).
  { apply LoadLibrary_step in HLL as [->|(m & -> & _)]; done. }
  assert (Hname : _name espeak = ByName library).
  { apply LoadLibrary_inv in HLL as [(e & ? & _)|[(p & h & _ & _ & [= ->])|(h & _ & _ & [= ->])]];
      done. }
  exists wD, wL, espeak.
  split; [done|]. split; [done|]. split; [done|]. split; [done|]. split; [done|].
  split; [done|].
  destruct (sys_platform E) eqn:Hplat.
  1,2: rewrite <- HfsL; apply shared_library_path_posix_Ok; [by rewrite Hplat|done].
  rewrite shared_library_path_win32 in Hslp by done. rewrite Hname in Hslp.
  unfold resolve in Hslp. injection Hslp as Hslp. by rewrite <- HfsL.
Qed.

(** X17. On Linux and MacOS [_shared_library_path] changes nothing; what
    it returns is the real path of the name the loader has recorded for
    the handle, all symbolic links followed, and every failure on the way
    comes out as the [RuntimeError] "failed to retrieve the path", never as
    an [OSError]. *)
Theorem shared_library_path_on_posix (lib : CDLL) (w w1 : W) (r : result path) :
  sys_platform E ≠ win32 →
  _shared_library_path E lib w = (w1, r) →
  w1 = w
  ∧ match r with
    | Ok lp =>
        ∃ m, w_modules w !! _handle lib = Some m
           ∧ realpath (w_fs w) (l_name m) = Some lp
           ∧ ∀ t, w_fs w !! lp ≠ Some (Symlink t)
    | Raise e => PathResolutionError e ∧ ∀ k, e ≠ OSError k
    end.
Proof.
  intros Hp H. pose proof H as H0. apply shared_library_path_inv in H0 as [-> Hlink].
  split; [done|]. destruct r as [lp|e].
  - specialize (Hlink lp eq_refl).
    unfold _shared_library_path in H.
    assert (Hb : try_except (p <- DLInfo_path lib ;; resolve E p) (λ _, true)
                   (λ _, raise (RuntimeError failed_to_retrieve_path)) w = (w, Ok lp)).
    { by destruct (sys_platform E). }
    unfold try_except in Hb.
    destruct (bind _ _ w) as [w2 [lp'|e']] eqn:Hbind; [|done].
    injection Hb as -> ->.
    apply bind_Ok_inv in Hbind as (w3 & p & Hd & Hr).
    unfold DLInfo_path in Hd. destruct (w_modules w !! _handle lib) as [m|]; [|done].
    injection Hd as <- <-. exists m. split; [done|]. split; [|done].
    unfold resolve in Hr. injection Hr as Hr.
    rewrite resolve_loop_posix in Hr by done. unfold realpath.
    by destruct (follow MAXSYMLINKS (w_fs w) (l_name m)); simplify_eq.
  - apply shared_library_path_posix in H as ->; [|done]. split; [done|]. by intros k.
Qed.


End Proofs.

(** ** The toy machines *)

Lemma pair_snd {A B} (x : A * B) (b : B) : x.2 = b → x = (x.1, b).
Proof. destruct x. simpl. by intros ->. Qed.

Lemma wf_w0 : wf_world w0.
Proof. vm_compute. reflexivity. Qed.

(** C1 on the toy machine: two instances of the library in [/usr/lib]. *)
Lemma instances_are_isolated_witness :
  wf_world w0
  ∧ w_heap w0 = []
  ∧ run E_linux w0 w2
  ∧ w_heap w2 !! 0
    = Some (mkInstance (Some (mkCDLL 1 (ByPath ["tmp"; "tmpa"; "libespeak-ng.so.1.1.51"])))
              (Some ["tmp"; "tmpa"]) (Some ["usr"; "lib"; "libespeak-ng.so.1.1.51"]))
  ∧ w_heap w2 !! 1
    = Some (mkInstance (Some (mkCDLL 2 (ByPath ["tmp"; "tmpb"; "libespeak-ng.so.1.1.51"])))
              (Some ["tmp"; "tmpb"]) (Some ["usr"; "lib"; "libespeak-ng.so.1.1.51"]))
  ∧ ∀ name,
      (get_current_voice 1 (set_voice_by_name 0 name w2).1).2 = (get_current_voice 1 w2).2.
Proof.
  assert (H0 : wf_world w0) by (vm_compute; reflexivity).
  assert (H1 : __init__ E_linux "libespeak-ng.so.1" w0 = (w1, Ok 0)).
  { unfold w1. apply pair_snd. vm_compute. reflexivity. }
  assert (H2 : __init__ E_linux "libespeak-ng.so.1" w1 = (w2, Ok 1)).
  { unfold w2. apply pair_snd. vm_compute. reflexivity. }
  assert (Hrun : run E_linux w0 w2).
  { eapply run_construct; [|exact H2]. eapply run_construct; [|exact H1]. apply run_start. }
  assert (Ha : w_heap w2 !! 0
    = Some (mkInstance (Some (mkCDLL 1 (ByPath ["tmp"; "tmpa"; "libespeak-ng.so.1.1.51"])))
              (Some ["tmp"; "tmpa"]) (Some ["usr"; "lib"; "libespeak-ng.so.1.1.51"])))
    by (vm_compute; reflexivity).
  assert (Hb : w_heap w2 !! 1
    = Some (mkInstance (Some (mkCDLL 2 (ByPath ["tmp"; "tmpb"; "libespeak-ng.so.1.1.51"])))
              (Some ["tmp"; "tmpb"]) (Some ["usr"; "lib"; "libespeak-ng.so.1.1.51"])))
    by (vm_compute; reflexivity).
  split; [exact H0|]. split; [reflexivity|]. split; [exact Hrun|].
  split; [exact Ha|]. split; [exact Hb|].
  destruct (instances_are_isolated E_linux w0 w2 0 1 _ _ _ _ H0 eq_refl Hrun
              (ltac:(discriminate) : 0 ≠ 1) Ha Hb eq_refl eq_refl)
    as (da & db & _ & _ & _ & _ & _ & _ & Hni).
  intros name. exact (proj1 (Hni name)).
Defined.

(** C2 fails as stated: the load fails, the error surfaces, and the
    directory made at the start is still there. *)
Lemma load_failure_tempdir_still_present :
  LoadLibrary E_linux (ByName "libnothere.so") w0 = (w0, Raise (OSError PlainOSError))
  ∧ (__init__ E_linux "libnothere.so" w0).2 = Raise (RuntimeError (failed_to_load PlainOSError))
  ∧ w_fs w0 !! ["tmp"; "tmpa"] = None
  ∧ w_heap (__init__ E_linux "libnothere.so" w0).1 !! 0
    = Some (mkInstance None (Some ["tmp"; "tmpa"]) None)
  ∧ w_fs (__init__ E_linux "libnothere.so" w0).1 !! ["tmp"; "tmpa"] = Some Dir.
Proof. by_evaluation. Qed.

(** C2, as the code has it, for a library name the loader does not know. *)
Lemma load_failure_leaves_tempdir_to_finalizer_witness :
  (mkdtemp E_linux w0).2 = Ok ["tmp"; "tmpa"]
  ∧ (LoadLibrary E_linux (ByName "libnothere.so") (mkdtemp E_linux w0).1).2
    = Raise (OSError PlainOSError)
  ∧ LoadError_raised (__init__ E_linux "libnothere.so" w0).2
  ∧ w_fs w0 !! ["tmp"; "tmpa"] = None
  ∧ w_fs (__init__ E_linux "libnothere.so" w0).1 !! ["tmp"; "tmpa"] = Some Dir
  ∧ (∀ p, ["tmp"; "tmpa"] `prefix_of` p →
          w_fs (run_finalizer (length (w_registry w0))
                  (__init__ E_linux "libnothere.so" w0).1) !! p = None)
  ∧ w_trace (run_finalizer (length (w_registry w0)) (__init__ E_linux "libnothere.so" w0).1)
    = w_trace w0.
Proof.
  assert (H0 : (mkdtemp E_linux w0).2 = Ok ["tmp"; "tmpa"]) by (vm_compute; reflexivity).
  assert (H1 : (LoadLibrary E_linux (ByName "libnothere.so") (mkdtemp E_linux w0).1).2
               = Raise (OSError PlainOSError)) by (vm_compute; reflexivity).
  split; [exact H0|]. split; [exact H1|].
  destruct (load_failure_leaves_tempdir_to_finalizer E_linux "libnothere.so" w0
              (__init__ E_linux "libnothere.so" w0).1
              (__init__ E_linux "libnothere.so" w0).2 PlainOSError ["tmp"; "tmpa"] H0 H1
              (surjective_pairing _))
    as (_ & Hr & Hnone & _ & Hdir & _ & _ & _ & _ & Hgone & Htr).
  split; [exact Hr|]. split; [exact Hnone|]. split; [exact Hdir|].
  split; [exact Hgone|]. exact Htr.
Defined.

(** C3 fails as stated: a terminate call that raises leaves the
    directory and the copy behind, from [_terminate] and from the
    finalizer alike. *)
Lemma terminate_raising_leaves_tempdir :
  w_heap wT !! 0
  = Some (mkInstance (Some (mkCDLL 1 (ByPath ["tmp"; "tmpa"; "libespeak-ng.so.1.1.51"])))
            (Some ["tmp"; "tmpa"]) (Some ["usr"; "lib"; "libespeak-ng.so.1.1.51"]))
  ∧ (_terminate 0 wT).2 = Raise (OSError PlainOSError)
  ∧ w_fs (_terminate 0 wT).1 !! ["tmp"; "tmpa"] = Some Dir
  ∧ w_fs (run_finalizer 0 wT) !! ["tmp"; "tmpa"] = Some Dir
  ∧ w_fs (run_finalizer 0 wT) !! ["tmp"; "tmpa"; "libespeak-ng.so.1.1.51"]
    = Some (File "ESPEAK, Terminate raises")
  ∧ w_stderr (run_finalizer 0 wT) = [OSError PlainOSError].
Proof. by_evaluation. Qed.

(** C3, as the code has it, for the instance of [w1]. *)
Lemma teardown_outcomes_witness :
  w_registry w1 !! 0 = Some (mkFinalizer 0 (Bound_terminate 0) true)
  ∧ w_heap w1 !! 0
    = Some (mkInstance (Some (mkCDLL 1 (ByPath ["tmp"; "tmpa"; "libespeak-ng.so.1.1.51"])))
              (Some ["tmp"; "tmpa"]) (Some ["usr"; "lib"; "libespeak-ng.so.1.1.51"]))
  ∧ w_fs w1 !! ["tmp"; "tmpa"] = Some Dir
  ∧ w_modules w1 !! 1
    = Some (mkModule ["tmp"; "tmpa"; "libespeak-ng.so.1.1.51"]
              ["tmp"; "tmpa"; "libespeak-ng.so.1.1.51"] (espeak_ng false false) 0%Z)
  ∧ (_terminate 0 w1).2 = Ok ()
  ∧ w_fs (_terminate 0 w1).1 = rmtree_fs ["tmp"; "tmpa"] (w_fs w1)
  ∧ w_fs (run_finalizer 0 w1) = rmtree_fs ["tmp"; "tmpa"] (w_fs w1)
  ∧ (∀ p, ["tmp"; "tmpa"] `prefix_of` p → rmtree_fs ["tmp"; "tmpa"] (w_fs w1) !! p = None)
  ∧ w_stderr (run_finalizer 0 w1) = w_stderr w1.
Proof.
  assert (Hreg : w_registry w1 !! 0 = Some (mkFinalizer 0 (Bound_terminate 0) true))
    by (vm_compute; reflexivity).
  assert (Hheap : w_heap w1 !! 0
    = Some (mkInstance (Some (mkCDLL 1 (ByPath ["tmp"; "tmpa"; "libespeak-ng.so.1.1.51"])))
              (Some ["tmp"; "tmpa"]) (Some ["usr"; "lib"; "libespeak-ng.so.1.1.51"])))
    by (vm_compute; reflexivity).
  assert (Hfs : w_fs w1 !! ["tmp"; "tmpa"] = Some Dir) by (vm_compute; reflexivity).
  assert (Hm : w_modules w1 !! 1
    = Some (mkModule ["tmp"; "tmpa"; "libespeak-ng.so.1.1.51"]
              ["tmp"; "tmpa"; "libespeak-ng.so.1.1.51"] (espeak_ng false false) 0%Z))
    by (vm_compute; reflexivity).
  split; [exact Hreg|]. split; [exact Hheap|]. split; [exact Hfs|]. split; [exact Hm|].
  destruct (teardown_outcomes 0 0 w1 _ _ _ Hreg eq_refl eq_refl Hheap eq_refl Hfs)
    as (H & Hgone & _).
  destruct (H _ (λ _ _, (0%Z, NRet 0 [])) Hm eq_refl) as (_ & H1 & H2 & H3 & H4).
  split; [exact H1|]. split; [exact H2|]. split; [exact H3|]. split; [exact Hgone|].
  exact H4.
Defined.

(** C4: with no reference left anywhere in the program a collection does
    nothing; the directory goes when the interpreter exits. *)
Lemma unreferenced_instance_is_never_collected :
  gc_collect [] w1 = w1
  ∧ w_fs (gc_collect [] w1) !! ["tmp"; "tmpa"] = Some Dir
  ∧ w_fs (exitfunc w1) !! ["tmp"; "tmpa"] = None.
Proof. by_evaluation. Qed.

(** C4, what the code does, for the instance of [w1]. *)
Lemma finalizer_holds_the_instance_witness :
  __init__ E_linux "libespeak-ng.so.1" w0 = (w1, Ok 0)
  ∧ ∃ f, w_registry w1 !! 0 = Some f
       ∧ fin_obj f = 0
       ∧ fin_alive f = true
       ∧ fin_func f = Bound_terminate 0
       ∧ callable_refs (fin_func f) = [0]
       ∧ (∀ roots, reachable roots w1 0 = true)
       ∧ (∀ roots, gc_step roots w1 0 = w1).
Proof.
  assert (H1 : __init__ E_linux "libespeak-ng.so.1" w0 = (w1, Ok 0)).
  { unfold w1. apply pair_snd. vm_compute. reflexivity. }
  split; [exact H1|].
  exact (finalizer_holds_the_instance E_linux "libespeak-ng.so.1" w0 w1 0 H1).
Defined.

(** C5 for the construction that leads from [w0] to [w1]. *)
Lemma init_calls_Initialize_once_witness :
  w_heap w1 !! 0
  = Some (mkInstance (Some (mkCDLL 1 (ByPath ["tmp"; "tmpa"; "libespeak-ng.so.1.1.51"])))
            (Some ["tmp"; "tmpa"]) (Some ["usr"; "lib"; "libespeak-ng.so.1.1.51"]))
  ∧ ∃ res,
      w_trace w1 = [EvCall 1 "espeak_Initialize" [CInt 2; CInt 0; CPtr 0; CInt 0] res]
      ∧ match res with
        | NRet raw _ =>
            (InitializationError_raised (__init__ E_linux "libespeak-ng.so.1" w0).2
             ↔ (wrap_int32 raw ≤ 0)%Z)
            ∧ ((__init__ E_linux "libespeak-ng.so.1" w0).2 = Ok 0 ↔ (0 < wrap_int32 raw)%Z)
        | NRaise e => (__init__ E_linux "libespeak-ng.so.1" w0).2 = Raise e
        end.
Proof.
  assert (Hheap : w_heap w1 !! 0
    = Some (mkInstance (Some (mkCDLL 1 (ByPath ["tmp"; "tmpa"; "libespeak-ng.so.1.1.51"])))
              (Some ["tmp"; "tmpa"]) (Some ["usr"; "lib"; "libespeak-ng.so.1.1.51"])))
    by (vm_compute; reflexivity).
  split; [exact Hheap|].
  refine (init_calls_Initialize_once E_linux "libespeak-ng.so.1" w0 w1
            (__init__ E_linux "libespeak-ng.so.1" w0).2 _ _
            (mkModule ["tmp"; "tmpa"; "libespeak-ng.so.1.1.51"]
               ["tmp"; "tmpa"; "libespeak-ng.so.1.1.51"] (espeak_ng false false) 0%Z)
            (surjective_pairing _) Hheap eq_refl _ _).
  - vm_compute. reflexivity.
  - vm_compute. eexists. reflexivity.
Defined.

(** C6 for the construction that leads from [w0] to [w1]. *)
Lemma construction_loads_private_copy_witness :
  wf_world w0
  ∧ __init__ E_linux "libespeak-ng.so.1" w0 = (w1, Ok 0)
  ∧ ∃ (d lp : path) (b : string) (lib : CDLL) (m : Module Z),
      w_heap w1 !! 0 = Some (mkInstance (Some lib) (Some d) (Some lp))
      ∧ w_fs w0 !! d = None
      ∧ w_fs w1 !! d = Some Dir
      ∧ w_fs w0 !! lp = Some (File b)
      ∧ w_fs w1 !! lp = Some (File b)
      ∧ w_fs w1 !! (d ++ [path_name lp]) = Some (File b)
      ∧ _name lib = ByPath (d ++ [path_name lp])
      ∧ w_modules w0 !! _handle lib = None
      ∧ w_modules w1 !! _handle lib = Some m
      ∧ l_name m = d ++ [path_name lp]
      ∧ l_real m = d ++ [path_name lp]
      ∧ dl_image E_linux b = Some (m_lib m).
Proof.
  assert (H0 : wf_world w0) by (vm_compute; reflexivity).
  assert (H1 : __init__ E_linux "libespeak-ng.so.1" w0 = (w1, Ok 0)).
  { unfold w1. apply pair_snd. vm_compute. reflexivity. }
  split; [exact H0|]. split; [exact H1|].
  exact (construction_loads_private_copy E_linux "libespeak-ng.so.1" w0 w1 0 H0 H1).
Defined.

(** C7, what the code does.  On Windows the path of a loaded library is
    [pathlib.Path(library._name).resolve()] with no handler around it: an
    [OSError] of the resolution leaves [_shared_library_path] as it is,
    not as the [RuntimeError] "failed to retrieve the path", and the
    constructor then reports it as a failure to load. *)
Theorem shared_library_path_win32_passes_errors_on :
  sys_platform E_win32 = win32
  ∧ (LoadLibrary E_win32 (ByName "libespeak-ng.dll") w_win32).2
    = Ok (mkCDLL 0 (ByName "libespeak-ng.dll"))
  ∧ (_shared_library_path E_win32 (mkCDLL 0 (ByName "libespeak-ng.dll"))
       (LoadLibrary E_win32 (ByName "libespeak-ng.dll") w_win32).1).2
    = Raise (OSError PermissionError)
  ∧ ¬ PathResolutionError (OSError PermissionError)
  ∧ (__init__ E_win32 "libespeak-ng.dll" w_win32).2
    = Raise (RuntimeError (failed_to_load PermissionError)).
Proof.
  split; [reflexivity|]. split; [vm_compute; reflexivity|].
  split; [vm_compute; reflexivity|]. split; [discriminate|].
  vm_compute. reflexivity.
Qed.

(** The same with a link that leads to itself: the [RuntimeError] of
    [resolve] comes out, which is not the one of the bindings. *)
Lemma shared_library_path_win32_symlink_loop :
  (_shared_library_path E_win32 (mkCDLL 0 (ByName "espeak.dll")) w_win32).2
  = Raise (RuntimeError symlink_loop)
  ∧ ¬ PathResolutionError (RuntimeError symlink_loop).
Proof. split; [vm_compute; reflexivity|discriminate]. Qed.

(** The loader on the toy machines: a name with a NUL byte is refused
    before anything is looked up, and the constructor passes the
    [ValueError] on; the empty name gives the main program, whose path
    is the working directory, which cannot be copied; a path object is
    refused on Windows before Python 3.12; and a [c_void_p] parameter takes
    any integer, reduced to 64 bits. *)
Lemma loader_and_marshalling_edge_cases :
  (LoadLibrary E_linux (ByName (String.append "libespeak-ng.so.1" (String Ascii.zero "")))
     w0).2 = Raise ValueError_embedded_null_byte
  ∧ (__init__ E_linux (String.append "libespeak-ng.so.1" (String Ascii.zero "")) w0).2
    = Raise ValueError_embedded_null_byte
  ∧ (__init__ E_linux "" w0).2 = Raise (OSError IsADirectoryError)
  ∧ (LoadLibrary E_win32 (ByPath ["C:"; "eSpeak NG"; "libespeak-ng.dll"]) w_win32).2
    = Raise TypeError
  ∧ from_param ∅ c_void_p (PyInt (2 ^ 64 + 5)) = Some (CPtr 5)
  ∧ from_param ∅ c_void_p (PyInt (-1)) = Some (CPtr 18446744073709551615).
Proof. by_evaluation. Qed.



(** C9: an integer mode is turned down, and a [c_uint] object goes to the
    library as its address, not its value. *)
Lemma synthetize_mode_marshalling :
  (synthetize 0 (PyBytes 60 "hello") (PyInt 6) (PyInt 1) w1).2 = Raise (ArgumentError 6)
  ∧ w_trace (synthetize 0 (PyBytes 60 "hello") (PyInt 6) (PyInt 1) w1).1 = w_trace w1
  ∧ w_trace (synthetize 0 (PyBytes 60 "hello") (PyInt 6) (PyCData c_uint 88)
               (set_cmem (insert 88%Z 1%Z) 1000 w1)).1
    = w_trace w1 ++
      [EvCall 1 "espeak_Synth"
         [CPtr 60; CSize 6; CUInt 0; CInt 1; CUInt 0; CPtr 88; CPtr 0; CPtr 0]
         (NRet 0 [])].
Proof. by_evaluation. Qed.

(** C10 for a library whose current-voice query answers NULL. *)
Lemma get_current_voice_null_pointer_witness :
  w_heap wN !! 0
  = Some (mkInstance (Some (mkCDLL 1 (ByPath ["tmp"; "tmpa"; "libespeak-ng.so.1.1.51"])))
            (Some ["tmp"; "tmpa"]) (Some ["usr"; "lib"; "libespeak-ng.so.1.1.51"]))
  ∧ (get_current_voice 0 wN).2 = Raise ValueError_NULL_pointer_access.
Proof.
  assert (Hheap : w_heap wN !! 0
    = Some (mkInstance (Some (mkCDLL 1 (ByPath ["tmp"; "tmpa"; "libespeak-ng.so.1.1.51"])))
              (Some ["tmp"; "tmpa"]) (Some ["usr"; "lib"; "libespeak-ng.so.1.1.51"])))
    by (vm_compute; reflexivity).
  split; [exact Hheap|].
  refine (proj1 (get_current_voice_null_pointer 0 wN _ _
            (mkModule ["tmp"; "tmpa"; "libespeak-ng.so.1.1.51"]
               ["tmp"; "tmpa"; "libespeak-ng.so.1.1.51"] (espeak_ng false true) 0%Z)
            (λ st _, (st, NRet 0 [])) 0%Z [] Hheap eq_refl _ _ _) eq_refl).
  - vm_compute. reflexivity.
  - vm_compute. reflexivity.
  - reflexivity.
Defined.

(** ** The further properties on the toy machines *)

(** X1 for the instance of [w1]: the library was asked for as
    [libespeak-ng.so.1], a link to the file that [library_path] names. *)
Lemma library_path_is_the_original_witness :
  wf_world w0
  ∧ __init__ E_linux "libespeak-ng.so.1" w0 = (w1, Ok 0)
  ∧ ∃ (lp d : path) (b : string) (lib : CDLL) (m : Module Z),
      library_path 0 w1 = (w1, Ok lp)
      ∧ w_heap w1 !! 0 = Some (mkInstance (Some lib) (Some d) (Some lp))
      ∧ w_fs w1 !! lp = Some (File b)
      ∧ ¬ d `prefix_of` lp
      ∧ w_modules w1 !! _handle lib = Some m
      ∧ l_real m ≠ lp
      ∧ ∃ (wD wL : World Z) (espeak : CDLL),
          w_fs wD = <[d := Dir]> (w_fs w0)
          ∧ w_modules wD = w_modules w0
          ∧ LoadLibrary E_linux (ByName "libespeak-ng.so.1") wD = (wL, Ok espeak)
          ∧ _name espeak = ByName "libespeak-ng.so.1"
          ∧ w_fs wL = w_fs wD
          ∧ _shared_library_path E_linux espeak wL = (wL, Ok lp)
          ∧ ∃ m0, w_modules wL !! _handle espeak = Some m0
                  ∧ realpath (w_fs wD) (l_name m0) = Some lp.
Proof.
  assert (H0 : wf_world w0) by (vm_compute; reflexivity).
  assert (H1 : __init__ E_linux "libespeak-ng.so.1" w0 = (w1, Ok 0)).
  { unfold w1. apply pair_snd. vm_compute. reflexivity. }
  split; [exact H0|]. split; [exact H1|].
  exact (library_path_is_the_original E_linux "libespeak-ng.so.1" w0 w1 0 H0 H1).
Defined.

(** X2 for a library name the loader does not know. *)
Lemma library_path_unset_when_construction_fails_witness :
  __init__ E_linux "libnothere.so" w0
  = (wL, Raise (RuntimeError (failed_to_load PlainOSError)))
  ∧ library_path 0 wL = (wL, Raise (AttributeError "_library_path")).
Proof.
  assert (H1 : __init__ E_linux "libnothere.so" w0
               = (wL, Raise (RuntimeError (failed_to_load PlainOSError)))).
  { unfold wL. apply pair_snd. vm_compute. reflexivity. }
  split; [exact H1|].
  exact (library_path_unset_when_construction_fails E_linux "libnothere.so" w0 wL _ H1).
Defined.

(** X3 for the construction that leads from [w0] to [w1]. *)
Lemma construction_touches_only_its_tempdir_witness :
  wf_world w0
  ∧ __init__ E_linux "libespeak-ng.so.1" w0 = (w1, Ok 0)
  ∧ ∀ p x, w_fs w0 !! p = Some x → w_fs w1 !! p = Some x.
Proof.
  assert (H0 : wf_world w0) by (vm_compute; reflexivity).
  assert (H1 : __init__ E_linux "libespeak-ng.so.1" w0 = (w1, Ok 0)).
  { unfold w1. apply pair_snd. vm_compute. reflexivity. }
  split; [exact H0|]. split; [exact H1|].
  exact (proj1 (construction_touches_only_its_tempdir E_linux "libespeak-ng.so.1"
                  w0 w1 (Ok 0) H0 H1)).
Defined.

(** X4 for the instance of [w1]. *)
Lemma teardown_undoes_construction_on_disk_witness :
  wf_world w0
  ∧ __init__ E_linux "libespeak-ng.so.1" w0 = (w1, Ok 0)
  ∧ (_terminate 0 w1).2 = Ok ()
  ∧ w_fs (_terminate 0 w1).1 = w_fs w0.
Proof.
  assert (H0 : wf_world w0) by (vm_compute; reflexivity).
  assert (H1 : __init__ E_linux "libespeak-ng.so.1" w0 = (w1, Ok 0)).
  { unfold w1. apply pair_snd. vm_compute. reflexivity. }
  assert (H2 : (_terminate 0 w1).2 = Ok ()) by (vm_compute; reflexivity).
  split; [exact H0|]. split; [exact H1|]. split; [exact H2|].
  exact (teardown_undoes_construction_on_disk E_linux "libespeak-ng.so.1" w0 w1
           (_terminate 0 w1).1 (Ok 0) H0 H1 (pair_snd _ _ H2)).
Defined.

(** X5 for the instance of [w1]: the second teardown calls
    [espeak_Terminate] once more and fails. *)
Lemma second_teardown_fails_witness :
  w_heap w1 !! 0
  = Some (mkInstance (Some (mkCDLL 1 (ByPath ["tmp"; "tmpa"; "libespeak-ng.so.1.1.51"])))
            (Some ["tmp"; "tmpa"]) (Some ["usr"; "lib"; "libespeak-ng.so.1.1.51"]))
  ∧ (_terminate 0 w1).2 = Ok ()
  ∧ ∃ e, (_terminate 0 (_terminate 0 w1).1).2 = Raise e
       ∧ w_fs (_terminate 0 (_terminate 0 w1).1).1 = w_fs (_terminate 0 w1).1.
Proof.
  assert (Hheap : w_heap w1 !! 0
    = Some (mkInstance (Some (mkCDLL 1 (ByPath ["tmp"; "tmpa"; "libespeak-ng.so.1.1.51"])))
              (Some ["tmp"; "tmpa"]) (Some ["usr"; "lib"; "libespeak-ng.so.1.1.51"])))
    by (vm_compute; reflexivity).
  assert (H2 : (_terminate 0 w1).2 = Ok ()) by (vm_compute; reflexivity).
  split; [exact Hheap|]. split; [exact H2|].
  destruct (second_teardown_fails 0 w1 (_terminate 0 w1).1 _ ["tmp"; "tmpa"]
              Hheap eq_refl (pair_snd _ _ H2)) as (e & He & Hfs & _).
  exists e. split; [exact He|exact Hfs].
Defined.

(** X6 on the machine whose library exports every entry point. *)
Lemma info_returns_version_and_data_path_witness :
  w_heap wF !! 0 = Some instF
  ∧ w_modules wF !! 1 = Some modF
  ∧ ∃ w' version value,
      info 0 wF = (w', Ok (PyTuple version value))
      ∧ (∃ a, version = PyBytes a "1.51")
      ∧ (∃ a, value = PyBytes a "/usr/share/espeak-ng-data").
Proof.
  assert (Hheap : w_heap wF !! 0 = Some instF) by (vm_compute; reflexivity).
  assert (Hmod : w_modules wF !! 1 = Some modF) by (vm_compute; reflexivity).
  split; [exact Hheap|]. split; [exact Hmod|].
  assert (Hsym : nl_sym (m_lib modF) "espeak_Info"
                 = Some (λ st args, match args with
                                    | [CPtr p] => (st, NRet 7100 [(p, 7000%Z)])
                                    | _ => (st, NRet 7100 [])
                                    end)) by (vm_compute; reflexivity).
  destruct (info_returns_version_and_data_path 0 wF instF (mkCDLL 1 (ByPath copy_path)) modF
              _ 0%Z 7100%Z [(1000%Z, 7000%Z)] Hheap eq_refl Hmod Hsym
              ltac:(vm_compute; reflexivity))
    as (w' & version & value & H1 & H2 & H3 & _).
  exists w', version, value. split; [exact H1|].
  vm_compute in H2. vm_compute in H3. split; [exact H2|exact H3].
Defined.

(** X7 on the same machine. *)
Lemma list_voices_of_None_witness :
  w_heap wF !! 0 = Some instF
  ∧ w_modules wF !! 1 = Some modF
  ∧ (list_voices 0 PyNone wF).2
    = Ok (PyCData (POINTER (POINTER EspeakVoice_Struct)) 1000)
  ∧ cell (w_cmem (list_voices 0 PyNone wF).1) 1000 = 0%Z.
Proof.
  assert (Hheap : w_heap wF !! 0 = Some instF) by (vm_compute; reflexivity).
  assert (Hmod : w_modules wF !! 1 = Some modF) by (vm_compute; reflexivity).
  split; [exact Hheap|]. split; [exact Hmod|].
  assert (Hsym : nl_sym (m_lib modF) "espeak_ListVoices"
                 = Some (λ st _, (st, NRet 0 []))) by (vm_compute; reflexivity).
  destruct (list_voices_of_None 0 wF instF (mkCDLL 1 (ByPath copy_path)) modF
              _ 0%Z 0%Z [] Hheap eq_refl Hmod Hsym eq_refl) as (H1 & H2 & _).
  split; [exact H1|exact H2].
Defined.

(** X8 on the same machine, for the name of a voice given as [bytes]. *)
Lemma list_voices_rejects_names_that_are_not_pointers_witness :
  w_heap wF !! 0 = Some instF
  ∧ w_modules wF !! 1 = Some modF
  ∧ list_voices 0 (PyBytes 60 "en") wF = (wF, Raise (ArgumentError 1)).
Proof.
  assert (Hheap : w_heap wF !! 0 = Some instF) by (vm_compute; reflexivity).
  assert (Hmod : w_modules wF !! 1 = Some modF) by (vm_compute; reflexivity).
  split; [exact Hheap|]. split; [exact Hmod|].
  assert (Hsym : nl_sym (m_lib modF) "espeak_ListVoices"
                 = Some (λ st _, (st, NRet 0 []))) by (vm_compute; reflexivity).
  exact (list_voices_rejects_names_that_are_not_pointers 0 (PyBytes 60 "en") wF instF
           (mkCDLL 1 (ByPath copy_path)) modF _ Hheap eq_refl Hmod Hsym
           (or_introl (ex_intro _ 60%Z (ex_intro _ "en" (or_introl eq_refl))))).
Defined.

(** X9 on the same machine. *)
Lemma set_voice_by_name_returns_the_status_witness :
  w_heap wF !! 0 = Some instF
  ∧ w_modules wF !! 1 = Some modF
  ∧ (set_voice_by_name 0 (PyBytes 60 "en") wF).2 = Ok (PyInt 0)
  ∧ w_modules (set_voice_by_name 0 (PyBytes 60 "en") wF).1 !! 1
    = Some (mkModule copy_path copy_path espeak_full 60%Z).
Proof.
  assert (Hheap : w_heap wF !! 0 = Some instF) by (vm_compute; reflexivity).
  assert (Hmod : w_modules wF !! 1 = Some modF) by (vm_compute; reflexivity).
  split; [exact Hheap|]. split; [exact Hmod|].
  assert (Hsym : nl_sym (m_lib modF) "espeak_SetVoiceByName"
                 = Some (λ st args, match args with
                                    | [CPtr a] => (a, NRet 0 [])
                                    | _ => (st, NRet 2 [])
                                    end)) by (vm_compute; reflexivity).
  destruct (set_voice_by_name_returns_the_status 0 60 "en" wF instF
              (mkCDLL 1 (ByPath copy_path)) modF _ 60%Z 0%Z [] Hheap eq_refl Hmod Hsym eq_refl)
    as (H1 & _ & H2 & _).
  split; [exact H1|exact H2].
Defined.

(** X10 on the same machine, for a name given as [str]. *)
Lemma set_voice_by_name_rejects_str_witness :
  w_heap wF !! 0 = Some instF
  ∧ w_modules wF !! 1 = Some modF
  ∧ set_voice_by_name 0 (PyStr 60 "en") wF = (wF, Raise (ArgumentError 1)).
Proof.
  assert (Hheap : w_heap wF !! 0 = Some instF) by (vm_compute; reflexivity).
  assert (Hmod : w_modules wF !! 1 = Some modF) by (vm_compute; reflexivity).
  split; [exact Hheap|]. split; [exact Hmod|].
  assert (Hsym : nl_sym (m_lib modF) "espeak_SetVoiceByName"
                 = Some (λ st args, match args with
                                    | [CPtr a] => (a, NRet 0 [])
                                    | _ => (st, NRet 2 [])
                                    end)) by (vm_compute; reflexivity).
  exact (set_voice_by_name_rejects_str 0 (PyStr 60 "en") wF instF
           (mkCDLL 1 (ByPath copy_path)) modF _ Hheap eq_refl Hmod Hsym
           (or_introl (ex_intro _ 60%Z (ex_intro _ "en" eq_refl)))).
Defined.

(** X11 on the same machine: the library answers the phonemes and sets
    the caller's [c_char_p] to NULL, the text being used up. *)
Lemma text_to_phonemes_result_witness :
  w_heap wP !! 0 = Some instF
  ∧ w_modules wP !! 1 = Some modF
  ∧ cell (w_cmem wP) 56 = 48%Z
  ∧ cell (w_cmem wP) 48 = 40%Z
  ∧ (∃ a, (text_to_phonemes 0 (PyCData (POINTER c_char_p) 56) (PyInt 1) (PyInt 2) wP).2
          = Ok (PyBytes a "h@loU"))
  ∧ cell (w_cmem (text_to_phonemes 0 (PyCData (POINTER c_char_p) 56)
                    (PyInt 1) (PyInt 2) wP).1) 48 = 0%Z.
Proof.
  assert (Hheap : w_heap wP !! 0 = Some instF) by (vm_compute; reflexivity).
  assert (Hmod : w_modules wP !! 1 = Some modF) by (vm_compute; reflexivity).
  split; [exact Hheap|]. split; [exact Hmod|].
  split; [vm_compute; reflexivity|]. split; [vm_compute; reflexivity|].
  assert (Hsym : nl_sym (m_lib modF) "espeak_TextToPhonemes"
                 = Some (λ st args, match args with
                                    | CPtr a :: _ => (st, NRet 7200 [(a, 0%Z)])
                                    | _ => (st, NRet 0 [])
                                    end)) by (vm_compute; reflexivity).
  destruct (text_to_phonemes_result 0 56 1 2 wP instF (mkCDLL 1 (ByPath copy_path)) modF
              _ 0%Z 7200%Z [(48%Z, 0%Z)] Hheap eq_refl Hmod Hsym
              ltac:(vm_compute; reflexivity))
    as (H1 & H2 & _).
  vm_compute in H1. split; [exact H1|].
  rewrite (H2 48%Z ltac:(vm_compute; discriminate)). vm_compute. reflexivity.
Defined.

(** X12 on the same machine. *)
Lemma text_to_phonemes_rejects_plain_text_witness :
  w_heap wF !! 0 = Some instF
  ∧ w_modules wF !! 1 = Some modF
  ∧ text_to_phonemes 0 (PyBytes 40 "hello") (PyInt 1) (PyInt 2) wF
    = (wF, Raise (ArgumentError 1)).
Proof.
  assert (Hheap : w_heap wF !! 0 = Some instF) by (vm_compute; reflexivity).
  assert (Hmod : w_modules wF !! 1 = Some modF) by (vm_compute; reflexivity).
  split; [exact Hheap|]. split; [exact Hmod|].
  assert (Hsym : nl_sym (m_lib modF) "espeak_TextToPhonemes"
                 = Some (λ st args, match args with
                                    | CPtr a :: _ => (st, NRet 7200 [(a, 0%Z)])
                                    | _ => (st, NRet 0 [])
                                    end)) by (vm_compute; reflexivity).
  exact (proj1 (proj1 (text_to_phonemes_rejects_plain_text 0 wF instF
                         (mkCDLL 1 (ByPath copy_path)) modF _ Hheap eq_refl Hmod Hsym)
                  40%Z "hello" (PyInt 1) (PyInt 2))).
Defined.

(** X13 on the same machine: the library answers 5, the caller gets
    [None]. *)
Lemma set_phoneme_trace_returns_None_witness :
  w_heap wF !! 0 = Some instF
  ∧ w_modules wF !! 1 = Some modF
  ∧ (set_phoneme_trace 0 (PyInt 7) (PyInt 9000) wF).2 = Ok PyNone
  ∧ w_trace (set_phoneme_trace 0 (PyInt 7) (PyInt 9000) wF).1
    = w_trace wF ++ [EvCall 1 "espeak_SetPhonemeTrace" [CInt 7; CPtr 9000] (NRet 5 [])].
Proof.
  assert (Hheap : w_heap wF !! 0 = Some instF) by (vm_compute; reflexivity).
  assert (Hmod : w_modules wF !! 1 = Some modF) by (vm_compute; reflexivity).
  split; [exact Hheap|]. split; [exact Hmod|].
  assert (Hsym : nl_sym (m_lib modF) "espeak_SetPhonemeTrace"
                 = Some (λ st _, (st, NRet 5 []))) by (vm_compute; reflexivity).
  exact (set_phoneme_trace_returns_None 0 7 9000 wF instF (mkCDLL 1 (ByPath copy_path)) modF
           _ 0%Z 5%Z [] Hheap eq_refl Hmod Hsym ltac:(lia) eq_refl).
Defined.

(** X14 for [set_voice_by_name] on the same machine. *)
Lemma low_level_call_footprint_witness :
  w_heap wF !! 0 = Some instF
  ∧ same_os wF (run_method 0 (call_set_voice_by_name (PyBytes 60 "en")) wF).1
  ∧ length (w_modules (run_method 0 (call_set_voice_by_name (PyBytes 60 "en")) wF).1)
    = length (w_modules wF).
Proof.
  assert (Hheap : w_heap wF !! 0 = Some instF) by (vm_compute; reflexivity).
  split; [exact Hheap|].
  destruct (low_level_call_footprint 0 (call_set_voice_by_name (PyBytes 60 "en")) wF
              (run_method 0 (call_set_voice_by_name (PyBytes 60 "en")) wF).1
              (run_method 0 (call_set_voice_by_name (PyBytes 60 "en")) wF).2
              instF (mkCDLL 1 (ByPath copy_path)) Hheap eq_refl (surjective_pairing _))
    as (H1 & H2 & _).
  split; [exact H1|exact H2].
Defined.

(** X15 for [info] on the object a failed construction has left. *)
Lemma methods_without_entry_point_raise_witness :
  w_heap wL !! 0 = Some (mkInstance None (Some ["tmp"; "tmpa"]) None)
  ∧ run_method 0 call_info wL = (wL, Raise (AttributeError "espeak_Info")).
Proof.
  assert (Hheap : w_heap wL !! 0 = Some (mkInstance None (Some ["tmp"; "tmpa"]) None))
    by (vm_compute; reflexivity).
  split; [exact Hheap|].
  exact (methods_without_entry_point_raise 0 call_info wL _ Hheap (or_introl eq_refl)).
Defined.


(** X17 for the system library, as loaded during the construction of
    [w1]. *)
Lemma shared_library_path_on_posix_witness :
  sys_platform E_linux ≠ win32
  ∧ (_shared_library_path E_linux (mkCDLL 0 (ByName "libespeak-ng.so.1")) w1).2
    = Ok ["usr"; "lib"; "libespeak-ng.so.1.1.51"]
  ∧ (_shared_library_path E_linux (mkCDLL 0 (ByName "libespeak-ng.so.1")) w1).1 = w1
  ∧ ∃ m, w_modules w1 !! 0 = Some m
       ∧ realpath (w_fs w1) (l_name m) = Some ["usr"; "lib"; "libespeak-ng.so.1.1.51"].
Proof.
  assert (Hp : sys_platform E_linux ≠ win32) by discriminate.
  assert (H2 : (_shared_library_path E_linux (mkCDLL 0 (ByName "libespeak-ng.so.1")) w1).2
               = Ok ["usr"; "lib"; "libespeak-ng.so.1.1.51"]) by (vm_compute; reflexivity).
  split; [exact Hp|]. split; [exact H2|].
  destruct (shared_library_path_on_posix E_linux _ w1 _ _ Hp (pair_snd _ _ H2))
    as (Hw & m & Hm & Hr & _).
  split; [exact Hw|]. exists m. split; [exact Hm|exact Hr].
Defined.
